(** * volumeRPC: the streaming cache of the time series volume visualizer

    A shallow embedding of [volumeRPC.js] (module [tsRPC]) and the
    properties of its segment cache, prefetch scheduler, eviction sweeper
    and query functions.

    Modelling conventions.
    - JavaScript numbers that the module only ever uses as integers (time
      points, section indices, batch ids, sizes of the volume) are [Z].
      [bufferL2Size] is halved by the sizing code and compared with halves
      of itself by the sweeper, so it is a rational [Q]; all these values
      are small dyadic numbers, which IEEE doubles represent exactly.
      [NaN], which [%] yields for a zero divisor, is [None] in [option Q].
    - The object [tsRPC.bufferL2] is a finite map from section index to the
      parsed JSON; [tsRPC.backgroundL2] is a finite map from the voxel
      rendered as a string to the returned array of three planes.
    - The browser (timers, pending ajax calls, parser workers, the
      synchronous reader, [displayMessage]) is explicit in [world]; every
      callback the module registers is a transition of [step].
      [TSRPC_getVoxelRegion], which hands a url to [doAjaxCall] and
      touches no state of the module, is the url it asks for.

    The loops and the package hierarchy of [chordScript.js] are embedded in
    the module [Chord]. *)

From Stdlib Require Import ZArith QArith Qround String Ascii DecimalString DecimalZ Lia Lqa.
From stdpp Require Import gmap strings list fin_maps.

Local Open Scope Z_scope.

(** ** JavaScript values *)

Module JS.

Local Set Warnings "-register-all".

(** What [JSON.parse] can return. *)
Inductive json : Type :=
| JNull
| JBool (b : bool)
| JNum (q : Q)
| JStr (s : string)
| JArr (l : list json)
| JObj (kv : list (string * json)).

(** A value read from a property or an array slot: [None] is [undefined]. *)
Definition value : Type := option json.

(** Normal completion or a thrown exception. *)
Inductive completion (A : Type) : Type :=
| Normal (a : A)
| Throw (e : string).
Arguments Normal {A} a.
Arguments Throw {A} e.

(** [ToBoolean]. *)
Definition truthy (v : value) : bool :=
  match v with
  | None => false
  | Some JNull => false
  | Some (JBool b) => b
  | Some (JNum q) => negb (Qeq_bool q 0)
  | Some (JStr s) => negb (String.eqb s "")
  | Some (JArr _) => true
  | Some (JObj _) => true
  end.

(** [ToString] of an integer number (decimal, with a leading minus). *)
Definition toString (z : Z) : string :=
  NilEmpty.string_of_int (Z.to_int z).

(** The last binding of a key wins in a parsed object. *)
Fixpoint assoc_last (kv : list (string * json)) (k : string) : value :=
  match kv with
  | [] => None
  | (k', j) :: kv' =>
      match assoc_last kv' k with
      | Some j' => Some j'
      | None => if String.eqb k' k then Some j else None
      end
  end.

(** [v[i]] for an integer [i]. *)
Definition getIndex (v : value) (i : Z) : completion value :=
  match v with
  | None => Throw "TypeError"
  | Some JNull => Throw "TypeError"
  | Some (JArr l) =>
      Normal (if i <? 0 then None else l !! Z.to_nat i)
  | Some (JStr s) =>
      Normal (if i <? 0 then None
              else match String.get (Z.to_nat i) s with
                   | Some c => Some (JStr (String c EmptyString))
                   | None => None
                   end)
  | Some (JObj kv) => Normal (assoc_last kv (toString i))
  | Some (JBool _) => Normal None
  | Some (JNum _) => Normal None
  end.

(** [Array.prototype.indexOf]. *)
Fixpoint indexOf_from (l : list Z) (x : Z) (i : Z) : Z :=
  match l with
  | [] => -1
  | y :: l' => if y =? x then i else indexOf_from l' x (i + 1)
  end.

Definition indexOf (l : list Z) (x : Z) : Z := indexOf_from l x 0.

(** [l.splice(idx, 1)] for an index [idx > -1]. *)
Definition splice1 (l : list Z) (idx : Z) : list Z :=
  delete (Z.to_nat idx) l.

(** Truncation toward zero of a rational. *)
Definition Qtrunc (q : Q) : Z := Z.quot (Qnum q) (Zpos (Qden q)).

(** [x % y]: the remainder has the sign of the dividend; [NaN] for [y = 0]. *)
Definition rem (x y : Q) : option Q :=
  if Qeq_bool y 0 then None
  else Some (x - y * inject_Z (Qtrunc (x / y)))%Q.

(** [a < b] where [b] may be [NaN]: any comparison with [NaN] is false. *)
Definition lt_nan (a : Q) (b : option Q) : bool :=
  match b with
  | Some b' => negb (Qle_bool b' a)
  | None => false
  end.

Definition gt_nan (a : Q) (b : option Q) : bool :=
  match b with
  | Some b' => negb (Qle_bool a b')
  | None => false
  end.

End JS.

Import JS.

(** ** The module state *)

(** A voxel [selectedEntity = [x, y, z]]. *)
Definition voxel : Type := Z * Z * Z.

(** The array of three planes the query functions return. *)
Definition view : Type := value * value * value.

(** [entitySize = [sx, sy, sz, timeLength]]. *)
Definition entitySize : Type := Z * Z * Z * Z.

Record tsRPC : Type := mkRPC {
  timeLength : Z;
  bufferSize : Z;
  bufferL2Size : Q;
  lookAhead : Z;
  bufferL2 : gmap Z json;
  urlVolumeData : string;
  urlBackgroundVolumeData : string;
  backgroundL2 : gmap string view;
  requestQueue : list Z;
  batchID : Z;
  streamToBufferID : option positive;
  urlVoxelRegion : option string
}.

(** The object literal at the top of the module. *)
Definition tsRPC0 : tsRPC :=
  {| timeLength := 0;
     bufferSize := 1;
     bufferL2Size := 1;
     lookAhead := 10;
     bufferL2 := ∅;
     urlVolumeData := "";
     urlBackgroundVolumeData := "";
     backgroundL2 := ∅;
     requestQueue := [];
     batchID := 0;
     streamToBufferID := None;
     urlVoxelRegion := None |}.

(** What the callback [getCurrentEntityAndTime] returns. *)
Record point : Type := mkPoint {
  currentTimePoint : Z;
  selectedEntity : voxel
}.

(** ** Request urls *)

Definition voxelToUrlFragment (selectedEntity : voxel) : string :=
  let '(e0, e1, e2) := selectedEntity in
  let xPlane := ";x_plane=" +:+ toString e0 in
  let yPlane := ";y_plane=" +:+ toString e1 in
  let zPlane := ";z_plane=" +:+ toString e2 in
  (xPlane +:+ yPlane) +:+ zPlane.

Definition buildRequestUrl (urlVolumeData : string) (from to : Z)
    (selectedEntity : voxel) : string :=
  let spacialFragment := voxelToUrlFragment selectedEntity in
  ((((urlVolumeData +:+ "from_idx=") +:+ toString from) +:+ ";to_idx=")
     +:+ toString to) +:+ spacialFragment.

(** [selectedEntity + ""]: the elements joined by commas. *)
Definition voxelKey (selectedEntity : voxel) : string :=
  let '(e0, e1, e2) := selectedEntity in
  toString e0 +:+ "," +:+ toString e1 +:+ "," +:+ toString e2.

(** ** The browser around the module *)

(** The functions the module hands to [window.setInterval]. *)
Inductive callback : Type :=
| CbStreamToBuffer
| CbFreeBuffer.

(** An asynchronous [doAjaxCall] awaiting its answer.  The handlers close
    over [sect] and [privateID]. *)
Record ajaxCall : Type := mkAjax {
  ajax_url : string;
  ajax_sect : Z;
  ajax_privateID : Z
}.

Record world : Type := mkWorld {
  rpc : tsRPC;
  hasWorker : bool;                       (* window.Worker *)
  pendingAjax : list ajaxCall;            (* calls not answered yet *)
  parsers : list (Z * string);            (* workers parsing data for a section *)
  intervals : list (positive * callback); (* timers set and not cleared *)
  nextTimer : positive;                   (* the id setInterval returns next *)
  blockingReads : list string;            (* urls given to HLPR_readJSONfromFile *)
  messages : list (string * string)       (* calls of displayMessage *)
}.

Definition world0 (worker : bool) : world :=
  {| rpc := tsRPC0;
     hasWorker := worker;
     pendingAjax := [];
     parsers := [];
     intervals := [];
     nextTimer := 1%positive;
     blockingReads := [];
     messages := [] |}.

Definition with_rpc (r : tsRPC) (w : world) : world :=
  {| rpc := r;
     hasWorker := hasWorker w;
     pendingAjax := pendingAjax w;
     parsers := parsers w;
     intervals := intervals w;
     nextTimer := nextTimer w;
     blockingReads := blockingReads w;
     messages := messages w |}.

Definition with_pendingAjax (l : list ajaxCall) (w : world) : world :=
  {| rpc := rpc w;
     hasWorker := hasWorker w;
     pendingAjax := l;
     parsers := parsers w;
     intervals := intervals w;
     nextTimer := nextTimer w;
     blockingReads := blockingReads w;
     messages := messages w |}.

Definition with_parsers (l : list (Z * string)) (w : world) : world :=
  {| rpc := rpc w;
     hasWorker := hasWorker w;
     pendingAjax := pendingAjax w;
     parsers := l;
     intervals := intervals w;
     nextTimer := nextTimer w;
     blockingReads := blockingReads w;
     messages := messages w |}.

Definition with_intervals (l : list (positive * callback)) (n : positive)
    (w : world) : world :=
  {| rpc := rpc w;
     hasWorker := hasWorker w;
     pendingAjax := pendingAjax w;
     parsers := parsers w;
     intervals := l;
     nextTimer := n;
     blockingReads := blockingReads w;
     messages := messages w |}.

Definition with_blockingReads (l : list string) (w : world) : world :=
  {| rpc := rpc w;
     hasWorker := hasWorker w;
     pendingAjax := pendingAjax w;
     parsers := parsers w;
     intervals := intervals w;
     nextTimer := nextTimer w;
     blockingReads := l;
     messages := messages w |}.

Definition with_messages (l : list (string * string)) (w : world) : world :=
  {| rpc := rpc w;
     hasWorker := hasWorker w;
     pendingAjax := pendingAjax w;
     parsers := parsers w;
     intervals := intervals w;
     nextTimer := nextTimer w;
     blockingReads := blockingReads w;
     messages := l |}.

(** Field updates of [tsRPC]. *)
Definition set_init (vol bg : string) (region : option string) (tl : Z)
    (r : tsRPC) : tsRPC :=
  {| timeLength := tl;
     bufferSize := bufferSize r;
     bufferL2Size := bufferL2Size r;
     lookAhead := lookAhead r;
     bufferL2 := bufferL2 r;
     urlVolumeData := vol;
     urlBackgroundVolumeData := bg;
     backgroundL2 := backgroundL2 r;
     requestQueue := requestQueue r;
     batchID := batchID r;
     streamToBufferID := streamToBufferID r;
     urlVoxelRegion := region |}.

Definition set_sizes (bs : Z) (l2 : Q) (r : tsRPC) : tsRPC :=
  {| timeLength := timeLength r;
     bufferSize := bs;
     bufferL2Size := l2;
     lookAhead := lookAhead r;
     bufferL2 := bufferL2 r;
     urlVolumeData := urlVolumeData r;
     urlBackgroundVolumeData := urlBackgroundVolumeData r;
     backgroundL2 := backgroundL2 r;
     requestQueue := requestQueue r;
     batchID := batchID r;
     streamToBufferID := streamToBufferID r;
     urlVoxelRegion := urlVoxelRegion r |}.

Definition set_bufferL2 (m : gmap Z json) (r : tsRPC) : tsRPC :=
  {| timeLength := timeLength r;
     bufferSize := bufferSize r;
     bufferL2Size := bufferL2Size r;
     lookAhead := lookAhead r;
     bufferL2 := m;
     urlVolumeData := urlVolumeData r;
     urlBackgroundVolumeData := urlBackgroundVolumeData r;
     backgroundL2 := backgroundL2 r;
     requestQueue := requestQueue r;
     batchID := batchID r;
     streamToBufferID := streamToBufferID r;
     urlVoxelRegion := urlVoxelRegion r |}.

Definition set_backgroundL2 (m : gmap string view) (r : tsRPC) : tsRPC :=
  {| timeLength := timeLength r;
     bufferSize := bufferSize r;
     bufferL2Size := bufferL2Size r;
     lookAhead := lookAhead r;
     bufferL2 := bufferL2 r;
     urlVolumeData := urlVolumeData r;
     urlBackgroundVolumeData := urlBackgroundVolumeData r;
     backgroundL2 := m;
     requestQueue := requestQueue r;
     batchID := batchID r;
     streamToBufferID := streamToBufferID r;
     urlVoxelRegion := urlVoxelRegion r |}.

Definition set_requestQueue (q : list Z) (r : tsRPC) : tsRPC :=
  {| timeLength := timeLength r;
     bufferSize := bufferSize r;
     bufferL2Size := bufferL2Size r;
     lookAhead := lookAhead r;
     bufferL2 := bufferL2 r;
     urlVolumeData := urlVolumeData r;
     urlBackgroundVolumeData := urlBackgroundVolumeData r;
     backgroundL2 := backgroundL2 r;
     requestQueue := q;
     batchID := batchID r;
     streamToBufferID := streamToBufferID r;
     urlVoxelRegion := urlVoxelRegion r |}.

Definition set_batchID (b : Z) (r : tsRPC) : tsRPC :=
  {| timeLength := timeLength r;
     bufferSize := bufferSize r;
     bufferL2Size := bufferL2Size r;
     lookAhead := lookAhead r;
     bufferL2 := bufferL2 r;
     urlVolumeData := urlVolumeData r;
     urlBackgroundVolumeData := urlBackgroundVolumeData r;
     backgroundL2 := backgroundL2 r;
     requestQueue := requestQueue r;
     batchID := b;
     streamToBufferID := streamToBufferID r;
     urlVoxelRegion := urlVoxelRegion r |}.

Definition set_streamToBufferID (i : option positive) (r : tsRPC) : tsRPC :=
  {| timeLength := timeLength r;
     bufferSize := bufferSize r;
     bufferL2Size := bufferL2Size r;
     lookAhead := lookAhead r;
     bufferL2 := bufferL2 r;
     urlVolumeData := urlVolumeData r;
     urlBackgroundVolumeData := urlBackgroundVolumeData r;
     backgroundL2 := backgroundL2 r;
     requestQueue := requestQueue r;
     batchID := batchID r;
     streamToBufferID := i;
     urlVoxelRegion := urlVoxelRegion r |}.

(** ** A state and exception monad over [world]

    An exception leaves the world as the statements before it made it. *)

Definition M (A : Type) : Type := world -> completion A * world.

#[export] Instance M_ret : MRet M := fun A (a : A) w => (Normal a, w).

#[export] Instance M_bind : MBind M := fun A B (k : A -> M B) (m : M A) w =>
  match m w with
  | (Normal a, w') => k a w'
  | (Throw e, w') => (Throw e, w')
  end.

Definition lift {A} (c : completion A) : M A := fun w => (c, w).

Definition get_rpc : M tsRPC := fun w => (Normal (rpc w), w).

Definition modify (f : world -> world) : M unit := fun w => (Normal tt, f w).

(** ** Sizing of the buffers *)

(** [while (tsRPC.bufferSize * tpSize <= 50000) tsRPC.bufferSize++;] *)
Fixpoint grow_bufferSize (fuel : nat) (bs tpSize : Z) : option Z :=
  match fuel with
  | O => None
  | S fuel' =>
      if bs * tpSize <=? 50000 then grow_bufferSize fuel' (bs + 1) tpSize
      else Some bs
  end.

(** [while (tsRPC.bufferSize * tpSize * tsRPC.bufferL2Size <= 157286400)
      tsRPC.bufferL2Size *= 2;] *)
Fixpoint grow_bufferL2Size (fuel : nat) (bs tpSize : Z) (l2 : Q) : option Q :=
  match fuel with
  | O => None
  | S fuel' =>
      if Qle_bool (inject_Z (bs * tpSize) * l2) 157286400
      then grow_bufferL2Size fuel' bs tpSize (l2 * 2)%Q
      else Some l2
  end.

(** [_setupBuffersSize], from the sizes the state holds; [None] when the
    fuel does not suffice for one of the loops. *)
Definition _setupBuffersSize (fuel : nat) (es : entitySize) (r : tsRPC)
    : option tsRPC :=
  let '(e0, e1, e2, _) := es in
  let tpSize := Z.max (Z.max e0 e1) e2 in
  let tpSize := tpSize * tpSize in
  match grow_bufferSize fuel (bufferSize r) tpSize with
  | None => None
  | Some bs =>
      match grow_bufferL2Size fuel bs tpSize (bufferL2Size r) with
      | None => None
      | Some l2 => Some (set_sizes bs (l2 / 2)%Q r)
      end
  end.

(** Iterations that suffice for both loops whenever they end at all (see
    [setupBuffersSize_returns] and [setupBuffersSize_diverges]): the first
    loop stops at the latest when [bufferSize] passes 50000, the second
    after the doublings that take [bufferL2Size], which is at least
    [1 / Qden bufferL2Size], above the budget. *)
Definition setup_fuel (r : tsRPC) : nat :=
  (Z.to_nat (50002 - bufferSize r) + 30
   + Pos.to_nat (Pos.size (Qden (bufferL2Size r))))%nat.

Definition TSRPC_initNonStreaming (urlVolumeData urlBackgroundVolumeData : string)
    (urlVoxelRegion : option string) (es : entitySize) (w : world) : world :=
  let '(_, _, _, e3) := es in
  with_rpc (set_init urlVolumeData urlBackgroundVolumeData urlVoxelRegion e3
              (rpc w)) w.

(** [window.setInterval(f, delay)]: the timer is registered and its id
    returned. *)
Definition setInterval (cb : callback) (w : world) : positive * world :=
  (nextTimer w,
   with_intervals (intervals w ++ [(nextTimer w, cb)]) (Pos.succ (nextTimer w)) w).

(** [window.clearInterval(id)]; [clearInterval(null)] does nothing. *)
Definition clearInterval (id : option positive) (w : world) : world :=
  match id with
  | None => w
  | Some i =>
      with_intervals (filter (fun tc => negb (Pos.eqb (fst tc) i)) (intervals w))
        (nextTimer w) w
  end.

(** [TSRPC_initStreaming]; [None] when [_setupBuffersSize] does not return.
    The parser blob and the position callback are not state of the model:
    the position is an input of every timer event, and [playbackRate] only
    sets the period of the sweeper's timer. *)
Definition TSRPC_initStreaming (urlVolumeData urlBackgroundVolumeData : string)
    (es : entitySize) (w : world) : option world :=
  let w := TSRPC_initNonStreaming urlVolumeData urlBackgroundVolumeData None es w in
  match _setupBuffersSize (setup_fuel (rpc w)) es (rpc w) with
  | None => None
  | Some r => Some (snd (setInterval CbFreeBuffer (with_rpc r w)))
  end.

(** ** Asynchronous requests *)

Definition displayMessage (msg cls : string) (w : world) : world :=
  with_messages (messages w ++ [(msg, cls)]) w.

(** [asyncRequest(fileName, sect)]: the call is handed to [doAjaxCall] with
    its two handlers, which run later (see [asyncRequest_success] and
    [asyncRequest_error]). *)
Definition asyncRequest (fileName : string) (sect : Z) (w : world) : world :=
  let index := indexOf (requestQueue (rpc w)) sect in
  let privateID := batchID (rpc w) in
  if index <? 0 then
    let w := with_rpc (set_requestQueue (requestQueue (rpc w) ++ [sect]) (rpc w)) w in
    with_pendingAjax (pendingAjax w ++ [mkAjax fileName sect privateID]) w
  else w.

(** The function given to [parseAsync] by the success handler: it saves the
    parsed JSON and takes the section out of the request queue. *)
Definition asyncRequest_parsed (sect : Z) (j : json) (w : world) : world :=
  let w := with_rpc (set_bufferL2 (<[sect := j]> (bufferL2 (rpc w))) (rpc w)) w in
  let idx := indexOf (requestQueue (rpc w)) sect in
  if -1 <? idx then
    with_rpc (set_requestQueue (splice1 (requestQueue (rpc w)) idx) (rpc w)) w
  else w.

Section Parsing.

(** [JSON.parse], which throws on text that is not JSON. *)
Variable JSON_parse : string -> completion json.

(** [parseAsync(data, callback)] for the callback of [asyncRequest], which
    is determined by [sect].  With [window.Worker] the data goes to a new
    worker and the callback runs when the worker answers (see
    [worker_message]); otherwise the data is parsed at once. *)
Definition parseAsync (data : string) (sect : Z) : M unit :=
  fun w =>
    if hasWorker w then
      (Normal tt, with_parsers (parsers w ++ [(sect, data)]) w)
    else
      match JSON_parse data with
      | Normal j => (Normal tt, asyncRequest_parsed sect j w)
      | Throw e => (Throw e, w)
      end.

(** The worker's message listener: the worker posts the parsed JSON, or
    dies on the exception of [JSON.parse] without posting anything. *)
Definition worker_message (sect : Z) (data : string) (w : world) : world :=
  match JSON_parse data with
  | Normal j => asyncRequest_parsed sect j w
  | Throw _ => w
  end.

(** The [success] handler of the call [c]. *)
Definition asyncRequest_success (c : ajaxCall) (response : string) : M unit :=
  r ← get_rpc;
  if ajax_privateID c =? batchID r then parseAsync response (ajax_sect c)
  else mret tt.

(** The [error] handler of the call [c]. *)
Definition asyncRequest_error (c : ajaxCall) : M unit :=
  modify (displayMessage "Could not retrieve data from the server!" "warningMessage").

End Parsing.

(** ** The prefetch scheduler *)

(** The body of the [for] loop of [streamToBuffer] from index [i] on;
    [None] when the fuel runs out before the loop ends. *)
Fixpoint streamToBuffer_loop (fuel : nat) (i : Z) (pt : point)
    (currentSection maxSections : Z) (w : world) : option world :=
  match fuel with
  | O => None
  | S fuel' =>
      if (i <=? lookAhead (rpc w)) && (i <? maxSections) then
        let toBufferSection := Z.min (currentSection + i) maxSections in
        if negb (truthy (bufferL2 (rpc w) !! toBufferSection))
           && (indexOf (requestQueue (rpc w)) toBufferSection <? 0)
        then
          let from := toBufferSection * bufferSize (rpc w) in
          let to := Z.min (from + bufferSize (rpc w)) (timeLength (rpc w)) in
          let query := buildRequestUrl (urlVolumeData (rpc w)) from to
                         (selectedEntity pt) in
          Some (asyncRequest query toBufferSection w)
        else streamToBuffer_loop fuel' (i + 1) pt currentSection maxSections w
      else Some w
  end.

(** [Math.ceil(a / b)] for integers [a] and [b]. *)
Definition ceil_div (a b : Z) : Z := - ((- a) / b).

(** [streamToBuffer], with [pt] what [getCurrentEntityAndTime()] returns. *)
Definition streamToBuffer (pt : point) (w : world) : option world :=
  if Z.of_nat (length (requestQueue (rpc w))) <? 2 then
    let currentSection := ceil_div (currentTimePoint pt) (bufferSize (rpc w)) in
    let maxSections := timeLength (rpc w) / bufferSize (rpc w) in
    streamToBuffer_loop (S (Z.to_nat (lookAhead (rpc w) + 1))) 0 pt
      currentSection maxSections w
  else Some w.

(** ** The eviction sweeper *)

(** The test of the [for .. in] loop of [freeBuffer]. *)
Definition outside_window (section : Z) (r : tsRPC) (idx : Z) : bool :=
  lt_nan (inject_Z idx)
    (rem (inject_Z section - bufferL2Size r / 2) (inject_Z (timeLength r)))
  || gt_nan (inject_Z idx)
       (rem (inject_Z section + bufferL2Size r / 2) (inject_Z (timeLength r))).

(** [for (var idx in m) { if (test(idx)) delete m[idx]; }] over the keys
    the loop visits. *)
Definition sweep (test : Z -> bool) (m : gmap Z json) (keys : list Z)
    : gmap Z json :=
  foldl (fun m idx => if test idx then delete idx m else m) m keys.

(** [freeBuffer], with [pt] what [getCurrentEntityAndTime()] returns.  The
    [for .. in] loop visits the keys the object had when it started. *)
Definition freeBuffer (pt : point) (w : world) : world :=
  let section := currentTimePoint pt / bufferSize (rpc w) in
  let bufferedElements := Z.of_nat (size (bufferL2 (rpc w))) in
  if negb (Qle_bool (inject_Z bufferedElements) (bufferL2Size (rpc w))) then
    let m := sweep (outside_window section (rpc w)) (bufferL2 (rpc w))
               (map_to_list (bufferL2 (rpc w))).*1 in
    with_rpc (set_bufferL2 m (rpc w)) w
  else w.

(** ** The query functions *)

(** [[buffer[0][t], buffer[1][t], buffer[2][t]]]. *)
Definition planes_at (buffer : value) (t : Z) : completion view :=
  match getIndex buffer 0 with
  | Throw e => Throw e
  | Normal b0 =>
    match getIndex b0 t with
    | Throw e => Throw e
    | Normal x =>
      match getIndex buffer 1 with
      | Throw e => Throw e
      | Normal b1 =>
        match getIndex b1 t with
        | Throw e => Throw e
        | Normal y =>
          match getIndex buffer 2 with
          | Throw e => Throw e
          | Normal b2 =>
            match getIndex b2 t with
            | Throw e => Throw e
            | Normal z => Normal (x, y, z)
            end
          end
        end
      end
    end
  end.

Section Reading.

(** [HLPR_readJSONfromFile]: the synchronous request, which returns the
    parsed answer of the server or throws. *)
Variable HLPR_readJSONfromFile : string -> completion json.

Definition readJSONfromFile (query : string) : M json :=
  fun w => (HLPR_readJSONfromFile query,
            with_blockingReads (blockingReads w ++ [query]) w).

Definition _getViewAtTimeNoCache (t : Z) (selectedEntity : voxel)
    (urlVolumeData : string) : M view :=
  r ← get_rpc;
  let from := t in
  let to := Z.min (1 + t) (timeLength r) in
  let query := buildRequestUrl urlVolumeData from to selectedEntity in
  buffer ← readJSONfromFile query;
  lift (planes_at (Some buffer) 0).

Definition TSRPC_getBackgroundView (selectedEntity : voxel) : M view :=
  let key := voxelKey selectedEntity in
  r ← get_rpc;
  match backgroundL2 r !! key with
  | Some v => mret v
  | None =>
      ret ← _getViewAtTimeNoCache 0 selectedEntity (urlBackgroundVolumeData r);
      modify (fun w => with_rpc (set_backgroundL2 ∅ (rpc w)) w);;
      modify (fun w => with_rpc (set_backgroundL2 (<[key := ret]> (backgroundL2 (rpc w))) (rpc w)) w);;
      mret ret
  end.

Definition TSRPC_getViewAtTime (t : Z) (selectedEntity : voxel) : M view :=
  r ← get_rpc;
  let section := t / bufferSize r in
  if truthy (bufferL2 r !! section) then
    let buffer := bufferL2 r !! section in
    let t := Z.rem t (bufferSize r) in
    lift (planes_at buffer t)
  else _getViewAtTimeNoCache t selectedEntity (urlVolumeData r).

End Reading.

Definition TSRPC_startBuffering (w : world) : world :=
  if negb (bool_decide (is_Some (streamToBufferID (rpc w))))
     && (1 <? bufferSize (rpc w))
  then
    let w := with_rpc (set_batchID (batchID (rpc w) + 1) (rpc w)) w in
    let w := with_rpc (set_requestQueue [] (rpc w)) w in
    let w := with_rpc (set_bufferL2 ∅ (rpc w)) w in
    let '(id, w) := setInterval CbStreamToBuffer w in
    with_rpc (set_streamToBufferID (Some id) (rpc w)) w
  else w.

Definition TSRPC_stopBuffering (w : world) : world :=
  let w := clearInterval (streamToBufferID (rpc w)) w in
  with_rpc (set_streamToBufferID None (rpc w)) w.

(** ** The event loop *)

(** What can happen to the page: a call of the public api by the renderer,
    a timer firing, the answer to a pending ajax call, a parser worker
    posting its result. *)
Inductive event : Type :=
| CallInitNonStreaming (vol bg region : string) (es : entitySize)
| CallInitStreaming (vol bg : string) (es : entitySize)
| CallGetViewAtTime (t : Z) (v : voxel) (server : string -> completion json)
| CallGetBackgroundView (v : voxel) (server : string -> completion json)
| CallStartBuffering
| CallStopBuffering
| TimerFires (id : positive) (pt : point)
| AjaxSucceeds (n : nat) (response : string)
| AjaxFails (n : nat)
| WorkerAnswers (n : nat).

Section Loop.

Variable JSON_parse : string -> completion json.

(** One turn of the event loop; [None] when the event cannot happen in [w]
    (no such timer, call or worker) or the handler does not return. *)
Definition step (w : world) (e : event) : option world :=
  match e with
  | CallInitNonStreaming vol bg region es =>
      Some (TSRPC_initNonStreaming vol bg (Some region) es w)
  | CallInitStreaming vol bg es => TSRPC_initStreaming vol bg es w
  | CallGetViewAtTime t v server =>
      Some (snd (TSRPC_getViewAtTime server t v w))
  | CallGetBackgroundView v server =>
      Some (snd (TSRPC_getBackgroundView server v w))
  | CallStartBuffering => Some (TSRPC_startBuffering w)
  | CallStopBuffering => Some (TSRPC_stopBuffering w)
  | TimerFires id pt =>
      match list_find (fun tc => fst tc = id) (intervals w) with
      | Some (_, (_, CbStreamToBuffer)) => streamToBuffer pt w
      | Some (_, (_, CbFreeBuffer)) => Some (freeBuffer pt w)
      | None => None
      end
  | AjaxSucceeds n response =>
      match pendingAjax w !! n with
      | Some c =>
          Some (snd (asyncRequest_success JSON_parse c response
                       (with_pendingAjax (delete n (pendingAjax w)) w)))
      | None => None
      end
  | AjaxFails n =>
      match pendingAjax w !! n with
      | Some c =>
          Some (snd (asyncRequest_error c
                       (with_pendingAjax (delete n (pendingAjax w)) w)))
      | None => None
      end
  | WorkerAnswers n =>
      match parsers w !! n with
      | Some (sect, data) =>
          Some (worker_message JSON_parse sect data
                  (with_parsers (delete n (parsers w)) w))
      | None => None
      end
  end.

(** The states of a page that loaded the module. *)
Inductive reachable : world -> Prop :=
| reachable_init worker : reachable (world0 worker)
| reachable_step w e w' : reachable w -> step w e = Some w' -> reachable w'.

(** Running a list of events. *)
Fixpoint run (w : world) (es : list event) : option world :=
  match es with
  | [] => Some w
  | e :: es' =>
      match step w e with
      | Some w' => run w' es'
      | None => None
      end
  end.

End Loop.

(** ** Notions the properties use *)

(** The test both the scheduler and [TSRPC_getViewAtTime] make for a section
    being in the cache. *)
Definition resident (r : tsRPC) (sect : Z) : bool :=
  truthy (bufferL2 r !! sect).

(** The test the scheduler makes for a candidate section. *)
Definition wanted (r : tsRPC) (sect : Z) : bool :=
  negb (resident r sect) && (indexOf (requestQueue r) sect <? 0).

(** The calls handed to [doAjaxCall] between [w] and [w']. *)
Definition issued (w w' : world) : list ajaxCall :=
  drop (length (pendingAjax w)) (pendingAjax w').

(** The section the scheduler looks at in iteration [i] of its scan. *)
Definition candidate (pt : point) (r : tsRPC) (i : Z) : Z :=
  Z.min (ceil_div (currentTimePoint pt) (bufferSize r) + i)
        (timeLength r / bufferSize r).

(** Iteration [i] is part of the scan. *)
Definition scanned (r : tsRPC) (i : Z) : Prop :=
  0 <= i /\ i <= lookAhead r /\ i < timeLength r / bufferSize r.

(** The request the scheduler makes for a section. *)
Definition request_for (pt : point) (r : tsRPC) (sect : Z) : ajaxCall :=
  mkAjax (buildRequestUrl (urlVolumeData r) (sect * bufferSize r)
            (Z.min (sect * bufferSize r + bufferSize r) (timeLength r))
            (selectedEntity pt))
         sect (batchID r).

(** Section [idx] is within [bufferL2Size / 2] sections of [section],
    modulo [timeLength]. *)
Definition near_playback (section : Z) (r : tsRPC) (idx : Z) : Prop :=
  exists k : Z,
    (inject_Z (section - k * timeLength r) - bufferL2Size r / 2 <= inject_Z idx
     /\ inject_Z idx <= inject_Z (section - k * timeLength r) + bufferL2Size r / 2)%Q.

(** The number of sections in the cache, as a number. *)
Definition cached (r : tsRPC) : Q := inject_Z (Z.of_nat (size (bufferL2 r))).

(** ** Statements of the specification that the code does not meet *)


(** After a sweep of a cache that holds more than [bufferL2Size] sections
    at most [bufferL2Size] remain, all of them near the playback section. *)
Definition sweep_restores_bound : Prop :=
  forall pt w,
    (bufferL2Size (rpc w) < cached (rpc w))%Q ->
    (cached (rpc (freeBuffer pt w)) <= bufferL2Size (rpc w))%Q
    /\ forall idx, is_Some (bufferL2 (rpc (freeBuffer pt w)) !! idx) ->
         near_playback (currentTimePoint pt / bufferSize (rpc w)) (rpc w) idx.

(** ** Concrete pages

    A page showing a volume of 91 x 109 x 91 voxels and 100 time points;
    the sizing gives segments of 5 time points. *)

(** A parser that accepts every text but the empty one and returns a
    segment of two time points. *)
Definition parse_demo (data : string) : completion json :=
  if String.eqb data "" then Throw "SyntaxError"
  else Normal (JArr [JArr [JStr data; JStr "x1"];
                     JArr [JStr "y0"; JStr "y1"];
                     JArr [JStr "z0"; JStr "z1"]]).

(** A server for the synchronous reads that answers with one time point. *)
Definition server_demo (url : string) : completion json :=
  Normal (JArr [JArr [JStr url]; JArr [JStr "y"]; JArr [JStr "z"]]).

Definition init_demo : event :=
  CallInitStreaming "/vol/?" "/bg/?" (91, 109, 91, 100).

Definition pt_demo : point := mkPoint 0 (1, 2, 3).

(** Buffering started and one prefetch request made (for section 0). *)
Definition page_one_request : world :=
  default (world0 true)
    (run parse_demo (world0 true)
       [init_demo; CallStartBuffering; TimerFires 2 pt_demo]).

(** Buffering restarted while the request for section 0 is pending, and
    section 0 requested again by the new batch. *)
Definition page_restarted : world :=
  default (world0 true)
    (run parse_demo page_one_request
       [CallStopBuffering; CallStartBuffering; TimerFires 3 pt_demo]).

(** Two prefetch requests pending. *)
Definition page_two_requests : world :=
  default (world0 true)
    (run parse_demo page_one_request [TimerFires 2 pt_demo]).

(** Both pending requests failed. *)
Definition page_two_failures : world :=
  default (world0 true)
    (run parse_demo page_two_requests [AjaxFails 0; AjaxFails 0]).

(** The request of [page_one_request] answered and its data given to a
    parser worker; then buffering restarted, and then the worker answered. *)
Definition page_late_parser : world :=
  default (world0 true)
    (run parse_demo page_one_request
       [AjaxSucceeds 0 "old"; CallStopBuffering; CallStartBuffering;
        WorkerAnswers 0]).

(** A background view cached for voxel [1,2,3]. *)
Definition page_background : world :=
  default (world0 true)
    (run parse_demo (world0 true)
       [init_demo; CallGetBackgroundView (1, 2, 3) server_demo]).

(** The page of the specification's scenario: segments of 5 time points,
    20 time points, nothing cached. *)
Definition page_scenario : world :=
  default (world0 true)
    (run parse_demo (world0 true)
       [CallInitStreaming "/vol/?" "/bg/?" (91, 109, 91, 20)]).

(** A segment of one time point. *)
Definition segment_demo : json :=
  JArr [JArr [JStr "x"]; JArr [JStr "y"]; JArr [JStr "z"]].

(** The page of the scenario with sections 2 and 3 in the cache; its 20
    time points make 4 sections. *)
Definition page_scenario_cached : world :=
  with_rpc
    (set_bufferL2 (list_to_map [(2, segment_demo); (3, segment_demo)])
       (rpc page_scenario))
    page_scenario.

(** The playback at time point 10, for which the scan starts at section 2. *)
Definition pt_10 : point := mkPoint 10 (1, 2, 3).

(** A page with [bufferL2Size = 4] and 100 time points that holds the five
    sections 8 .. 12. *)
Definition page_five_sections : world :=
  with_rpc
    (set_bufferL2
       (list_to_map [(8, segment_demo); (9, segment_demo); (10, segment_demo);
                     (11, segment_demo); (12, segment_demo)])
       (set_sizes 5 4 (set_init "/vol/?" "/bg/?" None 100 tsRPC0)))
    (world0 true).

(** The playback at time point 50, which is in section 10 of 5 time
    points. *)
Definition pt_50 : point := mkPoint 50 (1, 2, 3).

(** A page without parser workers that plays 20000 time points from the
    start: before each of its [n] ticks the playback has moved on by one
    section, and each request is answered before the next tick. *)
Definition play (n : nat) : list event :=
  CallInitStreaming "/vol/?" "/bg/?" (91, 109, 91, 20000)
  :: CallStartBuffering
  :: flat_map (fun s => [TimerFires 2 (mkPoint (5 * Z.of_nat s) (1, 2, 3));
                         AjaxSucceeds 0 "data"])
       (seq 0 n).

Definition page_played : world :=
  default (world0 false) (run parse_demo (world0 false) (play 2050)).

(** The playback back at time point 5120, which is in section 1024. *)
Definition pt_5120 : point := mkPoint 5120 (1, 2, 3).


(** On [page_restarted] the request of the second batch failed, and then
    the answer to the request of the first batch arrived. *)
Definition page_retry_failed : world :=
  default (world0 true)
    (run parse_demo page_restarted [AjaxFails 1; AjaxSucceeds 0 "data"]).

(** ** Further notions *)

#[export] Instance callback_eq_dec : EqDecision callback.
Proof. solve_decision. Defined.

(** The ids of the timers that run [streamToBuffer]. *)
Definition scheduler_timers (w : world) : list positive :=
  (filter (fun tc => tc.2 = CbStreamToBuffer) (intervals w)).*1.

(** [TSRPC_getVoxelRegion(selectedEntity, onSuccess)]: the url it gives to
    [doAjaxCall]; [null + s] is ["null" + s]. *)
Definition TSRPC_getVoxelRegion (selectedEntity : voxel) (r : tsRPC) : string :=
  default "null" (urlVoxelRegion r) +:+ voxelToUrlFragment selectedEntity.

(** A page showing a volume of 256 x 256 x 256 voxels. *)
Definition page_large_volume : world :=
  default (world0 true)
    (run parse_demo (world0 true)
       [CallInitStreaming "/vol/?" "/bg/?" (256, 256, 256, 100)]).

(** [page_one_request] with buffering stopped. *)
Definition page_stopped : world := TSRPC_stopBuffering page_one_request.

(** The character [c] does not occur in [s]. *)
Fixpoint absent (c : Ascii.ascii) (s : string) : bool :=
  match s with
  | EmptyString => true
  | String a s' => negb (Ascii.eqb a c) && absent c s'
  end.

(** The characters [ToString] of an integer is made of. *)
Definition numeric (c : Ascii.ascii) : bool :=
  existsb (Ascii.eqb c)
    ["0"; "1"; "2"; "3"; "4"; "5"; "6"; "7"; "8"; "9"; "-"]%char.

(** The request of [page_one_request] answered with ["data"], which a
    parser worker is parsing; and the page after the worker answered. *)
Definition page_parsing : world :=
  default (world0 true) (run parse_demo page_one_request [AjaxSucceeds 0 "data"]).

Definition page_parsed : world :=
  default (world0 true) (run parse_demo page_parsing [WorkerAnswers 0]).

(** What [parse_demo] makes of ["data"]. *)
Definition json_demo : json :=
  JArr [JArr [JStr "data"; JStr "x1"];
        JArr [JStr "y0"; JStr "y1"];
        JArr [JStr "z0"; JStr "z1"]].

(** The same request answered with the empty text, which is not JSON. *)
Definition page_parsing_empty : world :=
  default (world0 true) (run parse_demo page_one_request [AjaxSucceeds 0 ""]).

Definition page_parsed_empty : world :=
  default (world0 true) (run parse_demo page_parsing_empty [WorkerAnswers 0]).

(** [page_background] after a query for the background of voxel [4,5,6]. *)
Definition page_background_2 : world :=
  snd (TSRPC_getBackgroundView server_demo (4, 5, 6) page_background).

(** A server that is down. *)
Definition server_down (url : string) : completion json := Throw "offline".

(** [page_five_sections] with section 7 cached as well. *)
Definition page_six_sections : world :=
  with_rpc
    (set_bufferL2 (<[7 := segment_demo]> (bufferL2 (rpc page_five_sections)))
       (rpc page_five_sections))
    page_five_sections.

(** A page initialised without streaming, on which the renderer then called
    [TSRPC_startBuffering] and asked for time point 7. *)
Definition page_nonstreaming : world :=
  default (world0 true)
    (run parse_demo (world0 true)
       [CallInitNonStreaming "/vol/?" "/bg/?" "/region/?" (91, 109, 91, 100);
        CallStartBuffering;
        CallGetViewAtTime 7 (1, 2, 3) server_demo]).

(** * chordScript: the connectivity chord viewer

    [ChordData] of [chordScript.js], the loops of [init_data] that turn a
    matrix into the lines of the chord diagram, and [packageHierarchy],
    which arranges the lines by the dots in their names.  The labels are
    strings and the matrices are arrays; the calls of d3 that draw the
    hierarchy are not modelled. *)

Module Chord.

(** The fields of [ChordData] the script reads. *)
Record ChordData : Type := mkChordData {
  toggleParameters : bool;
  region_labels : list string;
  weights : list json;
  tract_lengths : list json
}.

Definition ChordData0 : ChordData :=
  {| toggleParameters := true;
     region_labels := [""];
     weights := [];
     tract_lengths := [] |}.

Definition set_region_labels (l : list string) (d : ChordData) : ChordData :=
  {| toggleParameters := toggleParameters d;
     region_labels := l;
     weights := weights d;
     tract_lengths := tract_lengths d |}.

Definition set_weights (w : list json) (d : ChordData) : ChordData :=
  {| toggleParameters := toggleParameters d;
     region_labels := region_labels d;
     weights := w;
     tract_lengths := tract_lengths d |}.

Definition set_tract_lenghts (t : list json) (d : ChordData) : ChordData :=
  {| toggleParameters := toggleParameters d;
     region_labels := region_labels d;
     weights := weights d;
     tract_lengths := t |}.

(** [w !== 0]. *)
Definition strict_ne_zero (w : value) : bool :=
  match w with
  | Some (JNum q) => negb (Qeq_bool q 0)
  | _ => true
  end.

(** [a[k] = x] on an array: a slot is overwritten, the array grows when [k]
    is its length, and slots skipped over read [undefined]. *)
Definition array_set {A : Type} (a : list (option A)) (k : nat) (x : option A)
    : list (option A) :=
  if decide (k < length a)%nat then <[k := x]> a
  else a ++ replicate (k - length a) None ++ [x].

(** The objects [json_line]. *)
Record json_line : Type := mkLine {
  name : option string;
  imports : list (option string)
}.

(** One turn of the loop over [j], on [json_line] and the counter [k]. *)
Definition init_data_inner (d : ChordData) (l i : nat)
    (st : json_line * nat) (j : nat) : json_line * nat :=
  let '(json_line, k) := st in
  let w :=
    if toggleParameters d then weights d !! (i * l + j)%nat
    else tract_lengths d !! (i * l + j)%nat in
  let json_line := mkLine (region_labels d !! i) (imports json_line) in
  if strict_ne_zero w then
    (mkLine (name json_line)
       (array_set (imports json_line) k (region_labels d !! j)), S k)
  else (json_line, k).

(** One turn of the loop over [i], on [jsonified_region_labels]. *)
Definition init_data_outer (d : ChordData) (l : nat)
    (jsonified_region_labels : list (option json_line)) (i : nat)
    : list (option json_line) :=
  let json_line := mkLine None [] in
  let k := 0%nat in
  let '(json_line, _) := foldl (init_data_inner d l i) (json_line, k) (seq 0 l) in
  array_set jsonified_region_labels i (Some json_line).

(** The array [jsonified_region_labels] that [init_data] builds, with [l]
    the number of labels [init_chord] found. *)
Definition jsonified_region_labels (d : ChordData) (l : nat)
    : list (option json_line) :=
  foldl (init_data_outer d l) [] (seq 0 l).

(** The matrix the switch selects. *)
Definition selected (d : ChordData) : list json :=
  if toggleParameters d then weights d else tract_lengths d.

(** The regions among [js] that row [i] of the selected matrix connects
    with region [i]: the entry is not the number 0. *)
Definition connected_among (d : ChordData) (l i : nat) (js : list nat) : list nat :=
  filter (fun j => strict_ne_zero (selected d !! (i * l + j)%nat) = true) js.

Definition connected (d : ChordData) (l i : nat) : list nat :=
  connected_among d l i (seq 0 l).

(** *** The package hierarchy *)

(** [s.lastIndexOf(c)] for a one-character [c]; [-1] when [c] is not in [s]. *)
Fixpoint lastIndexOf_from (s : string) (c : Ascii.ascii) (i found : Z) : Z :=
  match s with
  | EmptyString => found
  | String a s' => lastIndexOf_from s' c (i + 1) (if Ascii.eqb a c then i else found)
  end.

Definition lastIndexOf (s : string) (c : Ascii.ascii) : Z :=
  lastIndexOf_from s c 0 (-1).

(** [s.substring(start, end)]: both indices are clamped to the string and
    swapped when out of order. *)
Definition substring (s : string) (start end_ : Z) : string :=
  let len := Z.of_nat (String.length s) in
  let a := Z.max 0 (Z.min start len) in
  let b := Z.max 0 (Z.min end_ len) in
  String.substring (Z.to_nat (Z.min a b)) (Z.to_nat (Z.max a b - Z.min a b)) s.

(** [s.substring(start)]. *)
Definition substring_from (s : string) (start : Z) : string :=
  substring s start (Z.of_nat (String.length s)).

(** The names that [map[name]] finds in an object literal without its
    having them: the properties of [Object.prototype].  All of them are
    functions or objects, hence truthy, and none has [children]. *)
Definition Object_prototype : list string :=
  ["constructor"; "__defineGetter__"; "__defineSetter__"; "hasOwnProperty";
   "__lookupGetter__"; "__lookupSetter__"; "isPrototypeOf";
   "propertyIsEnumerable"; "toString"; "valueOf"; "__proto__";
   "toLocaleString"].

(** A node of the hierarchy: an object [json_line], or an object
    [{name: name, children: []}] made by [find], with the fields [find]
    adds.  A field that the object does not have is [None].  Every node is
    the value of [map] at its name, so a reference to a node ([parent], the
    elements of [children]) is that name. *)
Record node : Type := mkNode {
  node_name : option string;
  node_imports : option (list (option string));
  children : option (list string);
  parent : option string;
  key : option string
}.

Definition of_line (d : json_line) : node :=
  mkNode (name d) (Some (imports d)) None None None.

(** The property name that [map[name]] uses. *)
Definition property (name : option string) : string := default "undefined" name.

(** [find(name, data)] on [map]; the node it returns is the value of the
    resulting [map] at [name], or the member of [Object.prototype] of that
    name.  [None] when the fuel runs out. *)
Fixpoint find (fuel : nat) (name : option string) (data : option node)
    (map : gmap string node) : option (completion (gmap string node)) :=
  match fuel with
  | O => None
  | S fuel' =>
      match map !! property name with
      | Some _ => Some (Normal map)
      | None =>
          if bool_decide (property name ∈ Object_prototype) then Some (Normal map)
          else
            let node := default (mkNode name None (Some []) None None) data in
            let map := <[property name := node]> map in
            match name with
            | None => Some (Throw "TypeError")
            | Some s =>
                if (String.length s =? 0)%nat then Some (Normal map)
                else
                  let i := lastIndexOf s "." in
                  let pname := substring s 0 i in
                  match find fuel' (Some pname) None map with
                  | None => None
                  | Some (Throw e) => Some (Throw e)
                  | Some (Normal map) =>
                      match map !! pname with
                      | None => Some (Throw "TypeError")
                      | Some p =>
                          match children p with
                          | None => Some (Throw "TypeError")
                          | Some cs =>
                              let map :=
                                <[pname := mkNode (node_name p) (node_imports p)
                                             (Some (cs ++ [s])) (parent p) (key p)]> map in
                              Some (Normal
                                (alter (fun n => mkNode (node_name n) (node_imports n)
                                                   (children n) (Some pname)
                                                   (Some (substring_from s (i + 1))))
                                   s map))
                          end
                      end
                  end
            end
      end
  end.

(** [classes.forEach(function (d) { find(d.name, d); })]; [forEach] skips
    the slots of the array that were never written. *)
Fixpoint forEach_find (classes : list (option json_line)) (map : gmap string node)
    : option (completion (gmap string node)) :=
  match classes with
  | [] => Some (Normal map)
  | None :: classes' => forEach_find classes' map
  | Some d :: classes' =>
      match find (S (String.length (property (name d)))) (name d) (Some (of_line d)) map with
      | Some (Normal map) => forEach_find classes' map
      | r => r
      end
  end.

(** [packageHierarchy(classes)] up to its last line: the [map] of which
    [d3.hierarchy] is given the root [map[""]]. *)
Definition packageHierarchy (classes : list (option json_line))
    : option (completion (gmap string node)) :=
  forEach_find classes ∅.

(** The root of a hierarchy without packages, with its children, and the
    leaf of such a hierarchy that was the [json_line] of name [n]. *)
Definition root_node (cs : list string) : node :=
  mkNode (Some "") None (Some cs) None None.

Definition leaf_node (n : string) (imp : list (option string)) : node :=
  mkNode (Some n) (Some imp) None (Some "") (Some n).

(** A label that is not empty, has no dot and does not name a property of
    [Object.prototype]. *)
Definition flat (s : string) : Prop :=
  s ≠ "" /\ absent "." s = true /\ s ∉ Object_prototype.

(** The objects [json_line] of given names and imports, as an array. *)
Definition classes_of (nis : list (string * list (option string)))
    : list (option json_line) :=
  (fun ni => Some (mkLine (Some ni.1) ni.2)) <$> nis.

(** [init_data] up to the hierarchy it hands to [d3.hierarchy], with [l]
    the number of labels that [init_chord] found. *)
Definition init_data (l : nat) (d : ChordData)
    : option (completion (gmap string node)) :=
  packageHierarchy (jsonified_region_labels d l).

(** [init_chord], which runs [init_data] once. *)
Definition init_chord (d : ChordData) : option (completion (gmap string node)) :=
  init_data (length (region_labels d)) d.

(** Three regions with their two matrices. *)
Definition chord_demo : ChordData :=
  set_tract_lenghts
    [JNum 0; JNum 5; JNum 6;
     JNum 5; JNum 0; JNum 0;
     JNum 6; JNum 0; JNum 0]
    (set_weights
       [JNum 0; JNum 1; JNum 2;
        JNum 0; JNum 0; JNum 3;
        JNum 4; JNum 0; JNum 0]
       (set_region_labels ["A"; "B"; "C"] ChordData0)).

(** What [init_chord] makes of [chord_demo]. *)
Definition hierarchy_demo : gmap string node :=
  list_to_map
    [("", root_node ["A"; "B"; "C"]);
     ("A", leaf_node "A" [Some "B"; Some "C"]);
     ("B", leaf_node "B" [Some "C"]);
     ("C", leaf_node "C" [Some "A"])].

(** Two regions, the second with a label that extends the first. *)
Definition chord_nested : ChordData :=
  set_region_labels ["a"; "a.b"] ChordData0.

End Chord.

(** * Properties *)

(** ** Request urls *)

Lemma append_assoc (s1 s2 s3 : string) :
  (s1 +:+ s2) +:+ s3 = s1 +:+ (s2 +:+ s3).
Proof.
  induction s1 as [|a s1 IH]; [reflexivity|].
  change (String a ((s1 +:+ s2) +:+ s3) = String a (s1 +:+ (s2 +:+ s3))).
  by rewrite IH.
Qed.

(** C8. For every base url, integers [from] and [to] and voxel
    [(vx, vy, vz)], the url built by [buildRequestUrl] is exactly
    [baseUrl + "from_idx=" + from + ";to_idx=" + to + ";x_plane=" + vx +
    ";y_plane=" + vy + ";z_plane=" + vz], the sum read from left to right as
    JavaScript does; the url is a function of these four arguments alone
    (the embedding of [buildRequestUrl] takes no state). *)
Theorem buildRequestUrl_format (baseUrl : string) (from to vx vy vz : Z) :
  buildRequestUrl baseUrl from to (vx, vy, vz) =
  (((((((((baseUrl +:+ "from_idx=") +:+ toString from) +:+ ";to_idx=")
        +:+ toString to) +:+ ";x_plane=") +:+ toString vx) +:+ ";y_plane=")
     +:+ toString vy) +:+ ";z_plane=") +:+ toString vz.
Proof.
  unfold buildRequestUrl, voxelToUrlFragment.
  by rewrite !append_assoc.
Qed.

(** The scenario of the specification: time point 7 of voxel [1,2,3]. *)
Example buildRequestUrl_7 :
  buildRequestUrl "/vol/" 7 8 (1, 2, 3) =
  "/vol/from_idx=7;to_idx=8;x_plane=1;y_plane=2;z_plane=3".
Proof. reflexivity. Qed.

(** ** The handlers of an asynchronous request *)

Section Handlers.

Variable JSON_parse : string -> completion json.

(** The success handler does nothing at all when the batch id it captured
    is not the current one. *)
Lemma asyncRequest_success_stale c response w :
  ajax_privateID c ≠ batchID (rpc w) ->
  asyncRequest_success JSON_parse c response w = (Normal tt, w).
Proof.
  intros Hne. unfold asyncRequest_success, mbind, M_bind, get_rpc.
  destruct (Z.eqb_spec (ajax_privateID c) (batchID (rpc w))); [done|].
  reflexivity.
Qed.

(** The error handler only reports the failure. *)
Lemma asyncRequest_error_rpc c w :
  rpc (snd (asyncRequest_error c w)) = rpc w
  /\ messages (snd (asyncRequest_error c w)) =
     messages w ++ [("Could not retrieve data from the server!", "warningMessage")].
Proof. done. Qed.

(** C1. When the answer to a prefetch request arrives and the batch id
    captured at the request differs from the current batch id, handling the
    answer leaves [bufferL2] exactly as it was; no parser is started for
    the answer either, so nothing is written later on its behalf. *)
Theorem stale_response_keeps_cache w n c response w' :
  pendingAjax w !! n = Some c ->
  ajax_privateID c ≠ batchID (rpc w) ->
  step JSON_parse w (AjaxSucceeds n response) = Some w' ->
  bufferL2 (rpc w') = bufferL2 (rpc w) /\ parsers w' = parsers w.
Proof.
  intros Hc Hne Hstep. cbn [step] in Hstep. rewrite Hc in Hstep.
  rewrite asyncRequest_success_stale in Hstep by done.
  by injection Hstep as <-.
Qed.

End Handlers.

Lemma stale_response_keeps_cache_witness :
  bufferL2 (rpc (snd (asyncRequest_success parse_demo
                        (mkAjax "/vol/?from_idx=0;to_idx=5;x_plane=1;y_plane=2;z_plane=3" 0 1)
                        "data"
                        (with_pendingAjax (delete 0%nat (pendingAjax page_restarted))
                           page_restarted))))
  = bufferL2 (rpc page_restarted)
  /\ parsers (snd (asyncRequest_success parse_demo
                     (mkAjax "/vol/?from_idx=0;to_idx=5;x_plane=1;y_plane=2;z_plane=3" 0 1)
                     "data"
                     (with_pendingAjax (delete 0%nat (pendingAjax page_restarted))
                        page_restarted)))
     = parsers page_restarted.
Proof.
  apply (stale_response_keeps_cache parse_demo page_restarted 0%nat
           (mkAjax "/vol/?from_idx=0;to_idx=5;x_plane=1;y_plane=2;z_plane=3" 0 1)
           "data").
  - vm_compute. reflexivity.
  - vm_compute. discriminate.
  - vm_compute. reflexivity.
Defined.

(** The test of the batch id is made when the answer arrives, not when
    its parser finishes: a worker that was started before buffering
    restarted still writes its section into the emptied cache. *)
Example late_parser_writes_after_restart :
  batchID (rpc page_late_parser) = 2
  /\ bufferL2 (rpc page_late_parser) !! 0
     = Some (JArr [JArr [JStr "old"; JStr "x1"];
                   JArr [JStr "y0"; JStr "y1"];
                   JArr [JStr "z0"; JStr "z1"]]).
Proof. split; vm_compute; reflexivity. Qed.


(** C7, on [page_one_request].  When the request for section 0 fails, the
    error handler reports the warning and does nothing else: section 0
    stays in the request queue although no call is pending for it, and the
    next tick of the scheduler passes it over and asks for section 1. *)
Theorem failed_request_stays_queued :
  exists w',
    step parse_demo page_one_request (AjaxFails 0) = Some w'
    /\ messages w' = [("Could not retrieve data from the server!", "warningMessage")]
    /\ pendingAjax w' = []
    /\ requestQueue (rpc w') = [0]
    /\ (issued w' <$> streamToBuffer pt_demo w')
       = Some [mkAjax "/vol/?from_idx=5;to_idx=10;x_plane=1;y_plane=2;z_plane=3" 1 1].
Proof.
  eexists. split; [reflexivity|]. vm_compute. repeat split.
Qed.

(** After a second failure the queue is full for good: no call is pending,
    and no tick asks for anything, wherever the playback is. *)
Example two_failures_stop_prefetching :
  run parse_demo page_two_requests [AjaxFails 0; AjaxFails 0]
  = Some page_two_failures
  /\ pendingAjax page_two_failures = []
  /\ requestQueue (rpc page_two_failures) = [0; 1]
  /\ forall pt, streamToBuffer pt page_two_failures = Some page_two_failures.
Proof.
  assert (Hq : requestQueue (rpc page_two_failures) = [0; 1])
    by (vm_compute; reflexivity).
  split; [vm_compute; reflexivity|].
  split; [vm_compute; reflexivity|].
  split; [exact Hq|].
  intros pt. unfold streamToBuffer. by rewrite Hq.
Qed.

(** ** The query functions *)

(** C4. When section [floor(t / bufferSize)] is not in the cache,
    [TSRPC_getViewAtTime(t, v)] makes one synchronous read, of the url for
    the range from [t] to [min(t + 1, timeLength)] at voxel [v], returns
    the three planes of the answer (or the exception of the read), and
    leaves the cache, and the whole module state, as it was. *)
Theorem getViewAtTime_miss server t v w :
  resident (rpc w) (t / bufferSize (rpc w)) = false ->
  let url := buildRequestUrl (urlVolumeData (rpc w)) t
               (Z.min (t + 1) (timeLength (rpc w))) v in
  let out := TSRPC_getViewAtTime server t v w in
  blockingReads (snd out) = blockingReads w ++ [url]
  /\ fst out = match server url with
               | Normal buffer => planes_at (Some buffer) 0
               | Throw e => Throw e
               end
  /\ bufferL2 (rpc (snd out)) = bufferL2 (rpc w)
  /\ rpc (snd out) = rpc w
  /\ pendingAjax (snd out) = pendingAjax w.
Proof.
  intros Hmiss url out. subst out url. unfold resident in Hmiss.
  unfold TSRPC_getViewAtTime, mbind, M_bind, get_rpc. rewrite Hmiss.
  unfold _getViewAtTimeNoCache, mbind, M_bind, get_rpc, readJSONfromFile, lift.
  rewrite (Z.add_comm 1 t).
  destruct (server _); done.
Qed.

Lemma getViewAtTime_miss_witness :
  let out := TSRPC_getViewAtTime server_demo 7 (1, 2, 3) page_scenario in
  blockingReads (snd out) =
    ["/vol/?from_idx=7;to_idx=8;x_plane=1;y_plane=2;z_plane=3"]
  /\ fst out =
       Normal (Some (JStr "/vol/?from_idx=7;to_idx=8;x_plane=1;y_plane=2;z_plane=3"),
               Some (JStr "y"), Some (JStr "z"))
  /\ bufferL2 (rpc (snd out)) = ∅
  /\ rpc (snd out) = rpc page_scenario
  /\ pendingAjax (snd out) = [].
Proof.
  apply (getViewAtTime_miss server_demo 7 (1, 2, 3) page_scenario).
  vm_compute. reflexivity.
Defined.

(** C10. [TSRPC_startBuffering] leaves [backgroundL2] as it was, so a view
    cached for a voxel before buffering restarted is what
    [TSRPC_getBackgroundView] returns for that voxel afterwards, without a
    read from the server. *)
Theorem startBuffering_keeps_background server w :
  backgroundL2 (rpc (TSRPC_startBuffering w)) = backgroundL2 (rpc w)
  /\ forall v planes,
       backgroundL2 (rpc w) !! voxelKey v = Some planes ->
       TSRPC_getBackgroundView server v (TSRPC_startBuffering w)
       = (Normal planes, TSRPC_startBuffering w).
Proof.
  assert (Hbg : backgroundL2 (rpc (TSRPC_startBuffering w)) = backgroundL2 (rpc w)).
  { unfold TSRPC_startBuffering. by destruct (negb _ && _). }
  split; [exact Hbg|].
  intros v planes Hv.
  unfold TSRPC_getBackgroundView, mbind, M_bind, get_rpc.
  by rewrite Hbg, Hv.
Qed.

Lemma startBuffering_keeps_background_witness :
  backgroundL2 (rpc page_background) !! voxelKey (1, 2, 3)
  = Some (Some (JStr "/bg/?from_idx=0;to_idx=1;x_plane=1;y_plane=2;z_plane=3"),
          Some (JStr "y"), Some (JStr "z"))
  /\ TSRPC_getBackgroundView (fun _ => Throw "offline") (1, 2, 3)
       (TSRPC_startBuffering page_background)
     = (Normal (Some (JStr "/bg/?from_idx=0;to_idx=1;x_plane=1;y_plane=2;z_plane=3"),
                Some (JStr "y"), Some (JStr "z")),
        TSRPC_startBuffering page_background).
Proof.
  assert (Hc : backgroundL2 (rpc page_background) !! voxelKey (1, 2, 3)
     = Some (Some (JStr "/bg/?from_idx=0;to_idx=1;x_plane=1;y_plane=2;z_plane=3"),
             Some (JStr "y"), Some (JStr "z"))) by (vm_compute; reflexivity).
  split; [exact Hc|].
  exact (proj2 (startBuffering_keeps_background (fun _ => Throw "offline")
                  page_background) (1, 2, 3) _ Hc).
Defined.

(** ** Facts about the request queue *)

Lemma indexOf_from_spec l x i :
  (indexOf_from l x i = -1 /\ x ∉ l)
  \/ (i <= indexOf_from l x i < i + Z.of_nat (length l) /\ x ∈ l).
Proof.
  revert i. induction l as [|y l IH]; intros i; cbn [indexOf_from length].
  - left. split; [done|]. apply not_elem_of_nil.
  - destruct (Z.eqb_spec y x) as [->|Hne].
    + right. split; [lia|]. apply list_elem_of_here.
    + destruct (IH (i + 1)) as [[-> Hnot]|[Hr Hin]].
      * left. split; [done|]. rewrite not_elem_of_cons. split; [congruence|done].
      * right. split; [lia|]. by apply list_elem_of_further.
Qed.

Lemma indexOf_absent l x : (indexOf l x <? 0) = true <-> x ∉ l.
Proof.
  unfold indexOf. destruct (indexOf_from_spec l x 0) as [[-> Hnot]|[Hr Hin]].
  - split; [done|]. intros _. reflexivity.
  - split.
    + intros H%Z.ltb_lt. lia.
    + intros Hnot. by destruct Hnot.
Qed.

Lemma indexOf_present l x : (indexOf l x <? 0) = false <-> x ∈ l.
Proof.
  destruct (indexOf l x <? 0) eqn:E.
  - apply indexOf_absent in E. split; [done|]. intros Hin. by destruct E.
  - split; [|done]. intros _.
    destruct (decide (x ∈ l)) as [Hin|Hnot]; [done|].
    apply indexOf_absent in Hnot. congruence.
Qed.

Lemma length_splice1 l idx : (length (splice1 l idx) <= length l)%nat.
Proof.
  unfold splice1. rewrite delete_take_drop, length_app, length_take, length_drop. lia.
Qed.

(** A request for a section that is not in the queue puts the section at
    the end of the queue and hands one call to [doAjaxCall]. *)
Lemma asyncRequest_fresh fileName sect w :
  sect ∉ requestQueue (rpc w) ->
  requestQueue (rpc (asyncRequest fileName sect w)) = requestQueue (rpc w) ++ [sect]
  /\ pendingAjax (asyncRequest fileName sect w)
     = pendingAjax w ++ [mkAjax fileName sect (batchID (rpc w))].
Proof.
  intros Hnot%indexOf_absent. unfold asyncRequest. by rewrite Hnot.
Qed.

(** What [asyncRequest] never touches. *)
Lemma asyncRequest_frame fileName sect w :
  let w' := asyncRequest fileName sect w in
  bufferL2 (rpc w') = bufferL2 (rpc w)
  /\ bufferSize (rpc w') = bufferSize (rpc w)
  /\ bufferL2Size (rpc w') = bufferL2Size (rpc w)
  /\ batchID (rpc w') = batchID (rpc w).
Proof. cbn zeta. unfold asyncRequest. by destruct (_ <? 0). Qed.

Lemma asyncRequest_parsed_queue sect j w :
  (length (requestQueue (rpc (asyncRequest_parsed sect j w)))
   <= length (requestQueue (rpc w)))%nat
  /\ bufferSize (rpc (asyncRequest_parsed sect j w)) = bufferSize (rpc w)
  /\ bufferL2Size (rpc (asyncRequest_parsed sect j w)) = bufferL2Size (rpc w)
  /\ batchID (rpc (asyncRequest_parsed sect j w)) = batchID (rpc w).
Proof.
  unfold asyncRequest_parsed. cbn [rpc with_rpc requestQueue set_bufferL2].
  destruct (-1 <? _); cbn; [|done].
  split; [apply length_splice1|done].
Qed.

(** ** The scan of the scheduler *)

(** A cached array counts as resident. *)
Lemma resident_array r sect l :
  bufferL2 r !! sect = Some (JArr l) -> resident r sect = true.
Proof. unfold resident. by intros ->. Qed.

Lemma wanted_spec r sect :
  wanted r sect = true <-> resident r sect = false /\ sect ∉ requestQueue r.
Proof.
  unfold wanted. rewrite andb_true_iff, negb_true_iff, indexOf_absent. done.
Qed.

(** The loop ends before the fuel does. *)
Lemma streamToBuffer_loop_total fuel i pt cs ms w :
  (Z.to_nat (lookAhead (rpc w) + 1 - i) < fuel)%nat ->
  is_Some (streamToBuffer_loop fuel i pt cs ms w).
Proof.
  revert i. induction fuel as [|fuel IH]; intros i Hfuel; [lia|].
  cbn [streamToBuffer_loop].
  destruct (Z.leb_spec i (lookAhead (rpc w))); cbn [andb]; [|by eexists].
  destruct (i <? ms); [|by eexists].
  destruct (negb _ && _); [by eexists|].
  apply IH. lia.
Qed.

(** The loop either finds no wanted candidate from [i] on and changes
    nothing, or requests the first wanted one. *)
Lemma streamToBuffer_loop_spec fuel i pt w w' :
  let r := rpc w in
  let cs := ceil_div (currentTimePoint pt) (bufferSize r) in
  let ms := timeLength r / bufferSize r in
  0 <= i ->
  streamToBuffer_loop fuel i pt cs ms w = Some w' ->
  (w' = w /\ forall j, i <= j -> scanned r j -> wanted r (candidate pt r j) = false)
  \/ exists j, i <= j /\ scanned r j
       /\ wanted r (candidate pt r j) = true
       /\ (forall k, i <= k < j -> wanted r (candidate pt r k) = false)
       /\ w' = asyncRequest (ajax_url (request_for pt r (candidate pt r j)))
                 (candidate pt r j) w.
Proof.
  intros r cs ms. revert i.
  induction fuel as [|fuel IH]; intros i Hi Hloop; [done|].
  cbn [streamToBuffer_loop] in Hloop. fold r in Hloop.
  destruct (Z.leb_spec i (lookAhead r)) as [Hle|Hgt]; cbn [andb] in Hloop.
  2:{ injection Hloop as <-. left. split; [done|].
      intros j Hj (_ & Hjl & _). lia. }
  destruct (Z.ltb_spec i ms) as [Hlt|Hge].
  2:{ injection Hloop as <-. left. split; [done|].
      intros j Hj (_ & _ & Hjm). fold ms in Hjm. lia. }
  change (Z.min (cs + i) ms) with (candidate pt r i) in Hloop.
  change (negb (truthy (bufferL2 r !! candidate pt r i))
          && (indexOf (requestQueue r) (candidate pt r i) <? 0))
    with (wanted r (candidate pt r i)) in Hloop.
  destruct (wanted r (candidate pt r i)) eqn:Hw.
  - injection Hloop as <-. right. exists i.
    split; [lia|]. split; [by unfold scanned; fold ms|].
    split; [done|]. split; [intros k Hk; lia|]. reflexivity.
  - destruct (IH (i + 1) ltac:(lia) Hloop) as [[-> Hnone]|(j & Hj & Hsc & Hwj & Hfirst & ->)].
    + left. split; [done|]. intros j Hj Hsc.
      destruct (decide (j = i)) as [->|Hne]; [done|]. apply Hnone; [lia|done].
    + right. exists j. split; [lia|]. split; [done|]. split; [done|].
      split; [|done]. intros k Hk.
      destruct (decide (k = i)) as [->|Hne]; [done|]. apply Hfirst. lia.
Qed.

Lemma wanted_false r sect :
  wanted r sect = false -> resident r sect = true \/ sect ∈ requestQueue r.
Proof.
  unfold wanted. intros [H|H]%andb_false_iff.
  - left. by apply negb_false_iff.
  - right. by apply indexOf_present.
Qed.

(** A tick of the scheduler changes nothing, or requests the first wanted
    candidate of its scan, and that only with fewer than 2 requests queued. *)
Lemma streamToBuffer_cases pt w w' :
  let r := rpc w in
  streamToBuffer pt w = Some w' ->
  (w' = w
   /\ ((2 <= length (requestQueue r))%nat
       \/ forall j, scanned r j -> wanted r (candidate pt r j) = false))
  \/ ((length (requestQueue r) < 2)%nat
      /\ exists j, scanned r j
           /\ wanted r (candidate pt r j) = true
           /\ (forall k, 0 <= k < j -> wanted r (candidate pt r k) = false)
           /\ w' = asyncRequest (ajax_url (request_for pt r (candidate pt r j)))
                     (candidate pt r j) w).
Proof.
  intros r. unfold streamToBuffer. fold r.
  destruct (Z.ltb_spec (Z.of_nat (length (requestQueue r))) 2) as [Hlt|Hge].
  - intros Hloop. apply streamToBuffer_loop_spec in Hloop; [|lia]. fold r in Hloop.
    destruct Hloop as [[-> Hnone]|(j & Hj & Hsc & Hw & Hfirst & ->)].
    + left. split; [done|]. right. intros j Hsc. apply Hnone; [|done].
      by destruct Hsc.
    + right. split; [lia|]. by exists j.
  - intros [= <-]. left. split; [done|]. left. lia.
Qed.

Lemma streamToBuffer_total pt w : is_Some (streamToBuffer pt w).
Proof.
  unfold streamToBuffer. destruct (_ <? 2); [|by eexists].
  apply streamToBuffer_loop_total. lia.
Qed.

Lemma issued_same w : issued w w = [].
Proof. unfold issued. by apply drop_all. Qed.

Lemma issued_asyncRequest fileName sect w :
  sect ∉ requestQueue (rpc w) ->
  issued w (asyncRequest fileName sect w) = [mkAjax fileName sect (batchID (rpc w))].
Proof.
  intros Hnot. unfold issued.
  destruct (asyncRequest_fresh fileName sect w Hnot) as [_ ->].
  apply drop_app_length.
Qed.

(** C3. In a tick of the scheduler no request is made for a section that is
    in the cache or in the request queue when the tick starts; the tick
    makes no request, or exactly one, and that one is for the first
    candidate of the scan that is neither in the cache nor in the queue.
    It makes none only when the queue holds 2 entries or every candidate
    of the scan is in the cache or in the queue. *)
Theorem streamToBuffer_no_duplicate pt w w' :
  streamToBuffer pt w = Some w' ->
  let r := rpc w in
  (forall idx, resident r idx = true \/ idx ∈ requestQueue r ->
     forall c, c ∈ issued w w' -> ajax_sect c ≠ idx)
  /\ (issued w w' = []
      \/ exists i, scanned r i
           /\ issued w w' = [request_for pt r (candidate pt r i)]
           /\ resident r (candidate pt r i) = false
           /\ (candidate pt r i ∉ requestQueue r)
           /\ forall k, 0 <= k < i ->
                resident r (candidate pt r k) = true
                \/ candidate pt r k ∈ requestQueue r)
  /\ (issued w w' = [] ->
      (2 <= length (requestQueue r))%nat
      \/ forall j, scanned r j ->
           resident r (candidate pt r j) = true
           \/ candidate pt r j ∈ requestQueue r).
Proof.
  intros Htick r.
  assert (Hnone : issued w w' = [] ->
      (2 <= length (requestQueue r))%nat
      \/ forall j, scanned r j ->
           resident r (candidate pt r j) = true
           \/ candidate pt r j ∈ requestQueue r).
  { pose proof Htick as Hc. apply streamToBuffer_cases in Hc. fold r in Hc.
    destruct Hc as [[_ [Hfull|Hall]]|(_ & j & _ & Hw & _ & ->)].
    - by left.
    - right. intros j Hj. by apply wanted_false, Hall.
    - apply wanted_spec in Hw as [_ Hq].
      rewrite issued_asyncRequest by done. done. }
  assert (Hfirst : issued w w' = []
      \/ exists i, scanned r i
           /\ issued w w' = [request_for pt r (candidate pt r i)]
           /\ resident r (candidate pt r i) = false
           /\ (candidate pt r i ∉ requestQueue r)
           /\ forall k, 0 <= k < i ->
                resident r (candidate pt r k) = true
                \/ candidate pt r k ∈ requestQueue r).
  { apply streamToBuffer_cases in Htick. fold r in Htick.
    destruct Htick as [[-> _]|(_ & j & Hsc & Hw & Hbefore & ->)].
    - left. apply issued_same.
    - apply wanted_spec in Hw as [Hres Hq].
      right. exists j. split; [done|]. split; [by apply issued_asyncRequest|].
      split; [done|]. split; [done|].
      intros k Hk. by apply wanted_false, Hbefore. }
  split; [|by split].
  intros idx Hidx c Hc.
  destruct Hfirst as [Hnil|(i & _ & Hone & Hres & Hq & _)].
  - rewrite Hnil in Hc. by apply elem_of_nil in Hc.
  - rewrite Hone in Hc. apply list_elem_of_singleton in Hc as ->.
    cbn [request_for ajax_sect]. intros <-.
    destruct Hidx as [Hidx|Hidx]; [congruence|done].
Qed.

Lemma streamToBuffer_no_duplicate_witness :
  let r := rpc page_one_request in
  (forall idx, resident r idx = true \/ idx ∈ requestQueue r ->
     forall c, c ∈ issued page_one_request page_two_requests -> ajax_sect c ≠ idx)
  /\ (issued page_one_request page_two_requests = []
      \/ exists i, scanned r i
           /\ issued page_one_request page_two_requests
              = [request_for pt_demo r (candidate pt_demo r i)]
           /\ resident r (candidate pt_demo r i) = false
           /\ (candidate pt_demo r i ∉ requestQueue r)
           /\ forall k, 0 <= k < i ->
                resident r (candidate pt_demo r k) = true
                \/ candidate pt_demo r k ∈ requestQueue r)
  /\ (issued page_one_request page_two_requests = [] ->
      (2 <= length (requestQueue r))%nat
      \/ forall j, scanned r j ->
           resident r (candidate pt_demo r j) = true
           \/ candidate pt_demo r j ∈ requestQueue r).
Proof.
  apply (streamToBuffer_no_duplicate pt_demo page_one_request page_two_requests).
  vm_compute. reflexivity.
Defined.

(** The scenario of the specification: the scan starts at section 2 of 4,
    sections 2 and 3 are in the cache, and the tick makes one request, for
    section 4. *)
Example scenario_tick_requests_section_4 :
  match streamToBuffer pt_10 page_scenario_cached with
  | Some w' =>
      issued page_scenario_cached w'
      = [mkAjax "/vol/?from_idx=20;to_idx=20;x_plane=1;y_plane=2;z_plane=3" 4 0]
  | None => False
  end.
Proof. vm_compute. reflexivity. Qed.

(** The second tick on [page_one_request] skips section 0, which is in the
    queue, and asks for section 1. *)
Example second_tick_requests_section_1 :
  issued page_one_request page_two_requests
  = [mkAjax "/vol/?from_idx=5;to_idx=10;x_plane=1;y_plane=2;z_plane=3" 1 1].
Proof. vm_compute. reflexivity. Qed.

(** ** What each operation leaves alone *)

Lemma setupBuffersSize_shape fuel es r r' :
  _setupBuffersSize fuel es r = Some r' ->
  exists bs l2, r' = set_sizes bs l2 r.
Proof.
  unfold _setupBuffersSize. destruct es as [[[e0 e1] e2] e3].
  destruct (grow_bufferSize _ _ _) as [bs|]; [|done].
  destruct (grow_bufferL2Size _ _ _ _) as [l2|]; [|done].
  intros [= <-]. by eexists _, _.
Qed.

Lemma initStreaming_queue vol bg es w w' :
  TSRPC_initStreaming vol bg es w = Some w' ->
  requestQueue (rpc w') = requestQueue (rpc w)
  /\ batchID (rpc w') = batchID (rpc w).
Proof.
  unfold TSRPC_initStreaming.
  destruct (_setupBuffersSize _ _ _) as [r|] eqn:E; [|done].
  apply setupBuffersSize_shape in E as (bs & l2 & ->).
  intros [= <-]. by destruct es as [[[e0 e1] e2] e3].
Qed.

Lemma getViewAtTimeNoCache_rpc server t v url w :
  rpc (snd (_getViewAtTimeNoCache server t v url w)) = rpc w.
Proof.
  unfold _getViewAtTimeNoCache, mbind, M_bind, get_rpc, readJSONfromFile, lift.
  by destruct (server _).
Qed.

Lemma getViewAtTime_rpc server t v w :
  rpc (snd (TSRPC_getViewAtTime server t v w)) = rpc w.
Proof.
  unfold TSRPC_getViewAtTime, mbind, M_bind, get_rpc.
  destruct (truthy _); [done|]. apply getViewAtTimeNoCache_rpc.
Qed.

Lemma getBackgroundView_frame server v w :
  let r' := rpc (snd (TSRPC_getBackgroundView server v w)) in
  requestQueue r' = requestQueue (rpc w)
  /\ bufferL2 r' = bufferL2 (rpc w)
  /\ bufferSize r' = bufferSize (rpc w)
  /\ bufferL2Size r' = bufferL2Size (rpc w)
  /\ batchID r' = batchID (rpc w).
Proof.
  cbn zeta. unfold TSRPC_getBackgroundView, mbind, M_bind, get_rpc.
  destruct (backgroundL2 (rpc w) !! voxelKey v); [done|].
  pose proof (getViewAtTimeNoCache_rpc server 0 v (urlBackgroundVolumeData (rpc w)) w) as Hr.
  destruct (_getViewAtTimeNoCache _ _ _ _ w) as [[ret|e] w1]; cbn in Hr |- *;
    by rewrite Hr.
Qed.

Lemma startBuffering_frame w :
  let r' := rpc (TSRPC_startBuffering w) in
  bufferSize r' = bufferSize (rpc w)
  /\ bufferL2Size r' = bufferL2Size (rpc w)
  /\ (requestQueue r' = [] \/ requestQueue r' = requestQueue (rpc w))
  /\ (batchID r' = batchID (rpc w)
      \/ batchID r' = batchID (rpc w) + 1 /\ requestQueue r' = [] /\ bufferL2 r' = ∅).
Proof.
  cbn zeta. unfold TSRPC_startBuffering.
  destruct (negb _ && _); cbn; auto 10.
Qed.

Lemma clearInterval_rpc id w : rpc (clearInterval id w) = rpc w.
Proof. by destruct id. Qed.

Lemma stopBuffering_frame w :
  let r' := rpc (TSRPC_stopBuffering w) in
  requestQueue r' = requestQueue (rpc w)
  /\ bufferL2 r' = bufferL2 (rpc w)
  /\ bufferSize r' = bufferSize (rpc w)
  /\ bufferL2Size r' = bufferL2Size (rpc w)
  /\ batchID r' = batchID (rpc w).
Proof.
  cbn zeta. unfold TSRPC_stopBuffering. cbn. by rewrite clearInterval_rpc.
Qed.

Lemma freeBuffer_frame pt w :
  let r' := rpc (freeBuffer pt w) in
  requestQueue r' = requestQueue (rpc w)
  /\ bufferSize r' = bufferSize (rpc w)
  /\ bufferL2Size r' = bufferL2Size (rpc w)
  /\ batchID r' = batchID (rpc w).
Proof. cbn zeta. unfold freeBuffer. by destruct (negb _). Qed.

Section Invariants.

Variable JSON_parse : string -> completion json.

Lemma parseAsync_frame data sect w :
  let r' := rpc (snd (parseAsync JSON_parse data sect w)) in
  (length (requestQueue r') <= length (requestQueue (rpc w)))%nat
  /\ bufferSize r' = bufferSize (rpc w)
  /\ bufferL2Size r' = bufferL2Size (rpc w)
  /\ batchID r' = batchID (rpc w).
Proof.
  cbn zeta. unfold parseAsync. destruct (hasWorker w); [done|].
  destruct (JSON_parse data); [|done]. apply asyncRequest_parsed_queue.
Qed.

Lemma asyncRequest_success_frame c response w :
  let r' := rpc (snd (asyncRequest_success JSON_parse c response w)) in
  (length (requestQueue r') <= length (requestQueue (rpc w)))%nat
  /\ bufferSize r' = bufferSize (rpc w)
  /\ bufferL2Size r' = bufferL2Size (rpc w)
  /\ batchID r' = batchID (rpc w).
Proof.
  cbn zeta. unfold asyncRequest_success, mbind, M_bind, get_rpc.
  destruct (_ =? _); [|done]. apply parseAsync_frame.
Qed.

Lemma worker_message_frame sect data w :
  let r' := rpc (worker_message JSON_parse sect data w) in
  (length (requestQueue r') <= length (requestQueue (rpc w)))%nat
  /\ bufferSize r' = bufferSize (rpc w)
  /\ bufferL2Size r' = bufferL2Size (rpc w)
  /\ batchID r' = batchID (rpc w).
Proof.
  cbn zeta. unfold worker_message.
  destruct (JSON_parse data); [|done]. apply asyncRequest_parsed_queue.
Qed.

(** A turn of the event loop shortens the request queue or keeps it, except
    for a tick of the scheduler that finds fewer than 2 entries and adds
    one. *)
Lemma step_requestQueue w e w' :
  step JSON_parse w e = Some w' ->
  (length (requestQueue (rpc w')) <= length (requestQueue (rpc w)))%nat
  \/ ((length (requestQueue (rpc w)) < 2)%nat
      /\ length (requestQueue (rpc w')) = S (length (requestQueue (rpc w)))).
Proof.
  destruct e as [vol bg region es|vol bg es|t v server|v server| | |id pt|n response|n|n];
    cbn [step].
  - intros [= <-]. left. by destruct es as [[[e0 e1] e2] e3].
  - intros [H _]%initStreaming_queue. left. by rewrite H.
  - intros [= <-]. left. by rewrite getViewAtTime_rpc.
  - intros [= <-]. left.
    by destruct (getBackgroundView_frame server v w) as [-> _].
  - intros [= <-]. left.
    destruct (startBuffering_frame w) as (_ & _ & [-> | ->] & _); cbn; lia.
  - intros [= <-]. left.
    by destruct (stopBuffering_frame w) as [-> _].
  - destruct (list_find _ _) as [[i [id' [|]]]|]; [| |done].
    + intros Htick. apply streamToBuffer_cases in Htick.
      destruct Htick as [[-> _]|(Hlt & j & _ & Hw & _ & ->)]; [left; lia|].
      right. split; [done|]. apply wanted_spec in Hw as [_ Hq].
      destruct (asyncRequest_fresh (ajax_url (request_for pt (rpc w)
                  (candidate pt (rpc w) j))) _ w Hq) as [-> _].
      rewrite length_app. cbn. lia.
    + intros [= <-]. left.
      by destruct (freeBuffer_frame pt w) as [-> _].
  - destruct (pendingAjax w !! n) as [c|]; [|done]. intros [= <-]. left.
    apply (asyncRequest_success_frame c response
             (with_pendingAjax (delete n (pendingAjax w)) w)).
  - destruct (pendingAjax w !! n) as [c|]; [|done]. intros [= <-]. left. done.
  - destruct (parsers w !! n) as [[sect data]|]; [|done]. intros [= <-]. left.
    apply (worker_message_frame sect data (with_parsers (delete n (parsers w)) w)).
Qed.

(** C2. In every state the page can reach the request queue holds at most
    2 entries; a tick of the scheduler makes at most one request, and none
    when the queue already holds 2. *)
Theorem requestQueue_cap w :
  reachable JSON_parse w ->
  (length (requestQueue (rpc w)) <= 2)%nat
  /\ forall pt w', streamToBuffer pt w = Some w' ->
       (length (issued w w') <= 1)%nat
       /\ ((2 <= length (requestQueue (rpc w)))%nat -> issued w w' = []).
Proof.
  intros Hreach. split.
  - induction Hreach as [worker|w e w' _ IH Hstep]; [cbn; lia|].
    apply step_requestQueue in Hstep. lia.
  - intros pt w' Htick. apply streamToBuffer_cases in Htick.
    destruct Htick as [[-> _]|(Hlt & j & _ & Hw & _ & ->)].
    + rewrite issued_same. split; [cbn; lia|done].
    + apply wanted_spec in Hw as [_ Hq].
      rewrite issued_asyncRequest by done. split; [cbn; lia|lia].
Qed.

Lemma run_reachable w es w' :
  reachable JSON_parse w -> run JSON_parse w es = Some w' ->
  reachable JSON_parse w'.
Proof.
  revert w. induction es as [|e es IH]; intros w Hreach; cbn [run].
  - by intros [= <-].
  - destruct (step JSON_parse w e) as [w1|] eqn:E; [|done].
    apply IH. by eapply reachable_step.
Qed.

(** The same for a page given as the outcome of a run. *)
Lemma run_default_reachable w es d :
  reachable JSON_parse w ->
  bool_decide (is_Some (run JSON_parse w es)) = true ->
  reachable JSON_parse (default d (run JSON_parse w es)).
Proof.
  intros Hreach [w' Hrun]%bool_decide_eq_true.
  rewrite Hrun. by eapply run_reachable.
Qed.

End Invariants.

Lemma requestQueue_cap_witness :
  (length (requestQueue (rpc page_two_requests)) <= 2)%nat
  /\ forall pt w', streamToBuffer pt page_two_requests = Some w' ->
       (length (issued page_two_requests w') <= 1)%nat
       /\ ((2 <= length (requestQueue (rpc page_two_requests)))%nat ->
           issued page_two_requests w' = []).
Proof.
  apply (requestQueue_cap parse_demo page_two_requests).
  apply (run_reachable parse_demo (world0 true)
           [init_demo; CallStartBuffering; TimerFires 2 pt_demo; TimerFires 2 pt_demo]).
  - apply reachable_init.
  - vm_compute. reflexivity.
Defined.

(** With two requests pending a further tick asks for nothing. *)
Example third_tick_requests_nothing :
  streamToBuffer pt_demo page_two_requests = Some page_two_requests.
Proof. vm_compute. reflexivity. Qed.

(** ** Sizing of the buffers *)

Lemma grow_bufferSize_spec fuel bs tpSize bs' :
  grow_bufferSize fuel bs tpSize = Some bs' ->
  bs <= bs' /\ 50000 < bs' * tpSize
  /\ forall b, bs <= b < bs' -> b * tpSize <= 50000.
Proof.
  revert bs. induction fuel as [|fuel IH]; intros bs; cbn [grow_bufferSize]; [done|].
  destruct (Z.leb_spec (bs * tpSize) 50000) as [Hle|Hgt].
  - intros (H1 & H2 & H3)%IH. split; [lia|]. split; [done|].
    intros b Hb. destruct (decide (b = bs)) as [->|Hne]; [done|]. apply H3. lia.
  - intros [= <-]. split; [lia|]. split; [done|]. intros b Hb. lia.
Qed.

Lemma grow_bufferSize_total fuel bs tpSize :
  1 <= tpSize -> (Z.to_nat (50001 - bs) < fuel)%nat ->
  is_Some (grow_bufferSize fuel bs tpSize).
Proof.
  intros Htp. revert bs. induction fuel as [|fuel IH]; intros bs Hfuel; [lia|].
  cbn [grow_bufferSize].
  destruct (Z.leb_spec (bs * tpSize) 50000) as [Hle|Hgt]; [|by eexists].
  apply IH. nia.
Qed.

(** For a volume whose three spatial sizes are at most 0 with the largest
    one equal to 0, the first loop never ends. *)
Lemma grow_bufferSize_diverges fuel bs :
  grow_bufferSize fuel bs 0 = None.
Proof.
  revert bs. induction fuel as [|fuel IH]; intros bs; cbn [grow_bufferSize]; [done|].
  replace (bs * 0) with 0 by lia. apply IH.
Qed.

Lemma Qle_bool_false (a b : Q) : Qle_bool a b = false -> (b < a)%Q.
Proof.
  intros H. apply Qnot_le_lt. intros Hle%Qle_bool_iff. congruence.
Qed.

(** The second loop doubles [bufferL2Size] [k] times; it runs at least once
    when the first product is within the budget. *)
Lemma grow_bufferL2Size_spec fuel bs tpSize l2 l2' :
  grow_bufferL2Size fuel bs tpSize l2 = Some l2' ->
  exists k : nat,
    (l2' == l2 * inject_Z (2 ^ Z.of_nat k))%Q
    /\ (157286400 < inject_Z (bs * tpSize) * l2')%Q
    /\ ((inject_Z (bs * tpSize) * l2 <= 157286400)%Q -> (0 < k)%nat).
Proof.
  revert l2. induction fuel as [|fuel IH]; intros l2; cbn [grow_bufferL2Size]; [done|].
  destruct (Qle_bool _ 157286400) eqn:E.
  - intros (k & Hk & Hout & _)%IH. exists (S k). split; [|split; [done|lia]].
    rewrite Hk, Nat2Z.inj_succ, Z.pow_succ_r by lia.
    rewrite inject_Z_mult. change (inject_Z 2) with 2%Q. ring.
  - intros [= <-]. exists 0%nat. apply Qle_bool_false in E.
    split; [change (inject_Z (2 ^ Z.of_nat 0)) with 1%Q; ring|].
    split; [done|]. intros Hle. lra.
Qed.

Lemma grow_bufferL2Size_total fuel bs tpSize l2 :
  1 <= bs * tpSize -> (0 < l2)%Q ->
  (157286400 < l2 * inject_Z (2 ^ Z.of_nat fuel))%Q ->
  is_Some (grow_bufferL2Size (S fuel) bs tpSize l2).
Proof.
  intros Hpos. revert l2. induction fuel as [|fuel IH]; intros l2 Hl2 Hbig.
  - cbn [grow_bufferL2Size]. destruct (Qle_bool _ 157286400) eqn:E; [|by eexists].
    apply Qle_bool_iff in E. exfalso. cbn in Hbig.
    assert (1 <= inject_Z (bs * tpSize))%Q
      by (change 1%Q with (inject_Z 1); by rewrite <- Zle_Qle).
    change (inject_Z (2 ^ Z.of_nat 0)) with 1%Q in Hbig. nra.
  - cbn [grow_bufferL2Size] in *. destruct (Qle_bool _ 157286400) eqn:E; [|by eexists].
    apply IH; [lra|].
    rewrite Nat2Z.inj_succ, Z.pow_succ_r, inject_Z_mult in Hbig by lia.
    change (inject_Z 2) with 2%Q in Hbig. lra.
Qed.

(** What [_setupBuffersSize] returns, when it returns: the least
    [bufferSize] from the current one on whose product with [tpSize] exceeds
    50000, and half of the first doubling of [bufferL2Size] that takes the
    product above the budget. *)
Lemma setupBuffersSize_spec fuel e0 e1 e2 e3 r r' :
  let m := Z.max (Z.max e0 e1) e2 in
  _setupBuffersSize fuel (e0, e1, e2, e3) r = Some r' ->
  exists bs l2 (k : nat),
    r' = set_sizes bs (l2 / 2)%Q r
    /\ bufferSize r <= bs /\ 50000 < bs * (m * m)
    /\ (forall b, bufferSize r <= b < bs -> b * (m * m) <= 50000)
    /\ (l2 == bufferL2Size r * inject_Z (2 ^ Z.of_nat k))%Q
    /\ ((inject_Z (bs * (m * m)) * bufferL2Size r <= 157286400)%Q -> (0 < k)%nat).
Proof.
  intros m. unfold _setupBuffersSize. fold m.
  destruct (grow_bufferSize _ _ _) as [bs|] eqn:Hbs; [|done].
  destruct (grow_bufferL2Size _ _ _ _) as [l2|] eqn:Hl2; [|done].
  intros [= <-].
  apply grow_bufferSize_spec in Hbs as (Hbs1 & Hbs2 & Hbs3).
  apply grow_bufferL2Size_spec in Hl2 as (k & Hk & _ & Hrun).
  by exists bs, l2, k.
Qed.

Lemma power_above_budget (l2 : Q) (fuel : nat) :
  (0 < l2)%Q ->
  (29 + Pos.to_nat (Pos.size (Qden l2)) <= fuel)%nat ->
  (157286400 < l2 * inject_Z (2 ^ Z.of_nat fuel))%Q.
Proof.
  destruct l2 as [n d]. unfold Qlt. cbn [Qnum Qden Qmult inject_Z].
  intros Hn Hfuel. rewrite !Z.mul_1_r in *. cbn in Hn.
  set (sd := Z.pos (Pos.size d)).
  assert (Hd : Z.pos d < 2 ^ sd).
  { pose proof (Pos.size_gt d) as H. apply Pos2Z.pos_lt_pos in H.
    by rewrite Pos2Z.inj_pow in H. }
  replace (Z.of_nat fuel) with ((Z.of_nat fuel - sd) + sd) by lia.
  rewrite Z.pow_add_r by lia.
  assert (Hp : 2 ^ 29 <= 2 ^ (Z.of_nat fuel - sd)) by (apply Z.pow_le_mono_r; lia).
  change (2 ^ 29) with 536870912 in Hp.
  rewrite Pos.mul_1_r.
  generalize dependent (2 ^ (Z.of_nat fuel - sd)). intros a Ha.
  generalize dependent (2 ^ sd). intros b Hb.
  assert (H1 : 536870912 * b <= a * b) by nia.
  assert (H2 : a * b <= n * (a * b)) by nia.
  lia.
Qed.

(** On a module whose [bufferL2Size] is positive, the sizing of a volume
    whose largest spatial size is not 0 returns. *)
Lemma setupBuffersSize_returns e0 e1 e2 e3 r :
  Z.max (Z.max e0 e1) e2 ≠ 0 ->
  (0 < bufferL2Size r)%Q ->
  is_Some (_setupBuffersSize (setup_fuel r) (e0, e1, e2, e3) r).
Proof.
  intros Hm Hl2. unfold _setupBuffersSize.
  set (m := Z.max (Z.max e0 e1) e2) in *.
  assert (Htp : 1 <= m * m) by nia.
  destruct (grow_bufferSize_total (setup_fuel r) (bufferSize r) (m * m) Htp)
    as [bs Hbs]; [unfold setup_fuel; lia|].
  rewrite Hbs. apply grow_bufferSize_spec in Hbs as (_ & Hbs & _).
  assert (Hfuel : exists f, setup_fuel r = S f
            /\ (29 + Pos.to_nat (Pos.size (Qden (bufferL2Size r))) <= f)%nat).
  { exists (Z.to_nat (50002 - bufferSize r) + 29
            + Pos.to_nat (Pos.size (Qden (bufferL2Size r))))%nat.
    unfold setup_fuel. lia. }
  destruct Hfuel as (f & -> & Hf).
  destruct (grow_bufferL2Size_total f bs (m * m) (bufferL2Size r)) as [l2 ->];
    [lia|done|by apply power_above_budget|].
  by eexists.
Qed.

(** For a volume whose largest spatial size [m] is not 0 and has
    [m * m <= 157286400] (that is, [m] up to 12541), the sizing on a fresh
    module returns, and both sizes are integers from 1 on. *)
Lemma setupBuffersSize_in_range e0 e1 e2 e3 :
  let m := Z.max (Z.max e0 e1) e2 in
  m ≠ 0 -> m * m <= 157286400 ->
  exists r, _setupBuffersSize (setup_fuel tsRPC0) (e0, e1, e2, e3) tsRPC0 = Some r
    /\ 1 <= bufferSize r
    /\ exists n, 1 <= n /\ (bufferL2Size r == inject_Z n)%Q.
Proof.
  intros m Hm0 Hm.
  destruct (setupBuffersSize_returns e0 e1 e2 e3 tsRPC0 Hm0) as [r Hr]; [done|].
  exists r. split; [done|].
  apply setupBuffersSize_spec in Hr as (bs & l2 & k & -> & Hbs1 & Hbs2 & Hbs3 & Hk & Hrun).
  fold m in Hbs2, Hbs3, Hrun. cbn [bufferSize bufferL2Size tsRPC0] in Hbs1, Hbs3, Hk, Hrun.
  cbn [set_sizes bufferSize bufferL2Size].
  assert (Hprod : bs * (m * m) <= 157286400).
  { destruct (decide (bs = 1)) as [->|Hne]; [lia|].
    pose proof (Hbs3 (bs - 1) ltac:(lia)). pose proof (Hbs3 1 ltac:(lia)). nia. }
  assert (Hk0 : (0 < k)%nat).
  { apply Hrun. rewrite Qmult_1_r. change 157286400%Q with (inject_Z 157286400).
    by rewrite <- Zle_Qle. }
  split; [lia|]. exists (2 ^ Z.of_nat (k - 1)). split.
  - pose proof (Z.pow_pos_nonneg 2 (Z.of_nat (k - 1))). lia.
  - rewrite Hk. replace (Z.of_nat k) with (Z.succ (Z.of_nat (k - 1))) by lia.
    rewrite Z.pow_succ_r, inject_Z_mult by lia.
    change (inject_Z 2) with 2%Q. field.
Qed.

(** For a larger volume neither loop runs, and the halving leaves one half. *)
Lemma setupBuffersSize_large e0 e1 e2 e3 :
  let m := Z.max (Z.max e0 e1) e2 in
  157286400 < m * m ->
  exists r, _setupBuffersSize (setup_fuel tsRPC0) (e0, e1, e2, e3) tsRPC0 = Some r
    /\ bufferSize r = 1
    /\ (bufferL2Size r == 1 # 2)%Q.
Proof.
  intros m Hm. unfold _setupBuffersSize. fold m.
  assert (Hfuel : exists f, setup_fuel tsRPC0 = S f) by (by eexists).
  destruct Hfuel as [f ->].
  cbn [grow_bufferSize bufferSize tsRPC0].
  destruct (Z.leb_spec (1 * (m * m)) 50000) as [Hle|_]; [lia|].
  cbn [grow_bufferL2Size bufferL2Size tsRPC0].
  destruct (Qle_bool _ 157286400) eqn:E.
  - apply Qle_bool_iff in E. rewrite Qmult_1_r in E.
    change 157286400%Q with (inject_Z 157286400) in E.
    rewrite <- Zle_Qle in E. lia.
  - eexists. split; [reflexivity|]. split; [reflexivity|]. reflexivity.
Qed.

(** For a volume whose largest spatial size is 0 the sizing never returns,
    whatever the fuel. *)
Lemma setupBuffersSize_diverges fuel e0 e1 e2 e3 r :
  Z.max (Z.max e0 e1) e2 = 0 ->
  _setupBuffersSize fuel (e0, e1, e2, e3) r = None.
Proof.
  intros Hm. unfold _setupBuffersSize. rewrite Hm.
  change (0 * 0) with 0. by rewrite grow_bufferSize_diverges.
Qed.

(** C9, at a volume of 12542 x 12542 x 12542 voxels.  The sizing returns
    [bufferSize = 1] and [bufferL2Size = 1/2], which is not an integer and
    is below 1. *)
Theorem sizing_of_a_large_volume :
  exists r,
    _setupBuffersSize (setup_fuel tsRPC0) (12542, 12542, 12542, 100) tsRPC0 = Some r
    /\ bufferSize r = 1
    /\ (bufferL2Size r == 1 # 2)%Q
    /\ (bufferL2Size r < 1)%Q
    /\ ~ exists n : Z, (bufferL2Size r == inject_Z n)%Q.
Proof.
  destruct (setupBuffersSize_large 12542 12542 12542 100) as (r & Hr & Hbs & Hl2);
    [reflexivity|].
  exists r. split; [done|]. split; [done|]. split; [done|]. split.
  - rewrite Hl2. reflexivity.
  - intros [n Hn]. rewrite Hl2 in Hn. unfold Qeq in Hn. cbn in Hn. lia.
Qed.

(** On the volumes of the demonstration pages the sizes are 5 and 2048. *)
Example sizing_of_the_demo_volume :
  match _setupBuffersSize (setup_fuel tsRPC0) (91, 109, 91, 100) tsRPC0 with
  | Some r => bufferSize r = 5 /\ (bufferL2Size r == 2048 # 1)%Q
  | None => False
  end.
Proof. vm_compute. split; reflexivity. Qed.

(** ** The sizes after initialization *)

Lemma initStreaming_sizes vol bg es w w' :
  TSRPC_initStreaming vol bg es w = Some w' ->
  bufferSize (rpc w) <= bufferSize (rpc w')
  /\ ((0 < bufferL2Size (rpc w))%Q -> (0 < bufferL2Size (rpc w'))%Q).
Proof.
  unfold TSRPC_initStreaming, _setupBuffersSize.
  destruct es as [[[e0 e1] e2] e3].
  cbn [TSRPC_initNonStreaming rpc with_rpc bufferSize bufferL2Size set_init].
  destruct (grow_bufferSize _ _ _) as [bs|] eqn:Hbs; [|done].
  destruct (grow_bufferL2Size _ _ _ _) as [l2|] eqn:Hl2; [|done].
  intros [= <-]. cbn.
  apply grow_bufferSize_spec in Hbs as (Hbs & _ & _).
  apply grow_bufferL2Size_spec in Hl2 as (k & Hk & _ & _).
  split; [done|]. intros Hpos.
  assert (Hp : (0 < inject_Z (2 ^ Z.of_nat k))%Q).
  { change 0%Q with (inject_Z 0). rewrite <- Zlt_Qlt.
    apply Z.pow_pos_nonneg; lia. }
  apply Qlt_shift_div_l; [reflexivity|]. rewrite Hk. nra.
Qed.

Section Sizes.

Variable JSON_parse : string -> completion json.

(** No operation but [TSRPC_initStreaming] sets the two sizes. *)
Lemma step_keeps_sizes w e w' :
  (forall vol bg es, e ≠ CallInitStreaming vol bg es) ->
  step JSON_parse w e = Some w' ->
  bufferSize (rpc w') = bufferSize (rpc w)
  /\ bufferL2Size (rpc w') = bufferL2Size (rpc w).
Proof.
  intros Hinit.
  destruct e as [vol bg region es|vol bg es|t v server|v server| | |id pt|n response|n|n];
    cbn [step].
  - intros [= <-]. by destruct es as [[[e0 e1] e2] e3].
  - by destruct (Hinit vol bg es).
  - intros [= <-]. by rewrite getViewAtTime_rpc.
  - intros [= <-].
    by destruct (getBackgroundView_frame server v w) as (_ & _ & -> & -> & _).
  - intros [= <-]. by destruct (startBuffering_frame w) as (-> & -> & _ & _).
  - intros [= <-]. by destruct (stopBuffering_frame w) as (_ & _ & -> & -> & _).
  - destruct (list_find _ _) as [[i [id' [|]]]|]; [| |done].
    + intros Htick. apply streamToBuffer_cases in Htick.
      destruct Htick as [[-> _]|(_ & j & _ & _ & _ & ->)]; [done|].
      by destruct (asyncRequest_frame (ajax_url (request_for pt (rpc w)
                     (candidate pt (rpc w) j))) (candidate pt (rpc w) j) w)
        as (_ & -> & -> & _).
    + intros [= <-]. by destruct (freeBuffer_frame pt w) as (_ & -> & -> & _).
  - destruct (pendingAjax w !! n) as [c|]; [|done]. intros [= <-].
    by destruct (asyncRequest_success_frame JSON_parse c response
                   (with_pendingAjax (delete n (pendingAjax w)) w)) as (_ & -> & -> & _).
  - destruct (pendingAjax w !! n) as [c|]; [|done]. by intros [= <-].
  - destruct (parsers w !! n) as [[sect data]|]; [|done]. intros [= <-].
    by destruct (worker_message_frame JSON_parse sect data
                   (with_parsers (delete n (parsers w)) w)) as (_ & -> & -> & _).
Qed.

(** In every state the page can reach [bufferSize] is at least 1, so that
    no division by it is a division by 0, and [bufferL2Size] is positive. *)
Lemma reachable_sizes_positive w :
  reachable JSON_parse w ->
  1 <= bufferSize (rpc w) /\ (0 < bufferL2Size (rpc w))%Q.
Proof.
  induction 1 as [worker|w e w' _ [IHbs IHl2] Hstep]; [done|].
  assert (Hcase : (exists vol bg es, e = CallInitStreaming vol bg es)
                  \/ forall vol bg es, e ≠ CallInitStreaming vol bg es).
  { destruct e; try (by right); left. by eexists _, _, _. }
  destruct Hcase as [(vol & bg & es & ->)|Hother].
  - apply initStreaming_sizes in Hstep as [Hbs Hl2]. split; [lia|auto].
  - by apply step_keeps_sizes in Hstep as [-> ->].
Qed.

(** On a page the event loop reaches, [TSRPC_initStreaming] returns for
    every volume whose largest spatial size is not 0. *)
Lemma initStreaming_returns w vol bg e0 e1 e2 e3 :
  reachable JSON_parse w ->
  Z.max (Z.max e0 e1) e2 ≠ 0 ->
  is_Some (step JSON_parse w (CallInitStreaming vol bg (e0, e1, e2, e3))).
Proof.
  intros [_ Hl2]%reachable_sizes_positive Hm.
  cbn [step]. unfold TSRPC_initStreaming.
  destruct (setupBuffersSize_returns e0 e1 e2 e3
              (rpc (TSRPC_initNonStreaming vol bg None (e0, e1, e2, e3) w)) Hm)
    as [r ->]; [done|by eexists].
Qed.

(** The batch id changes only when [TSRPC_startBuffering] starts the
    scheduler, and then the request queue and the cache are emptied: an
    answer is stale only if buffering restarted after its request. *)
Lemma step_batchID w e w' :
  step JSON_parse w e = Some w' ->
  batchID (rpc w') = batchID (rpc w)
  \/ (e = CallStartBuffering
      /\ batchID (rpc w') = batchID (rpc w) + 1
      /\ requestQueue (rpc w') = []
      /\ bufferL2 (rpc w') = ∅).
Proof.
  destruct e as [vol bg region es|vol bg es|t v server|v server| | |id pt|n response|n|n];
    cbn [step].
  - intros [= <-]. left. by destruct es as [[[e0 e1] e2] e3].
  - intros [_ H]%initStreaming_queue. by left.
  - intros [= <-]. left. by rewrite getViewAtTime_rpc.
  - intros [= <-]. left.
    by destruct (getBackgroundView_frame server v w) as (_ & _ & _ & _ & ->).
  - intros [= <-].
    destruct (startBuffering_frame w) as (_ & _ & _ & [H|H]); [by left|by right].
  - intros [= <-]. left.
    by destruct (stopBuffering_frame w) as (_ & _ & _ & _ & ->).
  - destruct (list_find _ _) as [[i [id' [|]]]|]; [| |done].
    + intros Htick. left. apply streamToBuffer_cases in Htick.
      destruct Htick as [[-> _]|(_ & j & _ & _ & _ & ->)]; [done|].
      by destruct (asyncRequest_frame (ajax_url (request_for pt (rpc w)
                     (candidate pt (rpc w) j))) (candidate pt (rpc w) j) w)
        as (_ & _ & _ & ->).
    + intros [= <-]. left. by destruct (freeBuffer_frame pt w) as (_ & _ & _ & ->).
  - destruct (pendingAjax w !! n) as [c|]; [|done]. intros [= <-]. left.
    by destruct (asyncRequest_success_frame JSON_parse c response
                   (with_pendingAjax (delete n (pendingAjax w)) w)) as (_ & _ & _ & ->).
  - destruct (pendingAjax w !! n) as [c|]; [|done]. intros [= <-]. by left.
  - destruct (parsers w !! n) as [[sect data]|]; [|done]. intros [= <-]. left.
    by destruct (worker_message_frame JSON_parse sect data
                   (with_parsers (delete n (parsers w)) w)) as (_ & _ & _ & ->).
Qed.

End Sizes.

(** ** Stale answers and restarts *)

Section Stale.

Variable JSON_parse : string -> completion json.



End Stale.


(** When the request that the second batch made for section 0 has failed,
    section 0 is in the queue with no call pending for it (see C7); the
    stale answer of the first batch for section 0 leaves it there. *)
Example stale_answer_beside_failed_retry :
  run parse_demo page_restarted [AjaxFails 1; AjaxSucceeds 0 "data"]
  = Some page_retry_failed
  /\ pendingAjax page_restarted
     = [mkAjax "/vol/?from_idx=0;to_idx=5;x_plane=1;y_plane=2;z_plane=3" 0 1;
        mkAjax "/vol/?from_idx=0;to_idx=5;x_plane=1;y_plane=2;z_plane=3" 0 2]
  /\ requestQueue (rpc page_retry_failed) = [0]
  /\ pendingAjax page_retry_failed = []
  /\ batchID (rpc page_retry_failed) = 2.
Proof.
  split; [|split; [|split; [|split]]]; vm_compute; reflexivity.
Qed.

(** ** The eviction sweeper *)

Lemma sweep_cons (P : Z -> bool) m a keys :
  sweep P m (a :: keys) = sweep P (if P a then delete a m else m) keys.
Proof. reflexivity. Qed.

Lemma sweep_kept (P : Z -> bool) m keys k :
  P k = false -> sweep P m keys !! k = m !! k.
Proof.
  intros Hk. revert m. induction keys as [|a keys IH]; intros m; [done|].
  rewrite sweep_cons, IH. destruct (P a) eqn:Ha; [|done].
  apply lookup_delete_ne. congruence.
Qed.

Lemma sweep_absent (P : Z -> bool) m keys k :
  m !! k = None -> sweep P m keys !! k = None.
Proof.
  revert m. induction keys as [|a keys IH]; intros m Hk; [done|].
  rewrite sweep_cons. apply IH. destruct (P a); [|done].
  rewrite lookup_delete. by case_decide.
Qed.

Lemma sweep_deleted (P : Z -> bool) m keys k :
  P k = true -> k ∈ keys -> sweep P m keys !! k = None.
Proof.
  intros Hk. revert m. induction keys as [|a keys IH]; intros m Hin.
  - by apply elem_of_nil in Hin.
  - rewrite sweep_cons. apply elem_of_cons in Hin as [<-|Hin]; [|by apply IH].
    rewrite Hk. apply sweep_absent, lookup_delete_eq.
Qed.

(** Deleting during the [for .. in] loop amounts to filtering the map. *)
Lemma sweep_lookup (P : Z -> bool) m k :
  sweep P m (map_to_list m).*1 !! k = if P k then None else m !! k.
Proof.
  destruct (P k) eqn:Hk; [|by apply sweep_kept].
  destruct (m !! k) as [v|] eqn:Hm; [|by apply sweep_absent].
  apply sweep_deleted; [done|].
  apply list_elem_of_fmap. exists (k, v). split; [done|].
  by apply elem_of_map_to_list.
Qed.

(** What a sweep that runs leaves in the cache. *)
Lemma freeBuffer_lookup pt w k :
  (bufferL2Size (rpc w) < cached (rpc w))%Q ->
  bufferL2 (rpc (freeBuffer pt w)) !! k
  = if outside_window (currentTimePoint pt / bufferSize (rpc w)) (rpc w) k
    then None else bufferL2 (rpc w) !! k.
Proof.
  intros Hover. unfold freeBuffer.
  destruct (Qle_bool _ _) eqn:E.
  - apply Qle_bool_iff in E. unfold cached in Hover. lra.
  - cbn [negb rpc with_rpc bufferL2 set_bufferL2]. apply sweep_lookup.
Qed.

Lemma Qtrunc_mono x y : (x <= y)%Q -> Qtrunc x <= Qtrunc y.
Proof.
  unfold Qle, Qtrunc. destruct x as [nx dx], y as [ny dy]. cbn [Qnum Qden].
  intros Hle.
  rewrite <- (Z.quot_mul_cancel_r nx (Z.pos dx) (Z.pos dy)) by lia.
  rewrite <- (Z.quot_mul_cancel_r ny (Z.pos dy) (Z.pos dx)) by lia.
  rewrite (Z.mul_comm (Z.pos dy) (Z.pos dx)).
  apply Z.quot_le_mono; lia.
Qed.

Lemma rem_Some x (T : Z) :
  T ≠ 0 ->
  rem x (inject_Z T) = Some (x - inject_Z T * inject_Z (Qtrunc (x / inject_Z T)))%Q.
Proof.
  intros HT. unfold rem. destruct (Qeq_bool _ 0) eqn:E; [|done].
  apply Qeq_bool_iff in E. unfold Qeq in E. cbn in E. lia.
Qed.

(** With a positive [timeLength], a section the sweep keeps lies within
    [bufferL2Size / 2] of the playback section shifted by [k] times
    [timeLength], where [k] is the quotient the lower bound of the test
    takes off. *)
Lemma inside_window_bounds section r idx :
  0 < timeLength r -> (0 <= bufferL2Size r)%Q ->
  outside_window section r idx = false ->
  let k := Qtrunc ((inject_Z section - bufferL2Size r / 2) / inject_Z (timeLength r)) in
  (inject_Z (section - k * timeLength r) - bufferL2Size r / 2 <= inject_Z idx
   /\ inject_Z idx <= inject_Z (section - k * timeLength r) + bufferL2Size r / 2)%Q.
Proof.
  intros HT HL2 Hin k. unfold outside_window in Hin.
  apply orb_false_iff in Hin as [Hlo Hhi].
  rewrite rem_Some in Hlo, Hhi by lia. cbn [lt_nan gt_nan] in Hlo, Hhi.
  apply negb_false_iff, Qle_bool_iff in Hlo, Hhi. fold k in Hlo.
  set (k2 := Qtrunc ((inject_Z section + bufferL2Size r / 2) / inject_Z (timeLength r))) in Hhi.
  assert (Hh : (0 <= bufferL2Size r / 2)%Q) by (apply Qle_shift_div_l; lra).
  assert (HTq : (0 < inject_Z (timeLength r))%Q).
  { change 0%Q with (inject_Z 0). by rewrite <- Zlt_Qlt. }
  assert (Hk : k <= k2).
  { subst k k2. set (h := (bufferL2Size r / 2)%Q) in *.
    apply Qtrunc_mono. apply Qmult_le_compat_r; [lra|].
    apply Qinv_le_0_compat. lra. }
  assert (Hkq : (inject_Z (timeLength r) * inject_Z k
                 <= inject_Z (timeLength r) * inject_Z k2)%Q).
  { rewrite <- !inject_Z_mult, <- Zle_Qle. nia. }
  unfold Z.sub. rewrite inject_Z_plus, inject_Z_opp, inject_Z_mult.
  clearbody k k2. set (h := (bufferL2Size r / 2)%Q) in *.
  split; lra.
Qed.

(** A map whose keys all lie in an interval of length [L] has at most
    [L + 1] keys. *)
Lemma window_count (m : gmap Z json) (lo L : Q) :
  (0 <= L)%Q ->
  (forall k, is_Some (m !! k) -> (lo <= inject_Z k /\ inject_Z k <= lo + L)%Q) ->
  (inject_Z (Z.of_nat (size m)) <= L + 1)%Q.
Proof.
  intros HL Hkeys.
  set (a := Qceiling lo). set (n := Qfloor L).
  assert (Hn : 0 <= n).
  { subst n. rewrite <- (Qfloor_Z 0). by apply Qfloor_resp_le. }
  assert (Hsub : dom m ⊆ list_to_set (C := gset Z) (seqZ a (n + 1))).
  { intros k Hk%elem_of_dom. destruct (Hkeys k Hk) as [Hlo Hhi].
    apply elem_of_list_to_set, elem_of_seqZ.
    assert (Ha : a <= k).
    { subst a. rewrite <- (Qceiling_Z k). by apply Qceiling_resp_le. }
    split; [done|].
    assert (Hd : (inject_Z (k - a) <= L)%Q).
    { unfold Z.sub. rewrite inject_Z_plus, inject_Z_opp.
      pose proof (Qle_ceiling lo) as Hc. fold a in Hc. lra. }
    apply Qfloor_resp_le in Hd. rewrite Qfloor_Z in Hd. fold n in Hd. lia. }
  apply subseteq_size in Hsub.
  rewrite size_dom, size_list_to_set, length_seqZ in Hsub by apply NoDup_seqZ.
  pose proof (Qfloor_le L) as HfL. fold n in HfL.
  assert (Hz : (inject_Z (Z.of_nat (size m)) <= inject_Z (n + 1))%Q).
  { rewrite <- Zle_Qle. lia. }
  rewrite inject_Z_plus in Hz. change (inject_Z 1) with 1%Q in Hz. lra.
Qed.

(** C5, as the code has it.  With a positive [timeLength], after a sweep
    of a cache that holds more than [bufferL2Size] sections at most
    [bufferL2Size + 1] remain, and every one that remains is within
    [bufferL2Size / 2] sections, modulo [timeLength], of the section of the
    playback position. *)
Theorem freeBuffer_window pt w :
  0 < timeLength (rpc w) ->
  (0 <= bufferL2Size (rpc w))%Q ->
  (bufferL2Size (rpc w) < cached (rpc w))%Q ->
  (cached (rpc (freeBuffer pt w)) <= bufferL2Size (rpc w) + 1)%Q
  /\ forall idx, is_Some (bufferL2 (rpc (freeBuffer pt w)) !! idx) ->
       near_playback (currentTimePoint pt / bufferSize (rpc w)) (rpc w) idx.
Proof.
  intros HT HL2 Hover.
  set (section := currentTimePoint pt / bufferSize (rpc w)).
  assert (Hkept : forall idx, is_Some (bufferL2 (rpc (freeBuffer pt w)) !! idx) ->
            outside_window section (rpc w) idx = false).
  { intros idx. rewrite freeBuffer_lookup by done. fold section.
    destruct (outside_window section (rpc w) idx); [|done].
    by intros [v Hv]. }
  split.
  - unfold cached.
    eapply (window_count _ (inject_Z (section - _ * timeLength (rpc w))
                            - bufferL2Size (rpc w) / 2)%Q); [done|].
    intros idx Hidx.
    destruct (inside_window_bounds section (rpc w) idx HT HL2 (Hkept idx Hidx))
      as [Hlo Hhi].
    split; [exact Hlo|].
    assert (Hhalf : (bufferL2Size (rpc w) == bufferL2Size (rpc w) / 2
                     + bufferL2Size (rpc w) / 2)%Q) by field.
    set (h := (bufferL2Size (rpc w) / 2)%Q) in *. lra.
  - intros idx Hidx. eexists.
    exact (inside_window_bounds section (rpc w) idx HT HL2 (Hkept idx Hidx)).
Qed.

Lemma freeBuffer_window_witness :
  (cached (rpc (freeBuffer pt_50 page_five_sections)) <= 4 + 1)%Q
  /\ forall idx,
       is_Some (bufferL2 (rpc (freeBuffer pt_50 page_five_sections)) !! idx) ->
       near_playback 10 (rpc page_five_sections) idx.
Proof.
  apply (freeBuffer_window pt_50 page_five_sections).
  - reflexivity.
  - vm_compute. discriminate.
  - vm_compute. reflexivity.
Defined.

(** On [page_five_sections], with the playback in section 10, the test of
    the sweeper keeps all of 8 .. 12: five sections remain, one more than
    [bufferL2Size = 4]. *)
Lemma sweep_restores_bound_fails : ~ sweep_restores_bound.
Proof.
  intros H.
  destruct (H pt_50 page_five_sections) as [Hcount _].
  - vm_compute. reflexivity.
  - vm_compute in Hcount. by apply Hcount.
Qed.

Example sweep_keeps_five :
  bufferL2 (rpc (freeBuffer pt_50 page_five_sections))
  = bufferL2 (rpc page_five_sections)
  /\ size (bufferL2 (rpc page_five_sections)) = 5%nat.
Proof. split; vm_compute; reflexivity. Qed.


(** The same on a page that the event loop reaches.  With the sizes of the
    91 x 109 x 91 volume ([bufferL2Size = 2048]) and sections 0 .. 2049
    cached, a sweep with the playback in section 1024 deletes section 2049
    only: 2049 sections remain. *)
Example sweep_of_a_played_page :
  reachable parse_demo page_played
  /\ (bufferL2Size (rpc page_played) == 2048)%Q
  /\ size (bufferL2 (rpc page_played)) = 2050%nat
  /\ size (bufferL2 (rpc (freeBuffer pt_5120 page_played))) = 2049%nat.
Proof.
  split.
  - apply run_default_reachable; [apply reachable_init|].
    vm_compute. reflexivity.
  - vm_compute. repeat split.
Qed.

(** * Further properties of the module *)

(** ** Sizing *)

(** When the second loop doubled at all, the half of its result, which is
    what [_setupBuffersSize] stores, still passes the test of the loop. *)
Lemma grow_bufferL2Size_last fuel bs tpSize l2 l2' :
  grow_bufferL2Size fuel bs tpSize l2 = Some l2' ->
  (l2' == l2)%Q \/ (inject_Z (bs * tpSize) * (l2' / 2) <= 157286400)%Q.
Proof.
  revert l2. induction fuel as [|fuel IH]; intros l2; cbn [grow_bufferL2Size]; [done|].
  destruct (Qle_bool _ 157286400) eqn:E.
  - intros [H|H]%IH; [|by right]. right.
    apply Qle_bool_iff in E.
    assert (Hh : (l2' / 2 == l2)%Q) by (rewrite H; field).
    by rewrite Hh.
  - intros [= <-]. by left.
Qed.

(** X1. On a freshly loaded module, for a volume whose largest spatial size
    [m] is not 0 and has [m * m <= 157286400], [_setupBuffersSize] returns
    with [bufferSize] the least number of time points whose [m * m] values
    exceed 50000, and with [bufferL2Size] a power of two such that
    [bufferSize * m * m * bufferL2Size] is within the budget of 157286400
    while twice as much is not. *)
Theorem sizing_within_budget e0 e1 e2 e3 :
  let m := Z.max (Z.max e0 e1) e2 in
  m ≠ 0 -> m * m <= 157286400 ->
  exists r, _setupBuffersSize (setup_fuel tsRPC0) (e0, e1, e2, e3) tsRPC0 = Some r
    /\ 50000 < bufferSize r * (m * m)
    /\ (bufferSize r = 1 \/ (bufferSize r - 1) * (m * m) <= 50000)
    /\ (exists j : nat, (bufferL2Size r == inject_Z (2 ^ Z.of_nat j))%Q)
    /\ (inject_Z (bufferSize r * (m * m)) * bufferL2Size r <= 157286400)%Q
    /\ (157286400 < inject_Z (bufferSize r * (m * m)) * (bufferL2Size r * 2))%Q.
Proof.
  intros m Hm0 Hm.
  destruct (setupBuffersSize_returns e0 e1 e2 e3 tsRPC0 Hm0) as [r Hr]; [done|].
  exists r. split; [done|].
  unfold _setupBuffersSize in Hr. fold m in Hr. cbn [bufferSize bufferL2Size tsRPC0] in Hr.
  destruct (grow_bufferSize _ 1 (m * m)) as [bs|] eqn:Hg1; [|done].
  destruct (grow_bufferL2Size _ bs (m * m) 1) as [l2|] eqn:Hg2; [|done].
  assert (Hr' : r = set_sizes bs (l2 / 2)%Q tsRPC0) by congruence.
  clear Hr. subst r.
  apply grow_bufferSize_spec in Hg1 as (Hbs1 & Hbs2 & Hbs3).
  pose proof (grow_bufferL2Size_last _ _ _ _ _ Hg2) as Hlast.
  apply grow_bufferL2Size_spec in Hg2 as (k & Hk & Hout & Hrun).
  cbn [set_sizes bufferSize bufferL2Size].
  assert (Hprod : bs * (m * m) <= 157286400).
  { destruct (decide (bs = 1)) as [->|Hne]; [lia|].
    pose proof (Hbs3 (bs - 1) ltac:(lia)). pose proof (Hbs3 1 ltac:(lia)). nia. }
  assert (Hprodq : (inject_Z (bs * (m * m)) <= 157286400)%Q).
  { change 157286400%Q with (inject_Z 157286400). by rewrite <- Zle_Qle. }
  assert (Hk0 : (0 < k)%nat) by (apply Hrun; by rewrite Qmult_1_r).
  split; [done|]. split.
  { destruct (decide (bs = 1)) as [->|Hne]; [by left|right]. apply Hbs3. lia. }
  split.
  { exists (k - 1)%nat. rewrite Hk.
    replace (Z.of_nat k) with (Z.succ (Z.of_nat (k - 1))) by lia.
    rewrite Z.pow_succ_r, inject_Z_mult by lia.
    change (inject_Z 2) with 2%Q. field. }
  split.
  { destruct Hlast as [Heq|Hlast]; [|done].
    rewrite Heq in Hout. rewrite Qmult_1_r in Hout. lra. }
  assert (Hd : (l2 / 2 * 2 == l2)%Q) by field.
  by rewrite Hd.
Qed.

Lemma sizing_within_budget_witness :
  exists r, _setupBuffersSize (setup_fuel tsRPC0) (91, 109, 91, 100) tsRPC0 = Some r
    /\ 50000 < bufferSize r * (109 * 109)
    /\ (bufferSize r = 1 \/ (bufferSize r - 1) * (109 * 109) <= 50000)
    /\ (exists j : nat, (bufferL2Size r == inject_Z (2 ^ Z.of_nat j))%Q)
    /\ (inject_Z (bufferSize r * (109 * 109)) * bufferL2Size r <= 157286400)%Q
    /\ (157286400 < inject_Z (bufferSize r * (109 * 109)) * (bufferL2Size r * 2))%Q.
Proof.
  apply (sizing_within_budget 91 109 91 100); lia.
Defined.

Section Initialization.

Variable JSON_parse : string -> completion json.

(** X2. On a page the event loop reaches, [TSRPC_initStreaming] returns for
    every volume whose largest spatial size is not 0; it then has set the
    two urls and [timeLength], put [null] for the url of the regions, and
    started one more timer for [freeBuffer]. *)
Theorem initStreaming_terminates w vol bg e0 e1 e2 e3 :
  reachable JSON_parse w ->
  Z.max (Z.max e0 e1) e2 ≠ 0 ->
  exists w',
    step JSON_parse w (CallInitStreaming vol bg (e0, e1, e2, e3)) = Some w'
    /\ timeLength (rpc w') = e3
    /\ urlVolumeData (rpc w') = vol
    /\ urlBackgroundVolumeData (rpc w') = bg
    /\ urlVoxelRegion (rpc w') = None
    /\ intervals w' = intervals w ++ [(nextTimer w, CbFreeBuffer)].
Proof.
  intros [_ Hl2]%reachable_sizes_positive Hm.
  cbn [step]. unfold TSRPC_initStreaming.
  destruct (setupBuffersSize_returns e0 e1 e2 e3
              (rpc (TSRPC_initNonStreaming vol bg None (e0, e1, e2, e3) w)) Hm)
    as [r Hr]; [done|].
  rewrite Hr. apply setupBuffersSize_shape in Hr as (bs & l2 & ->).
  by eexists.
Qed.

(** X3. For a volume whose largest spatial size is 0 the first loop of
    [_setupBuffersSize] never ends: no amount of fuel makes the sizing
    return, and [TSRPC_initStreaming] does not return on any page. *)
Theorem sizing_hangs_on_empty_volume e0 e1 e2 e3 :
  Z.max (Z.max e0 e1) e2 = 0 ->
  (forall fuel r, _setupBuffersSize fuel (e0, e1, e2, e3) r = None)
  /\ forall w vol bg,
       step JSON_parse w (CallInitStreaming vol bg (e0, e1, e2, e3)) = None.
Proof.
  intros Hm.
  assert (Hnone : forall fuel r, _setupBuffersSize fuel (e0, e1, e2, e3) r = None).
  { intros fuel r. unfold _setupBuffersSize. rewrite Hm.
    change (0 * 0) with 0. by rewrite grow_bufferSize_diverges. }
  split; [exact Hnone|].
  intros w vol bg. cbn [step]. unfold TSRPC_initStreaming. by rewrite Hnone.
Qed.

(** X4. A run of the event loop without a call of [TSRPC_initStreaming]
    leaves [bufferSize] and [bufferL2Size] as they were. *)
Theorem sizes_written_only_by_init w evs w' :
  Forall (fun e => forall vol bg es, e ≠ CallInitStreaming vol bg es) evs ->
  run JSON_parse w evs = Some w' ->
  bufferSize (rpc w') = bufferSize (rpc w)
  /\ bufferL2Size (rpc w') = bufferL2Size (rpc w).
Proof.
  intros Hevs. revert w. induction Hevs as [|e evs He _ IH]; intros w; cbn [run].
  - by intros [= <-].
  - destruct (step JSON_parse w e) as [w1|] eqn:Hstep; [|done].
    intros Hrun. apply IH in Hrun as [-> ->].
    by apply step_keeps_sizes in Hstep.
Qed.

(** X5. In every state the page can reach [bufferSize] lies between 1 and
    50001 and [bufferL2Size] is positive. *)
Theorem sizes_stay_in_range w :
  reachable JSON_parse w ->
  1 <= bufferSize (rpc w) <= 50001 /\ (0 < bufferL2Size (rpc w))%Q.
Proof.
  intros Hreach.
  split; [|by destruct (reachable_sizes_positive JSON_parse w Hreach)].
  induction Hreach as [worker|w e w' Hreach IH Hstep]; [done|].
  assert (Hcase : (exists vol bg es, e = CallInitStreaming vol bg es)
                  \/ forall vol bg es, e ≠ CallInitStreaming vol bg es).
  { destruct e; try (by right); left. by eexists _, _, _. }
  destruct Hcase as [(vol & bg & [[[e0 e1] e2] e3] & ->)|Hother].
  - cbn [step] in Hstep. unfold TSRPC_initStreaming in Hstep.
    destruct (_setupBuffersSize _ _ _) as [r|] eqn:Hr; [|done].
    injection Hstep as <-.
    apply setupBuffersSize_spec in Hr as (bs & l2 & k & -> & H1 & H2 & H3 & _).
    cbn in H1, H3 |- *. split; [lia|].
    destruct (decide (bs = bufferSize (rpc w))) as [->|Hne]; [lia|].
    pose proof (H3 (bs - 1) ltac:(lia)). nia.
  - apply step_keeps_sizes in Hstep as [-> _]; done.
Qed.


End Initialization.

Lemma initStreaming_terminates_witness :
  exists w',
    step parse_demo page_two_requests
      (CallInitStreaming "/v2/?" "/b2/?" (64, 64, 32, 50)) = Some w'
    /\ timeLength (rpc w') = 50
    /\ urlVolumeData (rpc w') = "/v2/?"
    /\ urlBackgroundVolumeData (rpc w') = "/b2/?"
    /\ urlVoxelRegion (rpc w') = None
    /\ intervals w' = intervals page_two_requests
                      ++ [(nextTimer page_two_requests, CbFreeBuffer)].
Proof.
  apply (initStreaming_terminates parse_demo page_two_requests "/v2/?" "/b2/?" 64 64 32 50).
  - apply (run_reachable parse_demo (world0 true)
             [init_demo; CallStartBuffering; TimerFires 2 pt_demo; TimerFires 2 pt_demo]).
    + apply reachable_init.
    + vm_compute. reflexivity.
  - lia.
Defined.

Lemma sizing_hangs_on_empty_volume_witness :
  (forall fuel r, _setupBuffersSize fuel (0, 0, 0, 100) r = None)
  /\ forall w vol bg,
       step parse_demo w (CallInitStreaming vol bg (0, 0, 0, 100)) = None.
Proof.
  apply (sizing_hangs_on_empty_volume parse_demo 0 0 0 100). reflexivity.
Defined.

Lemma sizes_written_only_by_init_witness :
  bufferSize (rpc page_restarted) = bufferSize (rpc page_one_request)
  /\ bufferL2Size (rpc page_restarted) = bufferL2Size (rpc page_one_request).
Proof.
  apply (sizes_written_only_by_init parse_demo page_one_request
           [CallStopBuffering; CallStartBuffering; TimerFires 3 pt_demo]).
  - repeat constructor; discriminate.
  - vm_compute. reflexivity.
Defined.

Lemma sizes_stay_in_range_witness :
  1 <= bufferSize (rpc page_two_requests) <= 50001
  /\ (0 < bufferL2Size (rpc page_two_requests))%Q.
Proof.
  apply (sizes_stay_in_range parse_demo page_two_requests).
  apply (run_reachable parse_demo (world0 true)
           [init_demo; CallStartBuffering; TimerFires 2 pt_demo; TimerFires 2 pt_demo]).
  - apply reachable_init.
  - vm_compute. reflexivity.
Defined.


(** ** Starting and stopping *)

(** [TSRPC_startBuffering] does nothing while the scheduler runs or when
    segments hold a single time point. *)
Lemma startBuffering_noop w :
  is_Some (streamToBufferID (rpc w)) \/ bufferSize (rpc w) <= 1 ->
  TSRPC_startBuffering w = w.
Proof.
  intros H. unfold TSRPC_startBuffering.
  destruct H as [[id ->]|H]; [done|].
  destruct (Z.ltb_spec 1 (bufferSize (rpc w))); [lia|].
  by rewrite andb_false_r.
Qed.

(** What [TSRPC_startBuffering] does otherwise. *)
Lemma startBuffering_starts w :
  streamToBufferID (rpc w) = None -> 1 < bufferSize (rpc w) ->
  let w' := TSRPC_startBuffering w in
  streamToBufferID (rpc w') = Some (nextTimer w)
  /\ batchID (rpc w') = batchID (rpc w) + 1
  /\ requestQueue (rpc w') = []
  /\ bufferL2 (rpc w') = ∅
  /\ intervals w' = intervals w ++ [(nextTimer w, CbStreamToBuffer)]
  /\ nextTimer w' = Pos.succ (nextTimer w)
  /\ pendingAjax w' = pendingAjax w
  /\ parsers w' = parsers w
  /\ backgroundL2 (rpc w') = backgroundL2 (rpc w).
Proof.
  intros Hid Hbs. cbn zeta. unfold TSRPC_startBuffering. rewrite Hid.
  destruct (Z.ltb_spec 1 (bufferSize (rpc w))); [|lia]. done.
Qed.

(** X7. A second call of [TSRPC_startBuffering] changes nothing: the batch
    id is not advanced again and no second timer is set. *)
Theorem startBuffering_idempotent w :
  TSRPC_startBuffering (TSRPC_startBuffering w) = TSRPC_startBuffering w.
Proof.
  destruct (streamToBufferID (rpc w)) as [id|] eqn:Hid.
  - rewrite (startBuffering_noop w); [|left; by eexists].
    apply startBuffering_noop. left. by eexists.
  - destruct (Z.ltb_spec 1 (bufferSize (rpc w))) as [Hbs|Hbs].
    + apply startBuffering_noop. left.
      destruct (startBuffering_starts w Hid Hbs) as [-> _]. by eexists.
    + rewrite (startBuffering_noop w); [|by right].
      apply startBuffering_noop. by right.
Qed.

(** X8. After [TSRPC_initStreaming] on a freshly loaded module,
    [TSRPC_startBuffering] does nothing exactly when the largest plane of
    the volume has more than 50000 voxels: such volumes get
    [bufferSize = 1] and are never prefetched. *)
Theorem buffering_needs_small_planes vol bg e0 e1 e2 e3 worker w :
  TSRPC_initStreaming vol bg (e0, e1, e2, e3) (world0 worker) = Some w ->
  let m := Z.max (Z.max e0 e1) e2 in
  (TSRPC_startBuffering w = w <-> 50000 < m * m)
  /\ (bufferSize (rpc w) = 1 <-> 50000 < m * m).
Proof.
  intros Hinit m. unfold TSRPC_initStreaming in Hinit.
  destruct (_setupBuffersSize _ _ _) as [r|] eqn:Hr; [|done].
  injection Hinit as <-.
  apply setupBuffersSize_spec in Hr as (bs & l2 & k & -> & H1 & H2 & H3 & _).
  fold m in H2, H3. cbn in H1, H3.
  assert (Hbs : bs = 1 <-> 50000 < m * m).
  { split; [intros ->; lia|]. intros Hm.
    destruct (decide (bs = 1)) as [|Hne]; [done|].
    pose proof (H3 1 ltac:(lia)). lia. }
  split; [|exact Hbs].
  unfold TSRPC_startBuffering. cbn.
  destruct (Z.ltb_spec 1 bs) as [Hlt|Hge]; cbn.
  - split; [|lia]. intros Heq. apply (f_equal (fun w => batchID (rpc w))) in Heq.
    cbn in Heq. lia.
  - split; [|done]. intros _. apply Hbs. lia.
Qed.

Lemma buffering_needs_small_planes_witness :
  (TSRPC_startBuffering page_large_volume = page_large_volume <-> 50000 < 256 * 256)
  /\ (bufferSize (rpc page_large_volume) = 1 <-> 50000 < 256 * 256).
Proof.
  apply (buffering_needs_small_planes "/vol/?" "/bg/?" 256 256 256 100 true).
  vm_compute. reflexivity.
Defined.

(** ** The shape of the world after each operation *)

Lemma asyncRequest_world fileName sect w :
  asyncRequest fileName sect w = w
  \/ ((sect ∉ requestQueue (rpc w))
      /\ asyncRequest fileName sect w
         = with_pendingAjax (pendingAjax w ++ [mkAjax fileName sect (batchID (rpc w))])
             (with_rpc (set_requestQueue (requestQueue (rpc w) ++ [sect]) (rpc w)) w)).
Proof.
  unfold asyncRequest. destruct (indexOf _ _ <? 0) eqn:E; [|by left].
  right. split; [by apply indexOf_absent|done].
Qed.

Lemma streamToBuffer_world pt w w' :
  streamToBuffer pt w = Some w' ->
  w' = w
  \/ exists fileName sect,
       (sect ∉ requestQueue (rpc w))
       /\ w' = with_pendingAjax
                 (pendingAjax w ++ [mkAjax fileName sect (batchID (rpc w))])
                 (with_rpc (set_requestQueue (requestQueue (rpc w) ++ [sect]) (rpc w)) w).
Proof.
  intros Htick. apply streamToBuffer_cases in Htick.
  destruct Htick as [[-> _]|(_ & j & _ & _ & _ & ->)]; [by left|].
  destruct (asyncRequest_world
              (ajax_url (request_for pt (rpc w) (candidate pt (rpc w) j)))
              (candidate pt (rpc w) j) w) as [->|[Hq ->]]; [by left|].
  right. by eexists _, _.
Qed.

Lemma getViewAtTime_world server t v w :
  snd (TSRPC_getViewAtTime server t v w) = w
  \/ exists url, snd (TSRPC_getViewAtTime server t v w)
                 = with_blockingReads (blockingReads w ++ [url]) w.
Proof.
  unfold TSRPC_getViewAtTime, _getViewAtTimeNoCache, mbind, M_bind, get_rpc,
    readJSONfromFile, lift.
  destruct (truthy _); [by left|]. right. eexists. by destruct (server _).
Qed.

Lemma getBackgroundView_world server v w :
  snd (TSRPC_getBackgroundView server v w) = w
  \/ (exists url, snd (TSRPC_getBackgroundView server v w)
                  = with_blockingReads (blockingReads w ++ [url]) w)
  \/ (exists url ret, snd (TSRPC_getBackgroundView server v w)
        = with_rpc (set_backgroundL2 {[voxelKey v := ret]} (rpc w))
            (with_blockingReads (blockingReads w ++ [url]) w)).
Proof.
  unfold TSRPC_getBackgroundView, _getViewAtTimeNoCache, mbind, M_bind, get_rpc,
    readJSONfromFile, lift, modify, mret, M_ret.
  destruct (backgroundL2 (rpc w) !! voxelKey v); [by left|]. right.
  destruct (server _) as [buffer|err]; cbn; [|left; by eexists].
  destruct (planes_at _ _) as [ret|err]; cbn; [|left; by eexists].
  right. eexists _, _. rewrite insert_empty. reflexivity.
Qed.

Lemma initStreaming_world vol bg es w w' :
  TSRPC_initStreaming vol bg es w = Some w' ->
  exists bs l2 tl,
    w' = with_intervals (intervals w ++ [(nextTimer w, CbFreeBuffer)])
           (Pos.succ (nextTimer w))
           (with_rpc (set_sizes bs l2 (set_init vol bg None tl (rpc w))) w).
Proof.
  unfold TSRPC_initStreaming.
  destruct (_setupBuffersSize _ _ _) as [r|] eqn:E; [|done].
  apply setupBuffersSize_shape in E as (bs & l2 & ->).
  intros [= <-]. destruct es as [[[e0 e1] e2] e3]. by eexists _, _, _.
Qed.

Lemma freeBuffer_world pt w :
  exists m, m ⊆ bufferL2 (rpc w)
    /\ freeBuffer pt w = with_rpc (set_bufferL2 m (rpc w)) w.
Proof.
  unfold freeBuffer. destruct (negb _).
  - eexists. split; [|reflexivity].
    apply map_subseteq_spec. intros idx j.
    rewrite sweep_lookup. by destruct (outside_window _ _ _).
  - exists (bufferL2 (rpc w)). split; [done|]. by destruct w as [[] ? ? ? ? ? ? ?].
Qed.

Lemma asyncRequest_parsed_world sect j w :
  let m := <[sect := j]> (bufferL2 (rpc w)) in
  ((sect ∉ requestQueue (rpc w))
   /\ asyncRequest_parsed sect j w = with_rpc (set_bufferL2 m (rpc w)) w)
  \/ (sect ∈ requestQueue (rpc w)
      /\ asyncRequest_parsed sect j w
         = with_rpc (set_requestQueue
                       (splice1 (requestQueue (rpc w)) (indexOf (requestQueue (rpc w)) sect))
                       (set_bufferL2 m (rpc w))) w).
Proof.
  cbn zeta. unfold asyncRequest_parsed. cbn [rpc with_rpc requestQueue set_bufferL2].
  destruct (indexOf (requestQueue (rpc w)) sect <? 0) eqn:E.
  - left. pose proof E as Hnot%indexOf_absent. split; [done|].
    apply Z.ltb_lt in E. destruct (Z.ltb_spec (-1) (indexOf (requestQueue (rpc w)) sect)); [lia|done].
  - right. pose proof E as Hin%indexOf_present. split; [done|].
    apply Z.ltb_ge in E. destruct (Z.ltb_spec (-1) (indexOf (requestQueue (rpc w)) sect)); [done|lia].
Qed.

Section Timers.

Variable JSON_parse : string -> completion json.

Lemma asyncRequest_success_world c response w :
  snd (asyncRequest_success JSON_parse c response w) = w
  \/ (ajax_privateID c = batchID (rpc w) /\ hasWorker w = true
      /\ snd (asyncRequest_success JSON_parse c response w)
         = with_parsers (parsers w ++ [(ajax_sect c, response)]) w)
  \/ (exists j, ajax_privateID c = batchID (rpc w) /\ hasWorker w = false
        /\ JSON_parse response = Normal j
        /\ snd (asyncRequest_success JSON_parse c response w)
           = asyncRequest_parsed (ajax_sect c) j w).
Proof.
  unfold asyncRequest_success, parseAsync, mbind, M_bind, get_rpc.
  destruct (Z.eqb_spec (ajax_privateID c) (batchID (rpc w))); [|by left].
  destruct (hasWorker w) eqn:Hw; [right; left; done|].
  destruct (JSON_parse response) as [j|err] eqn:Hp; [|by left].
  right. right. by exists j.
Qed.

Lemma worker_message_world sect data w :
  worker_message JSON_parse sect data w = w
  \/ exists j, JSON_parse data = Normal j
       /\ worker_message JSON_parse sect data w = asyncRequest_parsed sect j w.
Proof.
  unfold worker_message. destruct (JSON_parse data) as [j|err]; [|by left].
  right. by exists j.
Qed.

(** How a turn of the event loop changes the timers. *)
Lemma step_timers w e w' :
  step JSON_parse w e = Some w' ->
  (intervals w' = intervals w /\ nextTimer w' = nextTimer w
   /\ streamToBufferID (rpc w') = streamToBufferID (rpc w))
  \/ (intervals w' = intervals w ++ [(nextTimer w, CbFreeBuffer)]
      /\ nextTimer w' = Pos.succ (nextTimer w)
      /\ streamToBufferID (rpc w') = streamToBufferID (rpc w))
  \/ (streamToBufferID (rpc w) = None
      /\ intervals w' = intervals w ++ [(nextTimer w, CbStreamToBuffer)]
      /\ nextTimer w' = Pos.succ (nextTimer w)
      /\ streamToBufferID (rpc w') = Some (nextTimer w))
  \/ (e = CallStopBuffering
      /\ intervals w' = intervals (clearInterval (streamToBufferID (rpc w)) w)
      /\ nextTimer w' = nextTimer w
      /\ streamToBufferID (rpc w') = None).
Proof.
  destruct e as [vol bg region es|vol bg es|t v server|v server| | |id pt|n response|n|n];
    cbn [step].
  - intros [= <-]. left. by destruct es as [[[e0 e1] e2] e3].
  - intros (bs & l2 & tl & ->)%initStreaming_world. right. left. done.
  - intros [= <-]. left.
    by destruct (getViewAtTime_world server t v w) as [->|[url ->]].
  - intros [= <-]. left.
    by destruct (getBackgroundView_world server v w)
      as [->|[[url ->]|(url & ret & ->)]].
  - intros [= <-].
    destruct (streamToBufferID (rpc w)) as [id|] eqn:Hid.
    { left. rewrite startBuffering_noop; [done|]. left. by eexists. }
    destruct (Z.ltb_spec 1 (bufferSize (rpc w))) as [Hbs|Hbs].
    + right. right. left.
      by destruct (startBuffering_starts w Hid Hbs) as (-> & _ & _ & _ & -> & -> & _).
    + left. rewrite startBuffering_noop; [done|]. by right.
  - intros [= <-]. right. right. right. unfold TSRPC_stopBuffering.
    split; [done|]. split; [done|]. split; [|done].
    by destruct (streamToBufferID (rpc w)).
  - destruct (list_find _ _) as [[i [id' [|]]]|]; [| |done].
    + intros [->|(f & s & _ & ->)]%streamToBuffer_world; by left.
    + intros [= <-]. left. by destruct (freeBuffer_world pt w) as (m & _ & ->).
  - destruct (pendingAjax w !! n) as [c|]; [|done]. intros [= <-]. left.
    destruct (asyncRequest_success_world c response
                (with_pendingAjax (delete n (pendingAjax w)) w))
      as [->|[(_ & _ & ->)|(j & _ & _ & _ & ->)]]; [done|done|].
    by destruct (asyncRequest_parsed_world (ajax_sect c) j
                   (with_pendingAjax (delete n (pendingAjax w)) w))
      as [[_ ->]|[_ ->]].
  - destruct (pendingAjax w !! n) as [c|]; [|done]. intros [= <-]. by left.
  - destruct (parsers w !! n) as [[sect data]|]; [|done]. intros [= <-]. left.
    destruct (worker_message_world sect data (with_parsers (delete n (parsers w)) w))
      as [->|(j & _ & ->)]; [done|].
    by destruct (asyncRequest_parsed_world sect j
                   (with_parsers (delete n (parsers w)) w))
      as [[_ ->]|[_ ->]].
Qed.

(** The timers of a reachable page: the scheduler has a timer exactly while
    [streamToBufferID] holds its id, ids are below the next id, and no id
    is used twice. *)
Lemma reachable_timers w :
  reachable JSON_parse w ->
  scheduler_timers w = option_list (streamToBufferID (rpc w))
  /\ Forall (fun tc => (tc.1 < nextTimer w)%positive) (intervals w)
  /\ NoDup (intervals w).*1.
Proof.
  induction 1 as [worker|w e w' _ (IHs & IHf & IHn) Hstep].
  { split; [done|]. split; [constructor|constructor]. }
  unfold scheduler_timers in *.
  destruct (step_timers _ _ _ Hstep)
    as [(-> & -> & ->)|[(-> & -> & ->)|[(Hid & -> & -> & ->)|(-> & -> & -> & ->)]]].
  - done.
  - rewrite filter_app, fmap_app, IHs. split; [by rewrite app_nil_r|].
    split.
    + apply Forall_app. split; [|repeat constructor; cbn; lia].
      eapply Forall_impl; [exact IHf|]. cbn. intros; lia.
    + rewrite fmap_app. apply NoDup_app. split; [done|]. split; [|apply NoDup_singleton].
      intros x Hx [->|[]%elem_of_nil]%elem_of_cons.
      apply list_elem_of_fmap in Hx as (tc & Htc & Hin).
      rewrite Forall_forall in IHf. specialize (IHf _ Hin). cbn in Htc, IHf. lia.
  - rewrite filter_app, fmap_app, IHs, Hid. split; [done|].
    split.
    + apply Forall_app. split; [|repeat constructor; cbn; lia].
      eapply Forall_impl; [exact IHf|]. cbn. intros; lia.
    + rewrite fmap_app. apply NoDup_app. split; [done|]. split; [|apply NoDup_singleton].
      intros x Hx [->|[]%elem_of_nil]%elem_of_cons.
      apply list_elem_of_fmap in Hx as (tc & Htc & Hin).
      rewrite Forall_forall in IHf. specialize (IHf _ Hin). cbn in Htc, IHf. lia.
  - destruct (streamToBufferID (rpc w)) as [id|]; cbn [clearInterval option_list] in *.
    2:{ done. }
    cbn [intervals with_intervals nextTimer].
    split; [|split].
    + apply elem_of_nil_inv. intros x (tc & -> & Hin)%list_elem_of_fmap.
      apply list_elem_of_filter in Hin as [Hcb Hin].
      apply list_elem_of_filter in Hin as [Hne Hin].
      assert (Hx : tc.1 ∈ [id]).
      { change [id] with (option_list (Some id)). rewrite <- IHs.
        apply list_elem_of_fmap. exists tc. split; [done|].
        by apply list_elem_of_filter. }
      apply list_elem_of_singleton in Hx. rewrite Hx, Pos.eqb_refl in Hne. done.
    + apply Forall_forall. intros tc [_ Hin]%list_elem_of_filter.
      rewrite Forall_forall in IHf. by apply IHf.
    + eapply sublist_NoDup; [exact IHn|]. apply fmap_sublist, sublist_filter.
Qed.

(** X9. On a page the event loop reaches, the timers that run
    [streamToBuffer] are exactly the one whose id [streamToBufferID] holds:
    one timer while buffering is on, none while it is off, so the scheduler
    ticks only between [TSRPC_startBuffering] and [TSRPC_stopBuffering]. *)
Theorem scheduler_timer_unique w :
  reachable JSON_parse w ->
  scheduler_timers w = option_list (streamToBufferID (rpc w)).
Proof. intros Hreach. by destruct (reachable_timers w Hreach). Qed.

(** X10. No operation stops the sweeper: a timer that runs [freeBuffer] is
    still set after every turn of the event loop, [TSRPC_stopBuffering]
    included. *)
Theorem sweeper_never_stopped w e w' id :
  reachable JSON_parse w ->
  step JSON_parse w e = Some w' ->
  (id, CbFreeBuffer) ∈ intervals w ->
  (id, CbFreeBuffer) ∈ intervals w'.
Proof.
  intros (IHs & _ & IHn)%reachable_timers Hstep Hin.
  destruct (step_timers _ _ _ Hstep)
    as [(-> & _)|[(-> & _)|[(_ & -> & _)|(_ & -> & _)]]].
  - done.
  - apply elem_of_app. by left.
  - apply elem_of_app. by left.
  - destruct (streamToBufferID (rpc w)) as [sid|]; cbn [clearInterval option_list] in *;
      [|done].
    cbn [intervals with_intervals]. apply list_elem_of_filter. split; [|done].
    cbn. destruct (Pos.eqb_spec id sid) as [->|]; [|done]. exfalso.
    assert (Hs : (sid, CbStreamToBuffer) ∈ intervals w).
    { assert (Hx : sid ∈ scheduler_timers w) by (rewrite IHs; apply list_elem_of_here).
      unfold scheduler_timers in Hx.
      apply list_elem_of_fmap in Hx as ([i cb] & Hi & Hx).
      apply list_elem_of_filter in Hx as [Hcb Hx]. cbn in Hi, Hcb. by subst. }
    apply list_elem_of_lookup in Hin as [i Hi]. apply list_elem_of_lookup in Hs as [j Hj].
    assert (i = j).
    { eapply NoDup_lookup; [exact IHn| |].
      - rewrite list_lookup_fmap, Hi. reflexivity.
      - rewrite list_lookup_fmap, Hj. reflexivity. }
    subst j. congruence.
Qed.

End Timers.

Lemma page_one_request_reachable : reachable parse_demo page_one_request.
Proof.
  apply run_default_reachable; [apply reachable_init|]. vm_compute. reflexivity.
Qed.

Lemma page_two_requests_reachable : reachable parse_demo page_two_requests.
Proof.
  apply run_default_reachable; [apply page_one_request_reachable|].
  vm_compute. reflexivity.
Qed.

Lemma page_scenario_reachable : reachable parse_demo page_scenario.
Proof.
  apply run_default_reachable; [apply reachable_init|]. vm_compute. reflexivity.
Qed.

Lemma scheduler_timer_unique_witness :
  scheduler_timers page_one_request
  = option_list (streamToBufferID (rpc page_one_request)).
Proof.
  apply (scheduler_timer_unique parse_demo page_one_request).
  apply page_one_request_reachable.
Defined.

Lemma sweeper_never_stopped_witness :
  (1%positive, CbFreeBuffer) ∈ intervals page_stopped.
Proof.
  apply (sweeper_never_stopped parse_demo page_one_request CallStopBuffering
           page_stopped 1%positive).
  - apply page_one_request_reachable.
  - reflexivity.
  - vm_compute. apply list_elem_of_here.
Defined.

Section Prefetching.

Variable JSON_parse : string -> completion json.

Lemma reachable_idle w :
  reachable JSON_parse w ->
  0 <= batchID (rpc w)
  /\ (batchID (rpc w) = 0 ->
      streamToBufferID (rpc w) = None /\ pendingAjax w = [] /\ parsers w = []
      /\ requestQueue (rpc w) = [] /\ bufferL2 (rpc w) = ∅).
Proof.
  induction 1 as [worker|w e w' Hreach [IH0 IH] Hstep]; [done|].
  pose proof (step_batchID _ _ _ _ Hstep) as Hb.
  split; [lia|]. intros Hz.
  assert (Hw : batchID (rpc w) = 0) by lia.
  destruct (IH Hw) as (Hid & Hp & Hpa & Hq & Hc). clear IH Hb.
  destruct e as [vol bg region es|vol bg es|t v server|v server| | |id pt|n response|n|n];
    cbn [step] in Hstep.
  - injection Hstep as <-. by destruct es as [[[e0 e1] e2] e3].
  - by apply initStreaming_world in Hstep as (bs & l2 & tl & ->).
  - injection Hstep as <-.
    by destruct (getViewAtTime_world server t v w) as [->|[url ->]].
  - injection Hstep as <-.
    by destruct (getBackgroundView_world server v w)
      as [->|[[url ->]|(url & ret & ->)]].
  - injection Hstep as <-.
    destruct (Z.ltb_spec 1 (bufferSize (rpc w))) as [Hbs|Hbs].
    + destruct (startBuffering_starts w Hid Hbs) as (_ & Hb & _). lia.
    + rewrite startBuffering_noop; [done|by right].
  - injection Hstep as <-. unfold TSRPC_stopBuffering. by rewrite Hid.
  - destruct (list_find _ _) as [[i [id' [|]]]|] eqn:Hfind; [| |done].
    + exfalso. apply list_find_Some in Hfind as (Hi & _ & _).
      assert (Hx : id' ∈ scheduler_timers w).
      { unfold scheduler_timers. apply list_elem_of_fmap.
        exists (id', CbStreamToBuffer). split; [done|].
        apply list_elem_of_filter. split; [done|].
        apply list_elem_of_lookup. by exists i. }
      destruct (reachable_timers JSON_parse w Hreach) as [Hs _].
      rewrite Hs, Hid in Hx. by apply elem_of_nil in Hx.
    + injection Hstep as <-. destruct (freeBuffer_world pt w) as (m & Hm & ->).
      cbn. repeat split; try done.
      apply map_empty. intros idx. destruct (m !! idx) eqn:E; [|done].
      eapply lookup_weaken in E; [|exact Hm]. by rewrite Hc, lookup_empty in E.
  - by rewrite Hp in Hstep.
  - by rewrite Hp in Hstep.
  - by rewrite Hpa in Hstep.
Qed.

(** X11. Before [TSRPC_startBuffering] has started the scheduler for the
    first time (the batch id is still 0) the module has made no
    asynchronous request and holds no segment: nothing is pending, parsing,
    queued or cached. *)
Theorem no_prefetch_before_start w :
  reachable JSON_parse w ->
  batchID (rpc w) = 0 ->
  pendingAjax w = [] /\ parsers w = []
  /\ requestQueue (rpc w) = [] /\ bufferL2 (rpc w) = ∅.
Proof.
  intros [_ H]%reachable_idle Hz. by destruct (H Hz) as (_ & ? & ? & ? & ?).
Qed.

Lemma reachable_queue_NoDup w :
  reachable JSON_parse w -> NoDup (requestQueue (rpc w)).
Proof.
  induction 1 as [worker|w e w' Hreach IH Hstep]; [constructor|].
  destruct e as [vol bg region es|vol bg es|t v server|v server| | |id pt|n response|n|n];
    cbn [step] in Hstep.
  - injection Hstep as <-. by destruct es as [[[e0 e1] e2] e3].
  - by apply initStreaming_world in Hstep as (bs & l2 & tl & ->).
  - injection Hstep as <-.
    by destruct (getViewAtTime_world server t v w) as [->|[url ->]].
  - injection Hstep as <-.
    by destruct (getBackgroundView_world server v w)
      as [->|[[url ->]|(url & ret & ->)]].
  - injection Hstep as <-.
    destruct (startBuffering_frame w) as (_ & _ & [-> | ->] & _); [constructor|done].
  - injection Hstep as <-. by destruct (stopBuffering_frame w) as [-> _].
  - destruct (list_find _ _) as [[i [id' [|]]]|]; [| |done].
    + apply streamToBuffer_world in Hstep as [->|(f & s & Hs & ->)]; [done|].
      cbn. apply NoDup_app. split; [done|]. split; [|apply NoDup_singleton].
      intros x Hx [->|[]%elem_of_nil]%elem_of_cons. done.
    + injection Hstep as <-. by destruct (freeBuffer_frame pt w) as [-> _].
  - destruct (pendingAjax w !! n) as [c|]; [|done]. injection Hstep as <-.
    destruct (asyncRequest_success_world JSON_parse c response
                (with_pendingAjax (delete n (pendingAjax w)) w))
      as [->|[(_ & _ & ->)|(j & _ & _ & _ & ->)]]; [done|done|].
    destruct (asyncRequest_parsed_world (ajax_sect c) j
                (with_pendingAjax (delete n (pendingAjax w)) w))
      as [[_ ->]|[_ ->]]; [done|].
    cbn. eapply sublist_NoDup; [exact IH|]. apply sublist_delete.
  - destruct (pendingAjax w !! n) as [c|]; [|done]. by injection Hstep as <-.
  - destruct (parsers w !! n) as [[sect data]|]; [|done]. injection Hstep as <-.
    destruct (worker_message_world JSON_parse sect data
                (with_parsers (delete n (parsers w)) w))
      as [->|(j & _ & ->)]; [done|].
    destruct (asyncRequest_parsed_world sect j
                (with_parsers (delete n (parsers w)) w))
      as [[_ ->]|[_ ->]]; [done|].
    cbn. eapply sublist_NoDup; [exact IH|]. apply sublist_delete.
Qed.

(** X12. On a page the event loop reaches no section is twice in the
    request queue. *)
Theorem requestQueue_no_duplicates w :
  reachable JSON_parse w -> NoDup (requestQueue (rpc w)).
Proof. apply reachable_queue_NoDup. Qed.

End Prefetching.

Lemma no_prefetch_before_start_witness :
  pendingAjax page_scenario = [] /\ parsers page_scenario = []
  /\ requestQueue (rpc page_scenario) = [] /\ bufferL2 (rpc page_scenario) = ∅.
Proof.
  apply (no_prefetch_before_start parse_demo page_scenario).
  - apply page_scenario_reachable.
  - vm_compute. reflexivity.
Defined.

Lemma requestQueue_no_duplicates_witness :
  NoDup (requestQueue (rpc page_two_requests)).
Proof.
  apply (requestQueue_no_duplicates parse_demo page_two_requests).
  apply page_two_requests_reachable.
Defined.

(** ** Keys and urls tell their arguments apart *)

Lemma toString_inj a b : toString a = toString b -> a = b.
Proof.
  unfold toString. intros H.
  apply DecimalZ.to_int_inj.
  assert (Hs : Some (Z.to_int a) = Some (Z.to_int b)).
  { rewrite <- !NilEmpty.isi. by rewrite H. }
  by injection Hs.
Qed.

Lemma absent_uint c d :
  numeric c = false -> absent c (NilEmpty.string_of_uint d) = true.
Proof.
  unfold numeric. cbn [existsb]. intros H.
  repeat (apply orb_false_iff in H as [? H]).
  induction d as [|d IH|d IH|d IH|d IH|d IH|d IH|d IH|d IH|d IH|d IH];
    cbn [NilEmpty.string_of_uint absent]; [done|..];
    rewrite IH, andb_true_r, Ascii.eqb_sym; by apply negb_true_iff.
Qed.

Lemma absent_toString c z : numeric c = false -> absent c (toString z) = true.
Proof.
  intros H. unfold toString, NilEmpty.string_of_int.
  destruct (Z.to_int z) as [d|d]; [by apply absent_uint|].
  cbn [absent]. rewrite absent_uint by done. rewrite andb_true_r.
  unfold numeric in H. cbn [existsb] in H.
  repeat (apply orb_false_iff in H as [? H]).
  rewrite Ascii.eqb_sym. by apply negb_true_iff.
Qed.

(** Two texts that agree up to and after the first [c] agree in both
    parts. *)
Lemma append_split c s1 s2 r1 r2 :
  absent c s1 = true -> absent c s2 = true ->
  s1 +:+ String c r1 = s2 +:+ String c r2 -> s1 = s2 /\ r1 = r2.
Proof.
  revert s2. induction s1 as [|a s1 IH]; intros [|b s2] H1 H2 Heq.
  - change (String c r1 = String c r2) in Heq. by injection Heq.
  - change (String c r1 = String b (s2 +:+ String c r2)) in Heq.
    injection Heq as <- _. cbn in H2. by rewrite Ascii.eqb_refl in H2.
  - change (String a (s1 +:+ String c r1) = String c r2) in Heq.
    injection Heq as -> _. cbn in H1. by rewrite Ascii.eqb_refl in H1.
  - change (String a (s1 +:+ String c r1) = String b (s2 +:+ String c r2)) in Heq.
    injection Heq as -> Heq. cbn in H1, H2.
    apply andb_true_iff in H1 as [_ H1]. apply andb_true_iff in H2 as [_ H2].
    destruct (IH s2 H1 H2 Heq) as [-> ->]. done.
Qed.

Lemma append_inj_l s a b : s +:+ a = s +:+ b -> a = b.
Proof.
  induction s as [|c s IH]; [done|].
  change (String c (s +:+ a) = String c (s +:+ b) -> a = b).
  intros [= H]. by apply IH.
Qed.

Lemma voxelKey_inj (a b : voxel) : voxelKey a = voxelKey b -> a = b.
Proof.
  destruct a as [[a0 a1] a2], b as [[b0 b1] b2]. unfold voxelKey.
  change ("," +:+ ?x) with (String "," x).
  intros H.
  apply append_split in H as [H0 H]; [|by apply absent_toString..].
  apply append_split in H as [H1 H2]; [|by apply absent_toString..].
  apply toString_inj in H0, H1, H2. by subst.
Qed.

(** X13. The key of the background cache, [selectedEntity + ""], is
    different for different voxels: a cached background view is never
    returned for another voxel. *)
Theorem voxelKey_distinct (a b : voxel) : a ≠ b -> voxelKey a ≠ voxelKey b.
Proof. intros Hne Heq. by apply Hne, voxelKey_inj. Qed.

Lemma voxelKey_distinct_witness : voxelKey (1, 12, 3) ≠ voxelKey (11, 2, 3).
Proof. apply (voxelKey_distinct (1, 12, 3) (11, 2, 3)). discriminate. Defined.

Lemma buildRequestUrl_inj base from to v from' to' v' :
  buildRequestUrl base from to v = buildRequestUrl base from' to' v' ->
  from = from' /\ to = to' /\ v = v'.
Proof.
  destruct v as [[x y] z], v' as [[x' y'] z'].
  unfold buildRequestUrl, voxelToUrlFragment. rewrite !append_assoc.
  intros H. apply append_inj_l in H.
  apply (append_inj_l "from_idx=") in H.
  change (";to_idx=" +:+ ?r) with (String ";" ("to_idx=" +:+ r)) in H.
  apply append_split in H as [Hf H]; [|by apply absent_toString..].
  apply (append_inj_l "to_idx=") in H.
  change (";x_plane=" +:+ ?r) with (String ";" ("x_plane=" +:+ r)) in H.
  apply append_split in H as [Ht H]; [|by apply absent_toString..].
  apply (append_inj_l "x_plane=") in H.
  change (";y_plane=" +:+ ?r) with (String ";" ("y_plane=" +:+ r)) in H.
  apply append_split in H as [Hx H]; [|by apply absent_toString..].
  apply (append_inj_l "y_plane=") in H.
  change (";z_plane=" +:+ ?r) with (String ";" ("z_plane=" +:+ r)) in H.
  apply append_split in H as [Hy H]; [|by apply absent_toString..].
  apply (append_inj_l "z_plane=") in H.
  apply toString_inj in Hf, Ht, Hx, Hy, H. by subst.
Qed.

(** X14. For a given base url the request url determines the range and the
    voxel it was built from: requests that differ in the first index, the
    last index or the voxel have different urls. *)
Theorem buildRequestUrl_distinct base from to v from' to' v' :
  (from, to, v) ≠ (from', to', v') ->
  buildRequestUrl base from to v ≠ buildRequestUrl base from' to' v'.
Proof.
  intros Hne Heq. apply Hne.
  by apply buildRequestUrl_inj in Heq as (-> & -> & ->).
Qed.

Lemma buildRequestUrl_distinct_witness :
  buildRequestUrl "/vol/?" 1 15 (1, 2, 3) ≠ buildRequestUrl "/vol/?" 11 5 (1, 2, 3).
Proof.
  apply (buildRequestUrl_distinct "/vol/?" 1 15 (1, 2, 3) 11 5 (1, 2, 3)).
  discriminate.
Defined.

(** ** The background cache *)

(** The three ways [TSRPC_getBackgroundView] ends. *)
Lemma getBackgroundView_cases server v w :
  let url := buildRequestUrl (urlBackgroundVolumeData (rpc w)) 0
               (Z.min 1 (timeLength (rpc w))) v in
  let w1 := with_blockingReads (blockingReads w ++ [url]) w in
  TSRPC_getBackgroundView server v w
  = match backgroundL2 (rpc w) !! voxelKey v with
    | Some ret => (Normal ret, w)
    | None =>
        match server url with
        | Throw e => (Throw e, w1)
        | Normal buffer =>
            match planes_at (Some buffer) 0 with
            | Throw e => (Throw e, w1)
            | Normal ret =>
                (Normal ret,
                 with_rpc (set_backgroundL2 {[voxelKey v := ret]} (rpc w)) w1)
            end
        end
    end.
Proof.
  cbn zeta.
  unfold TSRPC_getBackgroundView, _getViewAtTimeNoCache, mbind, M_bind, get_rpc,
    readJSONfromFile, lift, modify, mret, M_ret.
  destruct (backgroundL2 (rpc w) !! voxelKey v); [done|].
  change (1 + 0) with 1.
  destruct (server _) as [buffer|err]; cbn; [|done].
  destruct (planes_at _ _) as [ret|err]; cbn; [|done].
  by rewrite insert_empty.
Qed.

(** X15. [TSRPC_getBackgroundView] caches what it returns: after a call
    that returned a view for a voxel, a further call for the same voxel
    returns the same view without reading from the server and without
    changing anything. *)
Theorem getBackgroundView_caches server v w ret w' :
  TSRPC_getBackgroundView server v w = (Normal ret, w') ->
  forall server', TSRPC_getBackgroundView server' v w' = (Normal ret, w').
Proof.
  rewrite getBackgroundView_cases. intros H server'.
  rewrite getBackgroundView_cases.
  destruct (backgroundL2 (rpc w) !! voxelKey v) as [r|] eqn:Hv.
  - injection H as -> ->. by rewrite Hv.
  - destruct (server _) as [buffer|err]; [|done].
    destruct (planes_at _ _) as [r|err]; [|done].
    injection H as -> <-. cbn. by rewrite lookup_singleton_eq.
Qed.

(** X16. When [TSRPC_getBackgroundView] throws (the read failed, or the
    answer has not the shape of three planes), the module state is as
    before the call: the voxel was not cached, one read was made, and the
    view cached for the previous voxel is still there. *)
Theorem getBackgroundView_throw_keeps_cache server v w e w' :
  TSRPC_getBackgroundView server v w = (Throw e, w') ->
  rpc w' = rpc w
  /\ backgroundL2 (rpc w) !! voxelKey v = None
  /\ blockingReads w'
     = blockingReads w
       ++ [buildRequestUrl (urlBackgroundVolumeData (rpc w)) 0
             (Z.min 1 (timeLength (rpc w))) v].
Proof.
  rewrite getBackgroundView_cases.
  destruct (backgroundL2 (rpc w) !! voxelKey v) as [r|]; [done|].
  destruct (server _) as [buffer|err].
  - destruct (planes_at _ _) as [r|err]; [done|]. by intros [= _ <-].
  - by intros [= _ <-].
Qed.

(** X17. After a call of [TSRPC_getBackgroundView] that had to read the
    view of a voxel from the server, that voxel is the only one in the
    background cache: the view of every other voxel is gone. *)
Theorem getBackgroundView_replaces server b w ret w' :
  backgroundL2 (rpc w) !! voxelKey b = None ->
  TSRPC_getBackgroundView server b w = (Normal ret, w') ->
  backgroundL2 (rpc w') = {[voxelKey b := ret]}
  /\ forall a, a ≠ b -> backgroundL2 (rpc w') !! voxelKey a = None.
Proof.
  intros Hb. rewrite getBackgroundView_cases, Hb.
  destruct (server _) as [buffer|err]; [|done].
  destruct (planes_at _ _) as [r|err]; [|done].
  intros [= -> <-]. split; [done|].
  intros a Hne. cbn. apply lookup_singleton_ne.
  intros Heq. by apply Hne, voxelKey_inj.
Qed.

Section Background.

Variable JSON_parse : string -> completion json.

(** X18. On a page the event loop reaches the background cache holds at
    most one view. *)
Theorem backgroundL2_single_entry w :
  reachable JSON_parse w -> (size (backgroundL2 (rpc w)) <= 1)%nat.
Proof.
  induction 1 as [worker|w e w' Hreach IH Hstep].
  { cbn. rewrite map_size_empty. lia. }
  destruct e as [vol bg region es|vol bg es|t v server|v server| | |id pt|n response|n|n];
    cbn [step] in Hstep.
  - injection Hstep as <-. by destruct es as [[[e0 e1] e2] e3].
  - by apply initStreaming_world in Hstep as (bs & l2 & tl & ->).
  - injection Hstep as <-.
    by destruct (getViewAtTime_world server t v w) as [->|[url ->]].
  - injection Hstep as <-.
    destruct (getBackgroundView_world server v w)
      as [->|[[url ->]|(url & ret & ->)]]; [done|done|].
    cbn. by rewrite map_size_singleton.
  - injection Hstep as <-.
    destruct (streamToBufferID (rpc w)) as [id|] eqn:Hid.
    { rewrite startBuffering_noop; [done|]. left. by eexists. }
    destruct (Z.ltb_spec 1 (bufferSize (rpc w))) as [Hbs|Hbs].
    + by destruct (startBuffering_starts w Hid Hbs)
        as (_ & _ & _ & _ & _ & _ & _ & _ & ->).
    + rewrite startBuffering_noop; [done|by right].
  - injection Hstep as <-. unfold TSRPC_stopBuffering. cbn.
    by rewrite clearInterval_rpc.
  - destruct (list_find _ _) as [[i [id' [|]]]|]; [| |done].
    + by apply streamToBuffer_world in Hstep as [->|(f & s & _ & ->)].
    + injection Hstep as <-. by destruct (freeBuffer_world pt w) as (m & _ & ->).
  - destruct (pendingAjax w !! n) as [c|]; [|done]. injection Hstep as <-.
    destruct (asyncRequest_success_world JSON_parse c response
                (with_pendingAjax (delete n (pendingAjax w)) w))
      as [->|[(_ & _ & ->)|(j & _ & _ & _ & ->)]]; [done|done|].
    by destruct (asyncRequest_parsed_world (ajax_sect c) j
                   (with_pendingAjax (delete n (pendingAjax w)) w))
      as [[_ ->]|[_ ->]].
  - destruct (pendingAjax w !! n) as [c|]; [|done]. by injection Hstep as <-.
  - destruct (parsers w !! n) as [[sect data]|]; [|done]. injection Hstep as <-.
    destruct (worker_message_world JSON_parse sect data
                (with_parsers (delete n (parsers w)) w))
      as [->|(j & _ & ->)]; [done|].
    by destruct (asyncRequest_parsed_world sect j
                   (with_parsers (delete n (parsers w)) w))
      as [[_ ->]|[_ ->]].
Qed.

End Background.

Lemma getBackgroundView_caches_witness :
  TSRPC_getBackgroundView server_down (4, 5, 6) page_background_2
  = (Normal (Some (JStr "/bg/?from_idx=0;to_idx=1;x_plane=4;y_plane=5;z_plane=6"),
             Some (JStr "y"), Some (JStr "z")),
     page_background_2).
Proof.
  apply (getBackgroundView_caches server_demo (4, 5, 6) page_background).
  vm_compute. reflexivity.
Defined.

Lemma getBackgroundView_throw_keeps_cache_witness :
  rpc (with_blockingReads
         (blockingReads page_background
          ++ ["/bg/?from_idx=0;to_idx=1;x_plane=4;y_plane=5;z_plane=6"])
         page_background)
  = rpc page_background
  /\ backgroundL2 (rpc page_background) !! voxelKey (4, 5, 6) = None
  /\ blockingReads
       (with_blockingReads
          (blockingReads page_background
           ++ ["/bg/?from_idx=0;to_idx=1;x_plane=4;y_plane=5;z_plane=6"])
          page_background)
     = blockingReads page_background
       ++ [buildRequestUrl (urlBackgroundVolumeData (rpc page_background)) 0
             (Z.min 1 (timeLength (rpc page_background))) (4, 5, 6)].
Proof.
  apply (getBackgroundView_throw_keeps_cache server_down (4, 5, 6) page_background
           "offline").
  vm_compute. reflexivity.
Defined.

Lemma getBackgroundView_replaces_witness :
  backgroundL2 (rpc page_background_2)
  = {[voxelKey (4, 5, 6) :=
        (Some (JStr "/bg/?from_idx=0;to_idx=1;x_plane=4;y_plane=5;z_plane=6"),
         Some (JStr "y"), Some (JStr "z"))]}
  /\ forall a, a ≠ (4, 5, 6) ->
       backgroundL2 (rpc page_background_2) !! voxelKey a = None.
Proof.
  apply (getBackgroundView_replaces server_demo (4, 5, 6) page_background).
  - vm_compute. reflexivity.
  - vm_compute. reflexivity.
Defined.

Lemma backgroundL2_single_entry_witness :
  (size (backgroundL2 (rpc page_background_2)) <= 1)%nat.
Proof.
  apply (backgroundL2_single_entry parse_demo page_background_2).
  apply (reachable_step parse_demo page_background
           (CallGetBackgroundView (4, 5, 6) server_demo)).
  - apply run_default_reachable; [apply reachable_init|]. vm_compute. reflexivity.
  - reflexivity.
Defined.

(** ** Segments from the server to the renderer *)

Lemma indexOf_from_split l x i :
  x ∈ l ->
  exists l1 l2, l = l1 ++ x :: l2 /\ (x ∉ l1)
    /\ indexOf_from l x i = i + Z.of_nat (length l1).
Proof.
  revert i. induction l as [|y l IH]; intros i Hin; [by apply elem_of_nil in Hin|].
  cbn [indexOf_from]. destruct (Z.eqb_spec y x) as [->|Hne].
  - exists [], l. split; [done|]. split; [apply not_elem_of_nil|]. cbn. lia.
  - apply elem_of_cons in Hin as [->|Hin]; [done|].
    destruct (IH (i + 1) Hin) as (l1 & l2 & -> & Hnot & ->).
    exists (y :: l1), l2. split; [done|]. split.
    + apply not_elem_of_cons. split; [congruence|done].
    + cbn [length]. lia.
Qed.

(** [queue.splice(queue.indexOf(x), 1)] takes the first [x] out. *)
Lemma splice_indexOf l x :
  x ∈ l ->
  exists l1 l2, l = l1 ++ x :: l2 /\ (x ∉ l1) /\ splice1 l (indexOf l x) = l1 ++ l2.
Proof.
  intros Hin. destruct (indexOf_from_split l x 0 Hin) as (l1 & l2 & -> & Hnot & Hi).
  exists l1, l2. split; [done|]. split; [done|].
  unfold splice1, indexOf. rewrite Hi, Z.add_0_l, Nat2Z.id.
  by rewrite delete_middle.
Qed.

(** What the function given to [parseAsync] does to a queue without
    duplicates. *)
Lemma asyncRequest_parsed_effect sect j w :
  NoDup (requestQueue (rpc w)) ->
  let w' := asyncRequest_parsed sect j w in
  bufferL2 (rpc w') = <[sect := j]> (bufferL2 (rpc w))
  /\ (sect ∉ requestQueue (rpc w'))
  /\ (forall s, s ≠ sect -> s ∈ requestQueue (rpc w') <-> s ∈ requestQueue (rpc w))
  /\ bufferSize (rpc w') = bufferSize (rpc w)
  /\ exists r', w' = with_rpc r' w.
Proof.
  intros Hnd. cbn zeta.
  destruct (asyncRequest_parsed_world sect j w) as [[Hq ->]|[Hq ->]]; cbn.
  - split; [done|]. split; [done|]. split; [done|]. split; [done|]. by eexists.
  - destruct (splice_indexOf _ _ Hq) as (l1 & l2 & Hl & Hnot & ->).
    rewrite Hl in Hnd |- *.
    apply NoDup_app in Hnd as (_ & Hdisj & Hnd2). apply NoDup_cons in Hnd2 as [Hnot2 _].
    split; [done|]. split.
    { intros [H|H]%elem_of_app; [by apply Hnot|by apply Hnot2]. }
    split; [|split; [done|by eexists]].
    intros s Hs. rewrite !elem_of_app, elem_of_cons. tauto.
Qed.

Section Answers.

Variable JSON_parse : string -> completion json.

(** X19. When the answer to a request of the current batch is parsed (at
    once on a page without workers, or by the worker that was given it),
    the parsed segment is stored under its section and the section leaves
    the request queue while the others stay; in the state this leaves, a
    truthy segment makes [TSRPC_getViewAtTime] answer every time point of
    that section from the segment, without reading from the server.  (The
    statement is about that state: a later restart of buffering or a sweep
    can take the segment out of the cache again.) *)
Theorem parsed_answer_is_cached w e sect j w' :
  reachable JSON_parse w ->
  (exists n c response,
      e = AjaxSucceeds n response /\ hasWorker w = false
      /\ pendingAjax w !! n = Some c /\ ajax_sect c = sect
      /\ ajax_privateID c = batchID (rpc w)
      /\ JSON_parse response = Normal j)
  \/ (exists n data,
        e = WorkerAnswers n /\ parsers w !! n = Some (sect, data)
        /\ JSON_parse data = Normal j) ->
  step JSON_parse w e = Some w' ->
  bufferL2 (rpc w') = <[sect := j]> (bufferL2 (rpc w))
  /\ (sect ∉ requestQueue (rpc w'))
  /\ (forall s, s ≠ sect -> s ∈ requestQueue (rpc w') <-> s ∈ requestQueue (rpc w))
  /\ (truthy (Some j) = true ->
      forall server t v, t / bufferSize (rpc w') = sect ->
        TSRPC_getViewAtTime server t v w'
        = (planes_at (Some j) (Z.rem t (bufferSize (rpc w'))), w')).
Proof.
  intros Hnd%reachable_queue_NoDup Hcase Hstep.
  assert (Hw' : exists w0, requestQueue (rpc w0) = requestQueue (rpc w)
                  /\ bufferL2 (rpc w0) = bufferL2 (rpc w)
                  /\ w' = asyncRequest_parsed sect j w0).
  { destruct Hcase as [(n & c & response & -> & Hw & Hc & <- & Hid & Hp)
                      |(n & data & -> & Hd & Hp)]; cbn [step] in Hstep.
    - rewrite Hc in Hstep. injection Hstep as <-.
      exists (with_pendingAjax (delete n (pendingAjax w)) w).
      split; [done|]. split; [done|].
      unfold asyncRequest_success, parseAsync, mbind, M_bind, get_rpc.
      change (rpc (with_pendingAjax _ w)) with (rpc w).
      rewrite Hid, Z.eqb_refl. cbn beta.
      change (hasWorker (with_pendingAjax _ w)) with (hasWorker w).
      rewrite Hw, Hp. done.
    - rewrite Hd in Hstep. injection Hstep as <-.
      exists (with_parsers (delete n (parsers w)) w).
      split; [done|]. split; [done|].
      unfold worker_message. by rewrite Hp. }
  destruct Hw' as (w0 & Hq0 & Hc0 & ->). rewrite <- Hq0 in Hnd.
  destruct (asyncRequest_parsed_effect sect j w0 Hnd) as (Hc & Hq & Hqs & _ & _).
  rewrite <- Hq0, <- Hc0. split; [done|]. split; [done|]. split; [done|].
  intros Htruthy server t v Ht.
  unfold TSRPC_getViewAtTime, mbind, M_bind, get_rpc, lift.
  rewrite Ht, Hc, lookup_insert_eq, Htruthy. done.
Qed.

(** X20. An answer that does not parse is dropped without a trace: the
    module state is as before, so the section stays in the request queue,
    and no message is shown. *)
Theorem unparsable_answer_is_dropped w e err w' :
  (exists n c response,
      e = AjaxSucceeds n response /\ hasWorker w = false
      /\ pendingAjax w !! n = Some c
      /\ JSON_parse response = Throw err)
  \/ (exists n sect data,
        e = WorkerAnswers n /\ parsers w !! n = Some (sect, data)
        /\ JSON_parse data = Throw err) ->
  step JSON_parse w e = Some w' ->
  rpc w' = rpc w /\ messages w' = messages w.
Proof.
  intros [(n & c & response & -> & Hw & Hc & Hp)
         |(n & sect & data & -> & Hd & Hp)] Hstep; cbn [step] in Hstep.
  - rewrite Hc in Hstep. injection Hstep as <-.
    unfold asyncRequest_success, parseAsync, mbind, M_bind, get_rpc.
    destruct (_ =? _); [|done]. cbn beta.
    change (hasWorker (with_pendingAjax _ w)) with (hasWorker w).
    rewrite Hw, Hp. done.
  - rewrite Hd in Hstep. injection Hstep as <-.
    unfold worker_message. by rewrite Hp.
Qed.

End Answers.

Lemma page_parsing_reachable : reachable parse_demo page_parsing.
Proof.
  apply run_default_reachable; [apply page_one_request_reachable|].
  vm_compute. reflexivity.
Qed.

Lemma parsed_answer_is_cached_witness :
  bufferL2 (rpc page_parsed) = <[0 := json_demo]> (bufferL2 (rpc page_parsing))
  /\ (0 ∉ requestQueue (rpc page_parsed))
  /\ (forall s, s ≠ 0 ->
        s ∈ requestQueue (rpc page_parsed) <-> s ∈ requestQueue (rpc page_parsing))
  /\ (truthy (Some json_demo) = true ->
      forall server t v, t / bufferSize (rpc page_parsed) = 0 ->
        TSRPC_getViewAtTime server t v page_parsed
        = (planes_at (Some json_demo) (Z.rem t (bufferSize (rpc page_parsed))),
           page_parsed)).
Proof.
  apply (parsed_answer_is_cached parse_demo page_parsing (WorkerAnswers 0) 0 json_demo
           page_parsed).
  - apply page_parsing_reachable.
  - right. exists 0%nat, "data". split; [done|]. split; vm_compute; reflexivity.
  - vm_compute. reflexivity.
Defined.

Lemma unparsable_answer_is_dropped_witness :
  rpc page_parsed_empty = rpc page_parsing_empty
  /\ messages page_parsed_empty = messages page_parsing_empty.
Proof.
  apply (unparsable_answer_is_dropped parse_demo page_parsing_empty (WorkerAnswers 0)
           "SyntaxError" page_parsed_empty).
  - right. exists 0%nat, 0, "". split; [done|]. split; vm_compute; reflexivity.
  - vm_compute. reflexivity.
Defined.

(** ** What a tick asks the server for *)



(** X28. The scan of the scheduler starts at [Math.ceil] of the playback
    position in sections, [TSRPC_getViewAtTime] reads the section at
    [Math.floor]: while the playback is inside a section (not at its first
    time point) that is not the last one, no tick requests that section. *)
Theorem tick_skips_playing_section pt w w' c :
  0 < bufferSize (rpc w) ->
  currentTimePoint pt mod bufferSize (rpc w) ≠ 0 ->
  currentTimePoint pt / bufferSize (rpc w) < timeLength (rpc w) / bufferSize (rpc w) ->
  streamToBuffer pt w = Some w' ->
  c ∈ issued w w' ->
  currentTimePoint pt / bufferSize (rpc w) < ajax_sect c.
Proof.
  intros Hbs Hmod Hlast Htick Hin.
  apply streamToBuffer_cases in Htick.
  destruct Htick as [[-> _]|(_ & j & (Hj0 & _ & _) & Hw & _ & ->)].
  { rewrite issued_same in Hin. by apply elem_of_nil in Hin. }
  apply wanted_spec in Hw as [_ Hq].
  rewrite issued_asyncRequest in Hin by done.
  apply list_elem_of_singleton in Hin as ->. cbn [ajax_sect].
  unfold candidate, ceil_div. rewrite Z.div_opp_l_nz by lia. lia.
Qed.

Lemma tick_skips_playing_section_witness :
  currentTimePoint (mkPoint 7 (1, 2, 3)) / bufferSize (rpc page_scenario)
  < ajax_sect (mkAjax "/vol/?from_idx=10;to_idx=15;x_plane=1;y_plane=2;z_plane=3" 2 0).
Proof.
  apply (tick_skips_playing_section (mkPoint 7 (1, 2, 3)) page_scenario
           (asyncRequest "/vol/?from_idx=10;to_idx=15;x_plane=1;y_plane=2;z_plane=3" 2
              page_scenario)).
  - vm_compute. reflexivity.
  - vm_compute. discriminate.
  - vm_compute. reflexivity.
  - vm_compute. reflexivity.
  - vm_compute. apply list_elem_of_singleton. reflexivity.
Defined.

(** ** The window of the sweeper *)

Lemma Qtrunc_small x (T : Z) :
  0 < T -> (- inject_Z T < x)%Q -> (x < inject_Z T)%Q ->
  Qtrunc (x / inject_Z T) = 0.
Proof.
  intros HT Hlo Hhi. destruct T as [|p|p]; [lia| |lia].
  destruct x as [n d]. unfold Qlt in Hlo, Hhi. cbn in Hlo, Hhi.
  unfold Qtrunc, Qdiv, Qmult, Qinv. cbn.
  apply Z.quot_small_iff; [lia|]. rewrite Pos2Z.inj_mul. lia.
Qed.

Lemma Qle_bool_ext a a' b b' :
  (a == a')%Q -> (b == b')%Q -> Qle_bool a b = Qle_bool a' b'.
Proof.
  intros Ha Hb. apply eq_true_iff_eq. rewrite !Qle_bool_iff, Ha, Hb. done.
Qed.

(** X22. When the window of the sweeper does not wrap around the end of the
    series (both [section - bufferL2Size/2] and [section + bufferL2Size/2]
    are strictly between [-timeLength] and [timeLength]), a sweep that runs
    keeps exactly the cached sections from [section - bufferL2Size/2] to
    [section + bufferL2Size/2], with their segments, and deletes all
    others. *)
Theorem freeBuffer_exact_window pt w idx :
  let r := rpc w in
  let section := currentTimePoint pt / bufferSize r in
  let h := (bufferL2Size r / 2)%Q in
  0 < timeLength r ->
  (- inject_Z (timeLength r) < inject_Z section - h)%Q ->
  (inject_Z section - h < inject_Z (timeLength r))%Q ->
  (- inject_Z (timeLength r) < inject_Z section + h)%Q ->
  (inject_Z section + h < inject_Z (timeLength r))%Q ->
  (bufferL2Size r < cached r)%Q ->
  bufferL2 (rpc (freeBuffer pt w)) !! idx
  = if Qle_bool (inject_Z section - h) (inject_Z idx)
       && Qle_bool (inject_Z idx) (inject_Z section + h)
    then bufferL2 r !! idx else None.
Proof.
  intros r section h HT Hlo1 Hlo2 Hhi1 Hhi2 Hover. subst r.
  rewrite freeBuffer_lookup by done. fold section.
  unfold outside_window. fold h. rewrite !rem_Some by lia.
  rewrite !Qtrunc_small by done. cbn [lt_nan gt_nan].
  rewrite (Qle_bool_ext _ (inject_Z section - h) (inject_Z idx) (inject_Z idx))
    by (try reflexivity; change (inject_Z 0) with 0%Q; ring).
  rewrite (Qle_bool_ext (inject_Z idx) (inject_Z idx) _ (inject_Z section + h))
    by (try reflexivity; change (inject_Z 0) with 0%Q; ring).
  by destruct (Qle_bool _ _), (Qle_bool _ _).
Qed.

Lemma freeBuffer_exact_window_witness :
  bufferL2 (rpc (freeBuffer pt_50 page_six_sections)) !! 7 = None
  /\ bufferL2 (rpc page_six_sections) !! 7 = Some segment_demo.
Proof.
  split; [|vm_compute; reflexivity].
  apply (freeBuffer_exact_window pt_50 page_six_sections 7).
  - reflexivity.
  - vm_compute. reflexivity.
  - vm_compute. reflexivity.
  - vm_compute. reflexivity.
  - vm_compute. reflexivity.
  - vm_compute. reflexivity.
Defined.

(** ** Pages that do not stream *)

Section Modes.

Variable JSON_parse : string -> completion json.

Lemma step_keeps_no_region w e w' :
  (forall vol bg region es, e ≠ CallInitNonStreaming vol bg region es) ->
  step JSON_parse w e = Some w' ->
  urlVoxelRegion (rpc w) = None -> urlVoxelRegion (rpc w') = None.
Proof.
  intros Hinit.
  destruct e as [vol bg region es|vol bg es|t v server|v server| | |id pt|n response|n|n];
    cbn [step].
  - by destruct (Hinit vol bg region es).
  - by intros (bs & l2 & tl & ->)%initStreaming_world.
  - intros [= <-].
    by destruct (getViewAtTime_world server t v w) as [->|[url ->]].
  - intros [= <-].
    by destruct (getBackgroundView_world server v w)
      as [->|[[url ->]|(url & ret & ->)]].
  - intros [= <-]. unfold TSRPC_startBuffering. by destruct (_ && _).
  - intros [= <-]. unfold TSRPC_stopBuffering.
    by destruct (streamToBufferID (rpc w)).
  - destruct (list_find _ _) as [[i [id' [|]]]|]; [| |done].
    + by intros [->|(f & s & _ & ->)]%streamToBuffer_world.
    + intros [= <-]. by destruct (freeBuffer_world pt w) as (m & _ & ->).
  - destruct (pendingAjax w !! n) as [c|]; [|done]. intros [= <-].
    destruct (asyncRequest_success_world JSON_parse c response
                (with_pendingAjax (delete n (pendingAjax w)) w))
      as [->|[(_ & _ & ->)|(j & _ & _ & _ & ->)]]; [done|done|].
    by destruct (asyncRequest_parsed_world (ajax_sect c) j
                   (with_pendingAjax (delete n (pendingAjax w)) w))
      as [[_ ->]|[_ ->]].
  - destruct (pendingAjax w !! n) as [c|]; [|done]. by intros [= <-].
  - destruct (parsers w !! n) as [[sect data]|]; [|done]. intros [= <-].
    destruct (worker_message_world JSON_parse sect data
                (with_parsers (delete n (parsers w)) w))
      as [->|(j & _ & ->)]; [done|].
    by destruct (asyncRequest_parsed_world sect j
                   (with_parsers (delete n (parsers w)) w))
      as [[_ ->]|[_ ->]].
Qed.

(** X23. [TSRPC_initStreaming] sets the url of the region lookup to [null],
    and nothing but [TSRPC_initNonStreaming] sets it again: on a page
    initialised for streaming, [TSRPC_getVoxelRegion] asks for the url
    ["null"] followed by the voxel's fragment, whatever was or is done
    otherwise. *)
Theorem voxelRegion_url_lost_by_streaming_init w vol bg es evs w' v :
  Forall (fun e => forall vol bg region es,
            e ≠ CallInitNonStreaming vol bg region es) evs ->
  run JSON_parse w (CallInitStreaming vol bg es :: evs) = Some w' ->
  TSRPC_getVoxelRegion v (rpc w') = "null" +:+ voxelToUrlFragment v.
Proof.
  intros Hevs. cbn [run step].
  destruct (TSRPC_initStreaming vol bg es w) as [w1|] eqn:Hinit; [|done].
  assert (Hnone : urlVoxelRegion (rpc w1) = None).
  { by apply initStreaming_world in Hinit as (bs & l2 & tl & ->). }
  clear Hinit. revert w1 Hnone.
  induction Hevs as [|e evs He _ IH]; intros w1 Hnone; cbn [run].
  - intros [= <-]. unfold TSRPC_getVoxelRegion. by rewrite Hnone.
  - destruct (step JSON_parse w1 e) as [w2|] eqn:Hstep; [|done].
    apply IH. by eapply step_keeps_no_region.
Qed.

(** X24. On a page that was never initialised for streaming,
    [TSRPC_startBuffering] is without effect: no scheduler timer runs, no
    asynchronous request is made and nothing is cached, so that every
    [TSRPC_getViewAtTime] is answered by a synchronous read. *)
Theorem nonstreaming_page_never_buffers worker evs w :
  Forall (fun e => forall vol bg es, e ≠ CallInitStreaming vol bg es) evs ->
  run JSON_parse (world0 worker) evs = Some w ->
  streamToBufferID (rpc w) = None /\ batchID (rpc w) = 0
  /\ pendingAjax w = [] /\ parsers w = []
  /\ requestQueue (rpc w) = [] /\ bufferL2 (rpc w) = ∅
  /\ forall server t v,
       TSRPC_getViewAtTime server t v w
       = _getViewAtTimeNoCache server t v (urlVolumeData (rpc w)) w.
Proof.
  intros Hevs Hrun.
  assert (Hreach : reachable JSON_parse w).
  { eapply run_reachable; [apply reachable_init|done]. }
  assert (Hinv : bufferSize (rpc w) = 1 /\ batchID (rpc w) = 0).
  { assert (H0 : bufferSize (rpc (world0 worker)) = 1
                 /\ batchID (rpc (world0 worker)) = 0) by done.
    revert H0 Hrun. generalize (world0 worker). clear Hreach.
    induction Hevs as [|e evs He _ IH]; intros w0 [Hbs Hb]; cbn [run].
    - by intros [= <-].
    - destruct (step JSON_parse w0 e) as [w1|] eqn:Hstep; [|done].
      apply IH.
      destruct (step_keeps_sizes _ _ _ _ He Hstep) as [Hbs1 _].
      split; [lia|].
      destruct (step_batchID _ _ _ _ Hstep) as [H|(-> & H & _)]; [lia|].
      cbn [step] in Hstep. rewrite startBuffering_noop in Hstep by (right; lia).
      injection Hstep as <-. lia. }
  destruct Hinv as [Hbs Hb].
  destruct (reachable_idle _ _ Hreach) as [_ H].
  destruct (H Hb) as (Hid & Hp & Hpa & Hq & Hc).
  do 6 (split; [done|]).
  intros server t v. unfold TSRPC_getViewAtTime, mbind, M_bind, get_rpc.
  by rewrite Hc, lookup_empty.
Qed.

End Modes.

Lemma voxelRegion_url_lost_by_streaming_init_witness :
  TSRPC_getVoxelRegion (1, 2, 3) (rpc page_one_request)
  = "null" +:+ voxelToUrlFragment (1, 2, 3).
Proof.
  apply (voxelRegion_url_lost_by_streaming_init parse_demo (world0 true)
           "/vol/?" "/bg/?" (91, 109, 91, 100)
           [CallStartBuffering; TimerFires 2 pt_demo]).
  - repeat constructor; discriminate.
  - vm_compute. reflexivity.
Defined.

Lemma nonstreaming_page_never_buffers_witness :
  let w := page_nonstreaming in
  streamToBufferID (rpc w) = None /\ batchID (rpc w) = 0
  /\ pendingAjax w = [] /\ parsers w = []
  /\ requestQueue (rpc w) = [] /\ bufferL2 (rpc w) = ∅
  /\ forall server t v,
       TSRPC_getViewAtTime server t v w
       = _getViewAtTimeNoCache server t v (urlVolumeData (rpc w)) w.
Proof.
  apply (nonstreaming_page_never_buffers parse_demo true
           [CallInitNonStreaming "/vol/?" "/bg/?" "/region/?" (91, 109, 91, 100);
            CallStartBuffering;
            CallGetViewAtTime 7 (1, 2, 3) server_demo]).
  - repeat constructor; discriminate.
  - vm_compute. reflexivity.
Defined.

(** * The chord viewer *)

Import Chord.

(** ** The connections of a region *)


Lemma array_set_push {A} (a : list (option A)) (x : option A) :
  Chord.array_set a (length a) x = a ++ [x].
Proof.
  unfold Chord.array_set. destruct (decide _) as [H|H]; [lia|].
  by rewrite Nat.sub_diag.
Qed.

Lemma init_data_inner_spec d l i js n imp :
  let new := (fun j => Chord.region_labels d !! j) <$> Chord.connected_among d l i js in
  foldl (Chord.init_data_inner d l i) (Chord.mkLine n imp, length imp) js
  = (Chord.mkLine (match js with [] => n | _ => Chord.region_labels d !! i end)
       (imp ++ new),
     length (imp ++ new)).
Proof.
  cbn zeta. revert n imp. induction js as [|j js IH]; intros n imp; cbn [foldl].
  - cbn. by rewrite app_nil_r.
  - cbn [Chord.init_data_inner Chord.imports Chord.name].
    assert (Hsel : (if Chord.toggleParameters d then Chord.weights d !! (i * l + j)%nat
                    else Chord.tract_lengths d !! (i * l + j)%nat)
                   = Chord.selected d !! (i * l + j)%nat).
    { unfold Chord.selected. by destruct (Chord.toggleParameters d). }
    rewrite Hsel. unfold Chord.connected_among. rewrite filter_cons.
    fold (Chord.connected_among d l i js).
    destruct (Chord.strict_ne_zero _) eqn:E.
    + rewrite decide_True by done. rewrite array_set_push.
      replace (S (length imp)) with (length (imp ++ [Chord.region_labels d !! j]))
        by (rewrite length_app; cbn; lia).
      rewrite IH. rewrite fmap_cons, <- !app_assoc. cbn [app].
      by destruct js.
    + rewrite decide_False by congruence.
      rewrite IH. by destruct js.
Qed.

Lemma init_data_outer_spec d l n :
  foldl (Chord.init_data_outer d l) [] (seq 0 n)
  = (fun i => Some (Chord.mkLine
                      (match l with O => None | _ => Chord.region_labels d !! i end)
                      ((fun j => Chord.region_labels d !! j) <$> Chord.connected d l i)))
      <$> seq 0 n.
Proof.
  induction n as [|n IH]; [done|].
  rewrite seq_S, foldl_app, fmap_app, IH. cbn [foldl fmap list_fmap Nat.add].
  unfold Chord.init_data_outer.
  pose proof (init_data_inner_spec d l n (seq 0 l) None []) as H.
  cbn zeta in H. cbn [length app] in H. rewrite H. clear H.
  set (a := _ <$> seq 0 n).
  assert (Hlen : length a = n) by (subst a; by rewrite length_fmap, length_seq).
  rewrite <- Hlen at 1. rewrite array_set_push. unfold Chord.connected.
  by destruct l.
Qed.

(** X25. The loops of [init_data] give one [json_line] for each of the [l]
    regions: line [i] has the label of region [i] for its name, and its
    imports are the labels of the regions [j], in rising order of [j],
    whose entry [i * l + j] in the selected matrix ([weights] or
    [tract_lengths], by [toggleParameters]) is not the number 0; an entry
    that the matrix lacks counts as a connection. *)
Theorem jsonified_region_labels_spec d l i :
  (i < l)%nat ->
  length (Chord.jsonified_region_labels d l) = l
  /\ Chord.jsonified_region_labels d l !! i
     = Some (Some (Chord.mkLine (Chord.region_labels d !! i)
                     ((fun j => Chord.region_labels d !! j) <$> Chord.connected d l i))).
Proof.
  intros Hi. unfold Chord.jsonified_region_labels. rewrite init_data_outer_spec.
  split; [by rewrite length_fmap, length_seq|].
  rewrite list_lookup_fmap, lookup_seq_lt by done. cbn.
  destruct l; [lia|done].
Qed.


(** ** The hierarchy of the regions *)

Lemma lastIndexOf_from_absent s c i f :
  absent c s = true -> lastIndexOf_from s c i f = f.
Proof.
  revert i f. induction s as [|a s IH]; intros i f; [done|].
  cbn [absent lastIndexOf_from]. intros [Ha Hs]%andb_true_iff.
  apply negb_true_iff in Ha. rewrite Ha. by apply IH.
Qed.

Lemma String_substring_0_0 s : String.substring 0 0 s = "".
Proof. by destruct s. Qed.

Lemma String_substring_all s : String.substring 0 (String.length s) s = s.
Proof. induction s as [|a s IH]; [done|]. cbn. by rewrite IH. Qed.

Lemma substring_before_none s : Chord.substring s 0 (-1) = "".
Proof.
  unfold Chord.substring.
  replace (Z.max 0 (Z.min 0 _)) with 0 by lia.
  replace (Z.max 0 (Z.min (-1) _)) with 0 by lia.
  apply String_substring_0_0.
Qed.

Lemma substring_from_0 s : substring_from s 0 = s.
Proof.
  unfold substring_from, Chord.substring.
  replace (Z.max 0 (Z.min 0 _)) with 0 by lia.
  rewrite Z.min_id. rewrite Z.max_r by lia. rewrite Z.min_l, Z.max_r by lia.
  rewrite Z.sub_0_r, Nat2Z.id. apply String_substring_all.
Qed.

Lemma find_S fuel name data map :
  find (S fuel) name data map
  = match map !! property name with
    | Some _ => Some (Normal map)
    | None =>
        if bool_decide (property name ∈ Object_prototype) then Some (Normal map)
        else
          let node := default (mkNode name None (Some []) None None) data in
          let map := <[property name := node]> map in
          match name with
          | None => Some (Throw "TypeError")
          | Some s =>
              if (String.length s =? 0)%nat then Some (Normal map)
              else
                let i := lastIndexOf s "." in
                let pname := Chord.substring s 0 i in
                match find fuel (Some pname) None map with
                | None => None
                | Some (Throw e) => Some (Throw e)
                | Some (Normal map) =>
                    match map !! pname with
                    | None => Some (Throw "TypeError")
                    | Some p =>
                        match children p with
                        | None => Some (Throw "TypeError")
                        | Some cs =>
                            let map :=
                              <[pname := mkNode (node_name p) (node_imports p)
                                           (Some (cs ++ [s])) (parent p) (key p)]> map in
                            Some (Normal
                              (alter (fun n => mkNode (node_name n) (node_imports n)
                                                 (children n) (Some pname)
                                                 (Some (substring_from s (i + 1))))
                                 s map))
                        end
                    end
                end
          end
    end.
Proof. reflexivity. Qed.

Lemma empty_not_inherited : "" ∉ Object_prototype.
Proof. apply (bool_decide_unpack _). vm_compute. exact I. Qed.

Lemma find_flat n imp m cs :
  flat n -> m !! n = None ->
  m !! "" = Some (root_node cs) \/ (m !! "" = None /\ cs = []) ->
  find (S (String.length n)) (Some n) (Some (of_line (mkLine (Some n) imp))) m
  = Some (Normal (<[n := leaf_node n imp]> (<["" := root_node (cs ++ [n])]> m))).
Proof.
  intros (Hne & Hdot & Hproto) Hn Hroot.
  assert (Hlen : exists k, String.length n = S k).
  { destruct n; [done|]. by eexists. }
  destruct Hlen as [k Hlen]. rewrite find_S. change (property (Some n)) with n.
  rewrite Hn, bool_decide_false by done. cbn zeta. rewrite Hlen at 1.
  cbn [Nat.eqb]. unfold lastIndexOf.
  rewrite lastIndexOf_from_absent by done. rewrite substring_before_none.
  change (-1 + 1) with 0. rewrite substring_from_0.
  cbn [default from_option id].
  set (m1 := <[n := of_line (mkLine (Some n) imp)]> m).
  assert (Hm1 : m1 !! "" = m !! "") by (subst m1; by rewrite lookup_insert_ne).
  assert (Hfind : exists m2, find (String.length n) (Some "") None m1 = Some (Normal m2)
                    /\ m2 !! "" = Some (root_node cs)
                    /\ <["" := root_node (cs ++ [n])]> m2
                       = <["" := root_node (cs ++ [n])]> m1).
  { rewrite Hlen, find_S. change (property (Some "")) with "". rewrite Hm1.
    destruct Hroot as [Hr|[Hr ->]]; rewrite Hr.
    - exists m1. by rewrite Hm1, Hr.
    - rewrite bool_decide_false by apply empty_not_inherited.
      cbn. eexists. split; [done|]. split; [by rewrite lookup_insert_eq|].
      by rewrite insert_insert_eq. }
  destruct Hfind as (m2 & -> & Hr2 & Hm2). rewrite Hr2. cbn [children root_node].
  change (mkNode (node_name (root_node cs)) _ _ _ _) with (root_node (cs ++ [n])).
  rewrite Hm2. subst m1. f_equal. f_equal.
  apply map_eq. intros j.
  destruct (decide (j = n)) as [->|Hj].
  - rewrite lookup_alter_eq, lookup_insert_eq.
    rewrite lookup_insert_ne by done. rewrite lookup_insert_eq. done.
  - rewrite lookup_alter_ne by done. rewrite (lookup_insert_ne _ n j) by done.
    destruct (decide (j = "")) as [->|Hj0].
    + by rewrite !lookup_insert_eq.
    + rewrite !lookup_insert_ne by done. done.
Qed.

Lemma forEach_find_flat nis m cs :
  NoDup nis.*1 -> Forall flat nis.*1 ->
  m !! "" = Some (root_node cs) \/ (m !! "" = None /\ cs = []) ->
  (forall n, n ∈ nis.*1 -> m !! n = None) ->
  exists m',
    forEach_find (classes_of nis) m = Some (Normal m')
    /\ (nis ≠ [] -> m' !! "" = Some (root_node (cs ++ nis.*1)))
    /\ (forall n imp, (n, imp) ∈ nis -> m' !! n = Some (leaf_node n imp))
    /\ (forall k, k ≠ "" -> k ∉ nis.*1 -> m' !! k = m !! k).
Proof.
  revert m cs. induction nis as [|[n imp] nis IH]; intros m cs Hnd Hflat Hroot Hnew.
  - exists m. split; [done|]. split; [done|]. split; [|done].
    intros n imp Hin. by apply elem_of_nil in Hin.
  - cbn [fmap list_fmap fst] in Hnd, Hflat, Hnew.
    apply NoDup_cons in Hnd as [Hn Hnd]. apply Forall_cons in Hflat as [Hfn Hflat].
    cbn [classes_of fmap list_fmap forEach_find fst snd name].
    change (property (Some n)) with n.
    rewrite (find_flat n imp m cs Hfn) by (try done; apply Hnew; left).
    set (m1 := <[n := leaf_node n imp]> (<["" := root_node (cs ++ [n])]> m)).
    assert (Hn0 : n ≠ "") by (by destruct Hfn).
    destruct (IH m1 (cs ++ [n]) Hnd Hflat) as (m' & Hrun & Hr & Hleaf & Hframe).
    { left. subst m1. rewrite lookup_insert_ne by done. by rewrite lookup_insert_eq. }
    { intros n' Hin. subst m1.
      assert (n' ≠ n) by (intros ->; done).
      assert (n' ≠ "").
      { rewrite Forall_forall in Hflat. by destruct (Hflat n' Hin). }
      rewrite !lookup_insert_ne by done. apply Hnew. by right. }
    exists m'. split; [exact Hrun|]. split; [|split].
    + intros _. destruct nis as [|ni nis'].
      * cbn in Hrun. injection Hrun as <-. subst m1.
        rewrite lookup_insert_ne by done. by rewrite lookup_insert_eq.
      * rewrite Hr by done. by rewrite <- app_assoc.
    + intros n' imp' [[= -> ->]|Hin]%elem_of_cons.
      * rewrite Hframe by done. subst m1. by rewrite lookup_insert_eq.
      * by apply Hleaf.
    + intros k Hk0 Hk. apply not_elem_of_cons in Hk as [Hkn Hk].
      rewrite Hframe by done. subst m1. by rewrite !lookup_insert_ne.
Qed.

Lemma jsonified_classes d :
  let labels := region_labels d in
  let l := length labels in
  jsonified_region_labels d l
  = classes_of (imap (fun i n => (n, (fun j => labels !! j) <$> connected d l i)) labels).
Proof.
  cbn zeta. unfold jsonified_region_labels. rewrite init_data_outer_spec.
  apply list_eq. intros i. unfold classes_of.
  rewrite !list_lookup_fmap, list_lookup_imap.
  destruct (decide (i < length (region_labels d))%nat) as [Hi|Hi].
  - rewrite lookup_seq_lt by done.
    destruct (lookup_lt_is_Some_2 _ _ Hi) as [n Hn]. rewrite Hn. cbn.
    destruct (length (region_labels d)); [lia|]. by rewrite Hn.
  - rewrite lookup_seq_ge by lia.
    by rewrite (lookup_ge_None_2 (region_labels d)) by lia.
Qed.

Lemma imap_fst_labels {A} (f : nat -> string -> A) (labels : list string) :
  (imap (fun i n => (n, f i n)) labels).*1 = labels.
Proof.
  revert f. induction labels as [|n labels IH]; intros f; [done|].
  cbn. f_equal. apply IH.
Qed.

(** X26. For region labels that are distinct, not empty, without a dot and
    not names of properties of [Object.prototype], [init_chord] builds a
    hierarchy without packages: the root [""] has the regions for its
    children, in the order of the labels, and each region is a leaf below
    the root whose key is its label and whose imports are those of its
    [json_line]; no other node is made. *)
Theorem init_chord_hierarchy d :
  let labels := region_labels d in
  let l := length labels in
  labels ≠ [] -> NoDup labels -> Forall flat labels ->
  exists map,
    init_chord d = Some (Normal map)
    /\ map !! "" = Some (root_node labels)
    /\ (forall i n, labels !! i = Some n ->
          map !! n = Some (leaf_node n ((fun j => labels !! j) <$> connected d l i)))
    /\ (forall k, is_Some (map !! k) -> k = "" \/ k ∈ labels).
Proof.
  intros labels l Hne Hnd Hflat. subst labels l.
  unfold init_chord, init_data. rewrite jsonified_classes.
  set (nis := imap _ (region_labels d)).
  assert (Hnames : nis.*1 = region_labels d) by apply imap_fst_labels.
  destruct (forEach_find_flat nis ∅ []) as (m' & Hrun & Hr & Hleaf & Hframe).
  { by rewrite Hnames. }
  { by rewrite Hnames. }
  { right. by rewrite lookup_empty. }
  { intros n _. by rewrite lookup_empty. }
  exists m'. split; [exact Hrun|]. split; [|split].
  - rewrite Hr; [by rewrite Hnames|]. intros E. by rewrite E in Hnames.
  - intros i n Hi. apply Hleaf. subst nis.
    apply list_elem_of_lookup. exists i. by rewrite list_lookup_imap, Hi.
  - intros k Hk. destruct (decide (k = "")) as [->|Hk0]; [by left|]. right.
    destruct (decide (k ∈ region_labels d)) as [Hin|Hnot]; [done|].
    rewrite Hframe in Hk by (by rewrite ?Hnames).
    rewrite lookup_empty in Hk. by destruct Hk.
Qed.

Lemma append_String a s t : String a s +:+ t = String a (s +:+ t).
Proof. reflexivity. Qed.

Lemma length_append_string s t :
  String.length (s +:+ t) = (String.length s + String.length t)%nat.
Proof.
  induction s as [|a s IH]; [done|].
  rewrite append_String. cbn [String.length]. by rewrite IH.
Qed.

Lemma lastIndexOf_from_app s t c i f :
  lastIndexOf_from (s +:+ t) c i f
  = lastIndexOf_from t c (i + Z.of_nat (String.length s)) (lastIndexOf_from s c i f).
Proof.
  revert i f. induction s as [|a s IH]; intros i f.
  - change ("" +:+ t) with t. cbn. by rewrite Z.add_0_r.
  - rewrite append_String. cbn [lastIndexOf_from String.length]. rewrite IH.
    f_equal. lia.
Qed.

Lemma lastIndexOf_nested n k :
  absent "." k = true ->
  lastIndexOf (n +:+ "." +:+ k) "." = Z.of_nat (String.length n).
Proof.
  intros Hk. unfold lastIndexOf. rewrite lastIndexOf_from_app.
  change ("." +:+ k) with (String "." k). cbn [lastIndexOf_from Ascii.eqb].
  change (Ascii.eqb "." ".") with true. cbn match.
  by rewrite lastIndexOf_from_absent.
Qed.

Lemma String_substring_prefix s t :
  String.substring 0 (String.length s) (s +:+ t) = s.
Proof.
  induction s as [|a s IH].
  - change ("" +:+ t) with t. apply String_substring_0_0.
  - rewrite append_String. cbn. by rewrite IH.
Qed.

Lemma substring_prefix s t :
  Chord.substring (s +:+ t) 0 (Z.of_nat (String.length s)) = s.
Proof.
  unfold Chord.substring. rewrite length_append_string.
  replace (Z.max 0 (Z.min 0 _)) with 0 by lia.
  rewrite (Z.min_l (Z.of_nat (String.length s))) by lia.
  rewrite (Z.max_r 0 (Z.of_nat _)) by lia.
  rewrite Z.min_l, Z.max_r by lia. rewrite Z.sub_0_r, Nat2Z.id.
  apply String_substring_prefix.
Qed.

Lemma absent_nested n k : absent "." (n +:+ "." +:+ k) = false.
Proof.
  induction n as [|a n IH]; [done|].
  rewrite append_String. cbn [absent]. rewrite IH. apply andb_false_r.
Qed.

Lemma inherited_no_dot s : s ∈ Object_prototype -> absent "." s = true.
Proof.
  revert s. apply Forall_forall. unfold Object_prototype.
  repeat constructor.
Qed.

Lemma forEach_find_app a b m :
  forEach_find (a ++ b) m
  = match forEach_find a m with
    | Some (Normal m') => forEach_find b m'
    | r => r
    end.
Proof.
  revert m. induction a as [|[d|] a IH]; intros m; cbn [app forEach_find]; [done| |done].
  destruct (find _ _ _ _) as [[m'|e]|]; done.
Qed.

(** A label [n.k] after the label [n]: [find] makes [n.k] a child of the
    [json_line] of [n], which has no [children]. *)
Lemma find_nested n k imp imp' m :
  absent "." k = true ->
  m !! n = Some (leaf_node n imp) ->
  m !! (n +:+ "." +:+ k) = None ->
  find (S (String.length (n +:+ "." +:+ k))) (Some (n +:+ "." +:+ k))
    (Some (of_line (mkLine (Some (n +:+ "." +:+ k)) imp'))) m
  = Some (Throw "TypeError").
Proof.
  intros Hk Hn Hs. set (s := n +:+ "." +:+ k) in *.
  assert (Hsn : s ≠ n).
  { intros E. apply (f_equal String.length) in E. subst s.
    rewrite length_append_string in E. change ("." +:+ k) with (String "." k) in E.
    cbn in E. lia. }
  assert (Hlen : exists j, String.length s = S j).
  { subst s. rewrite length_append_string. change ("." +:+ k) with (String "." k).
    cbn. exists (String.length n + String.length k)%nat. lia. }
  destruct Hlen as [j Hlen].
  rewrite find_S. change (property (Some s)) with s. rewrite Hs.
  rewrite bool_decide_false.
  2:{ intros Hin%inherited_no_dot. subst s. by rewrite absent_nested in Hin. }
  cbn zeta. rewrite Hlen at 1. cbn [Nat.eqb].
  subst s. rewrite lastIndexOf_nested by done. rewrite substring_prefix.
  rewrite Hlen, find_S. change (property (Some n)) with n.
  rewrite lookup_insert_ne by done. rewrite Hn.
  rewrite lookup_insert_ne by done. rewrite Hn. done.
Qed.

(** X27. When a label is [n.k], with [k] without a dot, for a label [n]
    that comes before it among distinct labels without dots, [init_chord]
    throws a [TypeError]: [find] takes the [json_line] of [n], which has no
    [children], for the parent of [n.k]. *)
Theorem init_chord_throws_on_nested_label d before n k after :
  region_labels d = before ++ [n +:+ "." +:+ k] ++ after ->
  n ∈ before -> NoDup before -> Forall flat before -> absent "." k = true ->
  init_chord d = Some (Throw "TypeError").
Proof.
  intros Hlabels Hn Hnd Hflat Hk. unfold init_chord, init_data.
  assert (Hcl : exists f : nat -> list (option string),
            jsonified_region_labels d (length (region_labels d))
            = classes_of (imap (fun i n => (n, f i)) (region_labels d))).
  { eexists (fun i => _). apply jsonified_classes. }
  destruct Hcl as [f ->]. rewrite Hlabels. rewrite !imap_app. unfold classes_of. rewrite !fmap_app.
  unfold packageHierarchy. rewrite forEach_find_app.
  set (nis := imap _ before). fold (classes_of nis).
  assert (Hnames : nis.*1 = before) by apply imap_fst_labels.
  destruct (forEach_find_flat nis ∅ []) as (m' & -> & _ & Hleaf & Hframe).
  { by rewrite Hnames. }
  { by rewrite Hnames. }
  { right. by rewrite lookup_empty. }
  { intros n' _. by rewrite lookup_empty. }
  assert (Hin : exists imp, (n, imp) ∈ nis).
  { apply list_elem_of_lookup in Hn as [i Hi]. eexists.
    apply list_elem_of_lookup. exists i. subst nis.
    by rewrite list_lookup_imap, Hi. }
  destruct Hin as [imp Hin]. apply Hleaf in Hin.
  rewrite forEach_find_app. cbn [imap fmap list_fmap forEach_find fst snd name].
  change (property (Some ?s)) with s.
  rewrite (find_nested n k imp); [done|done|done|].
  rewrite Hframe; [apply lookup_empty| |].
  - intros E. apply (f_equal String.length) in E.
    rewrite length_append_string in E. change ("." +:+ k) with (String "." k) in E.
    cbn in E. lia.
  - rewrite Hnames. intros Hs. rewrite Forall_forall in Hflat.
    destruct (Hflat _ Hs) as (_ & Hdot & _). by rewrite absent_nested in Hdot.
Qed.

(** The fuel [forEach_find] gives to [find] is enough. *)
Lemma String_substring_length n m s :
  (String.length (String.substring n m s) <= m)%nat.
Proof.
  revert n m. induction s as [|a s IH]; intros [|n] [|m]; cbn; try lia.
  - specialize (IH 0%nat m). lia.
  - apply (IH n 0%nat).
  - apply (IH n (S m)).
Qed.

Lemma lastIndexOf_from_bound s c i f :
  f < i -> lastIndexOf_from s c i f < i + Z.of_nat (String.length s).
Proof.
  revert i f. induction s as [|a s IH]; intros i f Hf; cbn [lastIndexOf_from String.length].
  - lia.
  - destruct (Ascii.eqb a c).
    + specialize (IH (i + 1) i). lia.
    + specialize (IH (i + 1) f). lia.
Qed.

Lemma find_total fuel name data m :
  (String.length (property name) < fuel)%nat -> is_Some (find fuel name data m).
Proof.
  revert name data m. induction fuel as [|fuel IH]; intros name data m Hfuel; [lia|].
  rewrite find_S. destruct (m !! property name); [by eexists|].
  destruct (bool_decide _); [by eexists|]. cbn zeta.
  destruct name as [s|]; [|by eexists].
  destruct (String.length s =? 0)%nat eqn:E; [by eexists|].
  apply Nat.eqb_neq in E. change (property (Some s)) with s in *.
  set (pname := Chord.substring s 0 (lastIndexOf s ".")).
  assert (Hp : (String.length pname < fuel)%nat).
  { subst pname. unfold Chord.substring.
    pose proof (String_substring_length
      (Z.to_nat (Z.min (Z.max 0 (Z.min 0 (Z.of_nat (String.length s))))
                   (Z.max 0 (Z.min (lastIndexOf s ".") (Z.of_nat (String.length s))))))
      (Z.to_nat (Z.max (Z.max 0 (Z.min 0 (Z.of_nat (String.length s))))
                   (Z.max 0 (Z.min (lastIndexOf s ".") (Z.of_nat (String.length s))))
                 - Z.min (Z.max 0 (Z.min 0 (Z.of_nat (String.length s))))
                     (Z.max 0 (Z.min (lastIndexOf s ".") (Z.of_nat (String.length s))))))
      s) as Hle.
    pose proof (lastIndexOf_from_bound s "." 0 (-1) ltac:(lia)) as Hi.
    fold (lastIndexOf s ".") in Hi. lia. }
  destruct (IH (Some pname) None (<[s := default (mkNode (Some s) None (Some []) None None) data]> m) Hp)
    as [[m'|e] ->]; [|by eexists].
  destruct (m' !! pname) as [p|]; [|by eexists].
  destruct (children p); by eexists.
Qed.

Lemma packageHierarchy_total classes : is_Some (packageHierarchy classes).
Proof.
  unfold packageHierarchy. generalize (∅ : gmap string node).
  induction classes as [|[d|] classes IH]; intros m; cbn [forEach_find]; [by eexists| |done].
  destruct (find_total (S (String.length (property (name d)))) (name d)
              (Some (of_line d)) m ltac:(lia)) as [[m'|e] ->]; [done|by eexists].
Qed.

Lemma flat_demo s :
  bool_decide (s ≠ "" /\ absent "." s = true /\ s ∉ Object_prototype) = true -> flat s.
Proof. apply bool_decide_eq_true_1. Qed.

Lemma jsonified_region_labels_spec_witness :
  length (jsonified_region_labels chord_demo 3) = 3%nat
  /\ jsonified_region_labels chord_demo 3 !! 0%nat
     = Some (Some (mkLine (Some "A") [Some "B"; Some "C"])).
Proof.
  apply (jsonified_region_labels_spec chord_demo 3 0). lia.
Defined.

Lemma init_chord_hierarchy_witness :
  exists map,
    init_chord chord_demo = Some (Normal map)
    /\ map !! "" = Some (root_node ["A"; "B"; "C"])
    /\ (forall i n, region_labels chord_demo !! i = Some n ->
          map !! n
          = Some (leaf_node n ((fun j => region_labels chord_demo !! j)
                                 <$> connected chord_demo 3 i)))
    /\ (forall k, is_Some (map !! k) -> k = "" \/ k ∈ region_labels chord_demo).
Proof.
  apply (init_chord_hierarchy chord_demo).
  - discriminate.
  - apply (bool_decide_unpack _). vm_compute. exact I.
  - repeat constructor; apply flat_demo; vm_compute; reflexivity.
Defined.

Lemma init_chord_throws_on_nested_label_witness :
  init_chord chord_nested = Some (Throw "TypeError").
Proof.
  apply (init_chord_throws_on_nested_label chord_nested ["a"] "a" "b" []).
  - reflexivity.
  - apply list_elem_of_singleton. reflexivity.
  - apply (bool_decide_unpack _). vm_compute. exact I.
  - repeat constructor; apply flat_demo; vm_compute; reflexivity.
  - reflexivity.
Defined.

(** [init_chord] on [chord_demo], run. *)
Example init_chord_demo : init_chord chord_demo = Some (Normal hierarchy_demo).
Proof. vm_compute. reflexivity. Qed.
